(** * vtzero: the geometry decoder of [include/vtzero/geometry.hpp]

    A shallow embedding of the decoder of vector tile geometries
    ([vtzero::detail::extended_geometry_decoder], its geometric attributes
    and its three drivers) and the properties its description states.

    Integers are [Z] with the wrap-around of their C++ type written out.
    An iterator range [it, end) is the list of the values still to read.
    The handler (visitor) is the list of the calls it received. *)

From Stdlib Require Import String DecimalString.
From Stdlib Require Import ZArith List Lia Bool.
Import ListNotations.

Open Scope Z_scope.

(* ================================================================== *)
(** ** Fixed width integers *)

Module Int.

(** [static_cast<uint32_t>] and unsigned 32 bit arithmetic. *)
Definition u32 (v : Z) : Z := v mod 2 ^ 32.

(** Unsigned 64 bit arithmetic. *)
Definition u64 (v : Z) : Z := v mod 2 ^ 64.

(** Signed 32 bit arithmetic, two's complement. *)
Definition i32 (v : Z) : Z := (v + 2 ^ 31) mod 2 ^ 32 - 2 ^ 31.

(** Signed 64 bit arithmetic, two's complement.  C++ leaves the overflow
    of a signed addition undefined; the embedding takes the result every
    two's complement machine gives. *)
Definition i64 (v : Z) : Z := (v + 2 ^ 63) mod 2 ^ 64 - 2 ^ 63.

Definition is_u32 (v : Z) : Prop := 0 <= v < 2 ^ 32.
Definition is_u64 (v : Z) : Prop := 0 <= v < 2 ^ 64.
Definition is_i32 (v : Z) : Prop := - 2 ^ 31 <= v < 2 ^ 31.
Definition is_i64 (v : Z) : Prop := - 2 ^ 63 <= v < 2 ^ 63.

End Int.

(* ================================================================== *)
(** ** What the header takes from other headers *)

(** Modelled from the spec: [protozero::decode_zigzag32] of
    protozero/varint.hpp, the zigzag mapping of an unsigned 32 bit integer
    to a signed one, [(v >> 1) ^ -(v & 1)]. *)
Definition decode_zigzag32 (v : Z) : Z :=
  Int.i32 (Z.lxor (Z.shiftr v 1) (- Z.land v 1)).

(** Modelled from the spec: [protozero::decode_zigzag64] of
    protozero/varint.hpp, the same mapping on 64 bits. *)
Definition decode_zigzag64 (v : Z) : Z :=
  Int.i64 (Z.lxor (Z.shiftr v 1) (- Z.land v 1)).

(** Modelled from the spec: the enumeration [CommandId] of
    geometry_basics.hpp, MoveTo = 1, LineTo = 2, ClosePath = 7. *)
Inductive CommandId : Type := MOVE_TO | LINE_TO | CLOSE_PATH.

Definition CommandId_value (c : CommandId) : Z :=
  match c with MOVE_TO => 1 | LINE_TO => 2 | CLOSE_PATH => 7 end.

Definition CommandId_eqb (a b : CommandId) : bool :=
  CommandId_value a =? CommandId_value b.

(** Modelled from the spec: [get_command_id] of geometry_basics.hpp, the
    low 3 bits of a command integer. *)
Definition get_command_id (v : Z) : Z := Z.land v 7.

(** Modelled from the spec: [get_command_count] of geometry_basics.hpp,
    the remaining bits of a command integer. *)
Definition get_command_count (v : Z) : Z := Z.shiftr v 3.

(** Modelled from the spec: [command_integer] of geometry_basics.hpp, the
    command integer of an id and a count. *)
Definition command_integer (id : CommandId) (count : Z) : Z :=
  Z.lor (Z.land (CommandId_value id) 7) (Z.shiftl count 3).

(** Modelled from the spec: [max_command_count] of geometry_basics.hpp,
    the largest count 29 bits hold. *)
Definition max_command_count : Z := 2 ^ 29 - 1.

(** Modelled from the spec: [index_value] of types.hpp.  [None] is the
    default constructed (invalid) index, [Some v] the index [v]. *)
Definition index_value : Type := option Z.

(** Modelled from the spec: [ring_type] of geometry_basics.hpp. *)
Inductive ring_type : Type := outer | inner | invalid.

(** [std::to_string] of an unsigned integer. *)
Definition to_string (v : Z) : string :=
  NilZero.string_of_uint (N.to_uint (Z.to_N v)).

(* ================================================================== *)
(** ** Points *)

Record point : Type := mk_point { px : Z; py : Z }.

Record unscaled_point : Type := mk_unscaled_point { x : Z; y : Z; z : Z }.

(** [operator==] on [unscaled_point]. *)
Definition unscaled_point_eqb (a b : unscaled_point) : bool :=
  (x a =? x b) && (y a =? y b) && (z a =? z b).

(* ================================================================== *)
(** ** Exceptions and results *)

Inductive exception : Type :=
| format_exception (msg : string)
| geometry_exception (msg : string)
| assert_error (msg : string).

(** The result of running a piece of the decoder: a value, an exception,
    or the loop bound of the embedding reached (which no run does, see
    the totality lemmas). *)
Inductive outcome (A : Type) : Type :=
| Ok (a : A)
| Throw (e : exception)
| OutOfFuel.

Arguments Ok {A} a.
Arguments Throw {A} e.
Arguments OutOfFuel {A}.

(* ================================================================== *)
(** ** Geometric attributes *)

Module Attr.

(** [geometric_attribute<TIterator>]; [m_it] is the range from the
    attribute's next value to the end of the attribute stream. *)
Record geometric_attribute : Type := mk {
  m_it : list Z;
  m_key_index : index_value;
  m_scaling_index : index_value;
  m_count : Z;
  m_value : Z
}.

(** The default constructor. *)
Definition default : geometric_attribute :=
  {| m_it := []; m_key_index := None; m_scaling_index := None;
     m_count := 0; m_value := 0 |}.

(** The constructor [geometric_attribute(it, key_index, scaling_index,
    count)]. *)
Definition make (it : list Z) (key_index scaling_index count : Z)
  : geometric_attribute :=
  {| m_it := it;
     m_key_index := Some (Int.u32 key_index);
     m_scaling_index := Some (Int.u32 scaling_index);
     m_count := count;
     m_value := 0 |}.

Definition key_index (a : geometric_attribute) := m_key_index a.
Definition scaling_index (a : geometric_attribute) := m_scaling_index a.
Definition value (a : geometric_attribute) := m_value a.

(** [*it] on a range; the decoder never reads an exhausted range. *)
Definition deref (it : list Z) : Z := hd 0 it.

(** [++it]. *)
Definition next (it : list Z) : list Z := tl it.

(** [get_next_value()]: the value returned and the attribute after the
    call. *)
Definition get_next_value (a : geometric_attribute)
  : bool * geometric_attribute :=
  if m_count a =? 0 then (false, a)
  else
    let raw_value := deref (m_it a) in
    let a1 := {| m_it := next (m_it a);
                 m_key_index := m_key_index a;
                 m_scaling_index := m_scaling_index a;
                 m_count := Int.u64 (m_count a - 1);
                 m_value := m_value a |} in
    if raw_value =? 0 then (false, a1)
    else
      (true,
       {| m_it := m_it a1;
          m_key_index := m_key_index a1;
          m_scaling_index := m_scaling_index a1;
          m_count := m_count a1;
          m_value := Int.i64 (m_value a1
                              + decode_zigzag64 (Int.u64 (raw_value - 1))) |}).

(** The inner loop of the constructor of the collection,
    [while (attr_count-- > 0) { ++it; if (attr_count != 0 && it == end)
    throw ...; }], which returns the range after the values. *)
Fixpoint skip_values (fuel : nat) (attr_count : Z) (it : list Z)
  : outcome (list Z) :=
  match fuel with
  | O => OutOfFuel
  | S fuel' =>
      if attr_count >? 0 then
        let attr_count := Int.u64 (attr_count - 1) in
        let it := next it in
        if negb (attr_count =? 0) && (match it with [] => true | _ => false end)
        then Throw (format_exception "geometric attributes end too soon")
        else skip_values fuel' attr_count it
      else Ok it
  end.

(** The loop of the constructor of
    [geometric_attribute_collection<MaxGeometricAttributes, TIterator>]:
    [filled] are the slots of [m_attrs] assigned so far, in order, so
    [m_size] is its length. *)
Fixpoint collect (fuel : nat) (MaxGeometricAttributes : nat)
         (it : list Z) (filled : list geometric_attribute)
  : outcome (list geometric_attribute) :=
  match fuel with
  | O => OutOfFuel
  | S fuel' =>
      match it with
      | [] => Ok filled
      | complex_value :: it =>
          if negb (length filled <? MaxGeometricAttributes)%nat then Ok filled
          else if negb (Z.land complex_value 15 =? 10) then
            Throw (format_exception
                     "geometric attributes must be of type number list")
          else
            match it with
            | [] => Throw (format_exception "geometric attributes end too soon")
            | attr_count :: it =>
                match it with
                | [] => Throw (format_exception "geometric attributes end too soon")
                | scaling :: it =>
                    match it with
                    | [] => Throw (format_exception
                                     "geometric attributes end too soon")
                    | _ :: _ =>
                        let filled :=
                          filled ++ [make it (Z.shiftr complex_value 4)
                                          scaling attr_count] in
                        match skip_values (S (length it)) attr_count it with
                        | Ok it => collect fuel' MaxGeometricAttributes it filled
                        | Throw e => Throw e
                        | OutOfFuel => OutOfFuel
                        end
                    end
                end
            end
      end
  end.

(** [geometric_attribute_collection(it, end)]: the array [m_attrs] of
    [MaxGeometricAttributes] slots, the first [m_size] of them assigned
    and the others default constructed.  [begin()] and [end()] are those
    of the array, so a loop over the collection visits every slot. *)
Definition collection (MaxGeometricAttributes : nat) (it : list Z)
  : outcome (list geometric_attribute) :=
  match collect (S (length it)) MaxGeometricAttributes it [] with
  | Ok filled =>
      Ok (filled ++ repeat default (MaxGeometricAttributes - length filled))
  | Throw e => Throw e
  | OutOfFuel => OutOfFuel
  end.

(** The values an attribute still counts are in its range: [*m_it++] of
    [get_next_value()] reads inside the attribute stream. *)
Definition values_present (a : geometric_attribute) : Prop :=
  0 <= m_count a <= Z.of_nat (length (m_it a)) /\ m_count a < 2 ^ 64.

End Attr.

(* ================================================================== *)
(** ** The decoder *)

(** The type [TAttrIterator] of the attribute stream: the
    [dummy_attr_iterator] of a geometry without geometric attributes, or
    an iterator over a stream of unsigned 64 bit integers. *)
Inductive attr_iterator : Type :=
| dummy_attr_iterator
| attr_range (it : list Z).

(** The members of [extended_geometry_decoder].  [m_geom_it] is the range
    from [m_geom_it] to [m_geom_end], [m_elev_it] the one from [m_elev_it]
    to [m_elev_end] (empty for the [dummy_elev_iterator], whose begin and
    end are equal), [m_attr_it] the one of the attribute stream. *)
Record extended_geometry_decoder : Type := mk_decoder {
  m_geom_it : list Z;
  m_elev_it : list Z;
  m_attr_it : attr_iterator;
  m_cursor : unscaled_point;
  m_max_count : Z;
  m_count : Z
}.

(** The members as the constructor initializes them. *)
Definition initial (geom elev : list Z) (attr : attr_iterator) (max : Z)
  : extended_geometry_decoder :=
  {| m_geom_it := geom; m_elev_it := elev; m_attr_it := attr;
     m_cursor := mk_unscaled_point 0 0 0;
     m_max_count := Int.u32 max;
     m_count := 0 |}.

(** The constructor: the members, then the assertion on [max]. *)
Definition construct (geom elev : list Z) (attr : attr_iterator) (max : Z)
  : outcome extended_geometry_decoder :=
  if max <=? max_command_count then Ok (initial geom elev attr max)
  else Throw (assert_error "max <= detail::max_command_count()").

(** [det(a, b)], in 64 bit arithmetic. *)
Definition det (a b : unscaled_point) : Z :=
  Int.i64 (Int.i64 (x a * y b) - Int.i64 (x b * y a)).

(** The argument of [ring_end]. *)
Definition ring_type_of_sum (sum : Z) : ring_type :=
  if sum >? 0 then outer else if sum <? 0 then inner else invalid.

(** The calls a handler receives; [T] is the type of the points its
    [convert] returns. *)
Inductive handler_call (T : Type) : Type :=
| points_begin (count : Z)
| points_point (p : T)
| points_end
| linestring_begin (count : Z)
| linestring_point (p : T)
| linestring_end
| ring_begin (count : Z)
| ring_point (p : T)
| ring_end (rt : ring_type)
| call_points_attr (key_index scaling_index : index_value) (value : Z)
| call_points_null_attr (key_index : index_value).

Arguments points_begin {T} count.
Arguments points_point {T} p.
Arguments points_end {T}.
Arguments linestring_begin {T} count.
Arguments linestring_point {T} p.
Arguments linestring_end {T}.
Arguments ring_begin {T} count.
Arguments ring_point {T} p.
Arguments ring_end {T} rt.
Arguments call_points_attr {T} key_index scaling_index value.
Arguments call_points_null_attr {T} key_index.

(** What a run of a driver works on: the decoder, the local
    [geom_attributes] of the driver, and the calls made on the handler so
    far, the first one first. *)
Record machine (T : Type) : Type := mk_machine {
  dec : extended_geometry_decoder;
  geom_attributes : list Attr.geometric_attribute;
  calls : list (handler_call T)
}.

Arguments mk_machine {T} dec geom_attributes calls.
Arguments dec {T} m.
Arguments geom_attributes {T} m.
Arguments calls {T} m.

(** A decoder before any driver ran on it. *)
Definition start {T : Type} (d : extended_geometry_decoder) : machine T :=
  mk_machine d [] [].

(** Computations on a machine that return a value or throw; the machine
    is kept in both cases. *)
Definition M (T A : Type) : Type := machine T -> outcome A * machine T.

Definition ret {T A : Type} (a : A) : M T A := fun s => (Ok a, s).

Definition bind {T A B : Type} (m : M T A) (f : A -> M T B) : M T B :=
  fun s =>
    match m s with
    | (Ok a, s1) => f a s1
    | (Throw e, s1) => (Throw e, s1)
    | (OutOfFuel, s1) => (OutOfFuel, s1)
    end.

Definition throw {T A : Type} (e : exception) : M T A := fun s => (Throw e, s).

Definition out_of_fuel {T A : Type} : M T A := fun s => (OutOfFuel, s).

Declare Scope decoder_scope.
Delimit Scope decoder_scope with dec.

Notation "v <- m ;; k" := (bind m (fun v => k))
  (at level 100, m at next level, right associativity) : decoder_scope.
Notation "m ;; k" := (bind m (fun _ => k))
  (at level 100, right associativity) : decoder_scope.

Open Scope decoder_scope.

Section Decoder.

(** The template parameters [Dimensions] and [MaxGeometricAttributes],
    and the handler's [convert]. *)
Variable Dimensions : Z.
Variable MaxGeometricAttributes : nat.
Variable T : Type.
Variable convert : unscaled_point -> T.

(** A call on the handler. *)
Definition call (c : handler_call T) : M T unit :=
  fun s => (Ok tt, mk_machine (dec s) (geom_attributes s) (calls s ++ [c])).

(** [count()]. *)
Definition count : M T Z := fun s => (Ok (m_count (dec s)), s).

(** [done()]. *)
Definition done_of (d : extended_geometry_decoder) : bool :=
  match m_geom_it d, m_elev_it d with
  | [], [] => true
  | _, _ => false
  end.

Definition done : M T bool := fun s => (Ok (done_of (dec s)), s).

(** [next_command(expected_command_id)]. *)
Definition next_command (expected_command_id : CommandId) : M T bool :=
  fun s =>
    let d := dec s in
    if negb (m_count d =? 0) then (Throw (assert_error "m_count == 0"), s)
    else
      match m_geom_it d with
      | [] => (Ok false, s)
      | word :: rest =>
          let command_id := get_command_id word in
          if negb (command_id =? Int.u32 (CommandId_value expected_command_id))
          then
            (Throw (geometry_exception
                      (String.append "expected command "
                         (String.append
                            (to_string (Int.u32 (CommandId_value expected_command_id)))
                            (String.append " but got " (to_string command_id))))),
             s)
          else
            match expected_command_id with
            | CLOSE_PATH =>
                if negb (get_command_count word =? 1) then
                  (Throw (geometry_exception "ClosePath command count is not 1"), s)
                else
                  (Ok true,
                   mk_machine
                     (mk_decoder rest (m_elev_it d) (m_attr_it d) (m_cursor d)
                                 (m_max_count d) (m_count d))
                     (geom_attributes s) (calls s))
            | _ =>
                let m_count' := get_command_count word in
                if m_count' >? m_max_count d then
                  (Throw (geometry_exception "count too large"),
                   mk_machine
                     (mk_decoder (m_geom_it d) (m_elev_it d) (m_attr_it d)
                                 (m_cursor d) (m_max_count d) m_count')
                     (geom_attributes s) (calls s))
                else
                  (Ok true,
                   mk_machine
                     (mk_decoder rest (m_elev_it d) (m_attr_it d) (m_cursor d)
                                 (m_max_count d) m_count')
                     (geom_attributes s) (calls s))
            end
      end.

(** The cursor after the two parameter integers [px], [py] of a point
    and, in three dimensions, the elevation at the front of [elev]. *)
Definition move_cursor (c : unscaled_point) (px py : Z) (elev : list Z)
  : unscaled_point :=
  {| x := Int.i32 (x c + decode_zigzag32 px);
     y := Int.i32 (y c + decode_zigzag32 py);
     z := match elev with
          | e :: _ => if Dimensions =? 3 then Int.i64 (z c + e) else z c
          | [] => z c
          end |}.

(** [next_point()]. *)
Definition next_point : M T unscaled_point :=
  fun s =>
    let d := dec s in
    if negb (m_count d >? 0) then (Throw (assert_error "m_count > 0"), s)
    else
      match m_geom_it d with
      | [] | [_] => (Throw (geometry_exception "too few points in geometry"), s)
      | px :: py :: rest =>
          let cursor := move_cursor (m_cursor d) px py (m_elev_it d) in
          let elev :=
            match m_elev_it d with
            | _ :: elev' => if Dimensions =? 3 then elev' else m_elev_it d
            | [] => []
            end in
          (Ok cursor,
           mk_machine
             (mk_decoder rest elev (m_attr_it d) cursor (m_max_count d)
                         (Int.u32 (m_count d - 1)))
             (geom_attributes s) (calls s))
      end.

(** The construction of the local [geom_attributes] from [m_attr_it]:
    the specialization for the [dummy_attr_iterator] has no attribute,
    the other one parses the stream. *)
Definition new_geom_attributes : M T unit :=
  fun s =>
    match m_attr_it (dec s) with
    | dummy_attr_iterator => (Ok tt, mk_machine (dec s) [] (calls s))
    | attr_range it =>
        match Attr.collection MaxGeometricAttributes it with
        | Ok attrs => (Ok tt, mk_machine (dec s) attrs (calls s))
        | Throw e => (Throw e, s)
        | OutOfFuel => (OutOfFuel, s)
        end
    end.

(** The body of [for (auto& geom_attr : geom_attributes)] for one
    attribute: the attribute after [get_next_value()] and the call made. *)
Definition attribute_call (geom_attr : Attr.geometric_attribute)
  : Attr.geometric_attribute * handler_call T :=
  let (has_value, geom_attr) := Attr.get_next_value geom_attr in
  if has_value then
    (geom_attr,
     call_points_attr (Attr.key_index geom_attr) (Attr.scaling_index geom_attr)
                      (Attr.value geom_attr))
  else (geom_attr, call_points_null_attr (Attr.key_index geom_attr)).

(** The loop [for (auto& geom_attr : geom_attributes)] over the
    collection. *)
Fixpoint attribute_calls (attrs : list Attr.geometric_attribute)
  : list Attr.geometric_attribute * list (handler_call T) :=
  match attrs with
  | [] => ([], [])
  | geom_attr :: attrs =>
      let (geom_attr, c) := attribute_call geom_attr in
      let (attrs, cs) := attribute_calls attrs in
      (geom_attr :: attrs, c :: cs)
  end.

Definition for_geom_attributes : M T unit :=
  fun s =>
    let (attrs, cs) := attribute_calls (geom_attributes s) in
    (Ok tt, mk_machine (dec s) attrs (calls s ++ cs)).

(** *** The two loop statements of the drivers *)

(** [while (count() > 0) { body }]; [a] are the locals of the driver the
    body assigns. *)
Fixpoint while_count {A : Type} (fuel : nat) (body : A -> M T A) (a : A)
  : M T A :=
  match fuel with
  | O => out_of_fuel
  | S fuel =>
      c <- count ;;
      if c >? 0 then
        a <- body a ;;
        while_count fuel body a
      else ret a
  end.

(** [while (next_command(CommandId::MOVE_TO)) { body }]. *)
Fixpoint while_move_to (fuel : nat) (body : M T unit) : M T unit :=
  match fuel with
  | O => out_of_fuel
  | S fuel =>
      has_command <- next_command MOVE_TO ;;
      if has_command then
        body ;;
        while_move_to fuel body
      else ret tt
  end.

(** *** The point driver *)

(** The part of [decode_point] before the test of [done()]. *)
Definition decode_point_points : M T unit :=
  has_command <- next_command MOVE_TO ;;
  if negb has_command then
    throw (geometry_exception "expected MoveTo command (spec 4.3.4.2)")
  else
    c <- count ;;
    if c =? 0 then
      throw (geometry_exception "MoveTo command count is zero (spec 4.3.4.2)")
    else
      new_geom_attributes ;;
      c <- count ;;
      call (points_begin c) ;;
      c <- count ;;
      while_count (S (Z.to_nat c))
        (fun _ =>
           p <- next_point ;;
           call (points_point (convert p)) ;;
           for_geom_attributes)
        tt.

(** [decode_point(geom_handler)]. *)
Definition decode_point : M T unit :=
  decode_point_points ;;
  d <- done ;;
  if negb d then
    throw (geometry_exception
             "additional data after end of geometry (spec 4.3.4.2)")
  else call points_end.

(** *** The linestring driver *)

(** The body of the loop of [decode_linestring]: one linestring. *)
Definition decode_linestring_body : M T unit :=
  c <- count ;;
  if negb (c =? 1) then
    throw (geometry_exception "MoveTo command count is not 1 (spec 4.3.4.3)")
  else
    p <- next_point ;;
    let first_point := convert p in
    has_command <- next_command LINE_TO ;;
    if negb has_command then
      throw (geometry_exception "expected LineTo command (spec 4.3.4.3)")
    else
      c <- count ;;
      if c =? 0 then
        throw (geometry_exception "LineTo command count is zero (spec 4.3.4.3)")
      else
        c <- count ;;
        call (linestring_begin (Int.u32 (c + 1))) ;;
        call (linestring_point first_point) ;;
        for_geom_attributes ;;
        c <- count ;;
        while_count (S (Z.to_nat c))
          (fun _ =>
             p <- next_point ;;
             call (linestring_point (convert p)) ;;
             for_geom_attributes)
          tt ;;
        call linestring_end.

(** [decode_linestring(geom_handler)]: the attributes, then the loop over
    the linestrings, which ends before the geometry stream does. *)
Definition decode_linestring : M T unit :=
  new_geom_attributes ;;
  fun s =>
    while_move_to (S (length (m_geom_it (dec s)))) decode_linestring_body s.

(** *** The polygon driver *)

(** The body of the loop of [decode_polygon]: one ring.  The locals [sum]
    and [last_point] are the pair the inner loop works on. *)
Definition decode_polygon_body : M T unit :=
  c <- count ;;
  if negb (c =? 1) then
    throw (geometry_exception "MoveTo command count is not 1 (spec 4.3.4.4)")
  else
    let sum := 0 in
    start_point <- next_point ;;
    let last_point := start_point in
    has_command <- next_command LINE_TO ;;
    if negb has_command then
      throw (geometry_exception "expected LineTo command (spec 4.3.4.4)")
    else
      c <- count ;;
      call (ring_begin (Int.u32 (c + 2))) ;;
      call (ring_point (convert start_point)) ;;
      for_geom_attributes ;;
      c <- count ;;
      locals <- while_count (S (Z.to_nat c))
                  (fun '(sum, last_point) =>
                     p <- next_point ;;
                     let sum := Int.i64 (sum + det last_point p) in
                     let last_point := p in
                     call (ring_point (convert p)) ;;
                     for_geom_attributes ;;
                     ret (sum, last_point))
                  (sum, last_point) ;;
      let '(sum, last_point) := locals in
      has_command <- next_command CLOSE_PATH ;;
      if negb has_command then
        throw (geometry_exception "expected ClosePath command (4.3.4.4)")
      else
        let sum := Int.i64 (sum + det last_point start_point) in
        call (ring_point (convert start_point)) ;;
        call (ring_end (ring_type_of_sum sum)).

(** [decode_polygon(geom_handler)]: the attributes, then the loop over
    the rings. *)
Definition decode_polygon : M T unit :=
  new_geom_attributes ;;
  fun s =>
    while_move_to (S (length (m_geom_it (dec s)))) decode_polygon_body s.

(** *** The shape of what a driver reads and of the calls it makes *)

(** A decoded vertex: its two parameter integers in the geometry stream,
    the point [next_point()] returned for them, and the calls the loop
    over the attributes made after the point. *)
Record vertex : Type := mk_vertex {
  v_px : Z;
  v_py : Z;
  v_point : unscaled_point;
  v_calls : list (handler_call T)
}.

(** What the decoding of a vertex works on besides the geometry stream:
    the cursor, the elevation stream and the attributes. *)
Record reader : Type := mk_reader {
  r_cursor : unscaled_point;
  r_elev : list Z;
  r_attrs : list Attr.geometric_attribute
}.

Definition reader_of (s : machine T) : reader :=
  mk_reader (m_cursor (dec s)) (m_elev_it (dec s)) (geom_attributes s).

(** The elevation stream after [next_point()]. *)
Definition next_elev (elev : list Z) : list Z :=
  match elev with
  | _ :: elev' => if Dimensions =? 3 then elev' else elev
  | [] => []
  end.

(** What no step of a driver changes: the attribute stream and the
    maximum count. *)
Definition same_frame (s s' : machine T) : Prop :=
  m_attr_it (dec s') = m_attr_it (dec s)
  /\ m_max_count (dec s') = m_max_count (dec s).

(** The reader after a vertex. *)
Definition reader_after (r : reader) (v : vertex) : reader :=
  mk_reader (v_point v) (next_elev (r_elev r))
            (fst (attribute_calls (r_attrs r))).

(** [decoded r vs r']: from [r], the vertices [vs] are what is decoded
    one after the other, each from the reader the one before left, and
    [r'] is the reader after the last. *)
Fixpoint decoded (r : reader) (vs : list vertex) (r' : reader) : Prop :=
  match vs with
  | [] => r' = r
  | v :: vs =>
      v_point v = move_cursor (r_cursor r) (v_px v) (v_py v) (r_elev r)
      /\ v_calls v = snd (attribute_calls (r_attrs r))
      /\ decoded (reader_after r v) vs r'
  end.

(** The two integers of a vertex in the geometry stream. *)
Definition vertex_words (v : vertex) : list Z := [v_px v; v_py v].

(** The calls for a vertex, [point] being [points_point],
    [linestring_point] or [ring_point]. *)
Definition vertex_calls (point : T -> handler_call T) (v : vertex)
  : list (handler_call T) :=
  point (convert (v_point v)) :: v_calls v.

(** The loop body of the three loops over the points of a command, up to
    the locals: [p = next_point(); point(convert(p)); for ...], and [f]
    what the body does to the locals. *)
Definition vertex_body {A : Type} (point : T -> handler_call T)
           (f : A -> unscaled_point -> A) (a : A) : M T A :=
  p <- next_point ;;
  call (point (convert p)) ;;
  for_geom_attributes ;;
  ret (f a p).

(** A linestring or a ring: the vertex of its MoveTo and the vertices of
    its LineTo. *)
Record path : Type := mk_path {
  p_first : vertex;
  p_rest : list vertex
}.

Definition path_vertices (p : path) : list vertex := p_first p :: p_rest p.

(** The geometry stream of a point geometry of the vertices [vs], and the
    calls of its decoding. *)
Definition points_words (vs : list vertex) : list Z :=
  command_integer MOVE_TO (Z.of_nat (length vs)) :: flat_map vertex_words vs.

Definition points_calls (vs : list vertex) : list (handler_call T) :=
  points_begin (Z.of_nat (length vs))
  :: flat_map (vertex_calls points_point) vs ++ [points_end].

(** The geometry stream of a linestring, and the calls of its decoding. *)
Definition linestring_words (p : path) : list Z :=
  command_integer MOVE_TO 1 :: vertex_words (p_first p)
  ++ command_integer LINE_TO (Z.of_nat (length (p_rest p)))
  :: flat_map vertex_words (p_rest p).

Definition linestring_calls (p : path) : list (handler_call T) :=
  linestring_begin (Z.of_nat (length (p_rest p)) + 1)
  :: flat_map (vertex_calls linestring_point) (path_vertices p)
  ++ [linestring_end].

(** The value of the local [sum] of [decode_polygon] at [ring_end], from
    the start point and the points of the LineTo. *)
Definition ring_sum_step (acc : Z * unscaled_point) (p : unscaled_point)
  : Z * unscaled_point :=
  (Int.i64 (fst acc + det (snd acc) p), p).

Definition ring_sum (start_point : unscaled_point) (rest : list unscaled_point)
  : Z :=
  let acc := fold_left ring_sum_step rest (0, start_point) in
  Int.i64 (fst acc + det (snd acc) start_point).

(** The geometry stream of a ring, and the calls of its decoding. *)
Definition ring_words (p : path) : list Z :=
  command_integer MOVE_TO 1 :: vertex_words (p_first p)
  ++ command_integer LINE_TO (Z.of_nat (length (p_rest p)))
  :: flat_map vertex_words (p_rest p)
  ++ [command_integer CLOSE_PATH 1].

Definition ring_calls (p : path) : list (handler_call T) :=
  ring_begin (Z.of_nat (length (p_rest p)) + 2)
  :: flat_map (vertex_calls ring_point) (path_vertices p)
  ++ [ring_point (convert (v_point (p_first p)));
      ring_end (ring_type_of_sum
                  (ring_sum (v_point (p_first p)) (map v_point (p_rest p))))].

(** The elevation stream after [n] vertices, [next_point()] having read
    one elevation per vertex in three dimensions, and the attributes after
    [n] vertices, the loop over the attributes having called
    [get_next_value()] once per attribute and vertex. *)
Definition elev_after (n : nat) (elev : list Z) : list Z :=
  Nat.iter n next_elev elev.

Definition attrs_after (n : nat) (attrs : list Attr.geometric_attribute)
  : list Attr.geometric_attribute :=
  Nat.iter n (fun attrs => fst (attribute_calls attrs)) attrs.

(** [carried_over c elev attrs ps]: every vertex of the paths [ps], the
    [n] vertices of the stream before it being of whatever paths, is the
    vertex before it (the cursor [c] for the first vertex) moved by its
    two parameter integers and by the elevation at the front of [elev]
    after [n] vertices, and its attribute calls are those of the
    attributes [attrs] after [n] vertices.  In particular the first vertex
    of a path [q] that comes after a path [p] is the last vertex of [p]
    moved, with the elevations and the attributes as all the vertices up
    to the end of [p] have left them. *)
Definition carried_over (c : unscaled_point) (elev : list Z)
           (attrs : list Attr.geometric_attribute) (ps : list (path)) : Prop :=
  (forall vs1 v vs2,
      flat_map path_vertices ps = vs1 ++ v :: vs2 ->
      v_point v
      = move_cursor (last (map v_point vs1) c) (v_px v) (v_py v)
                    (elev_after (length vs1) elev)
      /\ v_calls v
         = snd (attribute_calls (attrs_after (length vs1) attrs)))
  /\ (forall ps1 p q ps2,
         ps = ps1 ++ p :: q :: ps2 ->
         v_point (p_first q)
         = move_cursor (v_point (last (p_rest p) (p_first p)))
                       (v_px (p_first q)) (v_py (p_first q))
                       (elev_after
                          (length (flat_map path_vertices (ps1 ++ [p])))
                          elev)
         /\ v_calls (p_first q)
            = snd (attribute_calls
                     (attrs_after
                        (length (flat_map path_vertices (ps1 ++ [p])))
                        attrs))).

End Decoder.

Arguments call {T} c s.
Arguments count {T} s.
Arguments done {T} s.
Arguments next_command {T} expected_command_id s.
Arguments next_point Dimensions {T} s.
Arguments new_geom_attributes MaxGeometricAttributes {T} s.
Arguments for_geom_attributes {T} s.
Arguments while_count {T A} fuel body a s.
Arguments while_move_to {T} fuel body s.
Arguments decode_point_points Dimensions MaxGeometricAttributes {T} convert s.
Arguments decode_point Dimensions MaxGeometricAttributes {T} convert s.
Arguments decode_linestring_body Dimensions {T} convert s.
Arguments decode_linestring Dimensions MaxGeometricAttributes {T} convert s.
Arguments decode_polygon_body Dimensions {T} convert s.
Arguments decode_polygon Dimensions MaxGeometricAttributes {T} convert s.
Arguments v_px {T} v.
Arguments v_py {T} v.
Arguments v_point {T} v.
Arguments v_calls {T} v.
Arguments mk_vertex {T} v_px v_py v_point v_calls.
Arguments reader_of {T} s.
Arguments same_frame {T} s s'.
Arguments reader_after Dimensions {T} r v.
Arguments decoded Dimensions {T} r vs r'.
Arguments vertex_words {T} v.
Arguments vertex_calls {T} convert point v.
Arguments vertex_body Dimensions {T} convert {A} point f a s.
Arguments p_first {T} p.
Arguments p_rest {T} p.
Arguments mk_path {T} p_first p_rest.
Arguments path_vertices {T} p.
Arguments points_words {T} vs.
Arguments points_calls {T} convert vs.
Arguments linestring_words {T} p.
Arguments linestring_calls {T} convert p.
Arguments ring_words {T} p.
Arguments ring_calls {T} convert p.
Arguments carried_over Dimensions {T} c elev attrs ps.

(** ** Twice the signed area of a ring, in exact arithmetic *)

(** The cross product of two points of the plane. *)
Definition cross (a b : unscaled_point) : Z := x a * y b - x b * y a.

(** The sum of the cross products of the consecutive points of the closed
    ring [last, p1, ..., pn, start_point] (the shoelace formula). *)
Fixpoint shoelace (start_point last : unscaled_point)
         (rest : list unscaled_point) : Z :=
  match rest with
  | [] => cross last start_point
  | p :: rest => cross last p + shoelace start_point p rest
  end.

Definition twice_signed_area (start_point : unscaled_point)
           (rest : list unscaled_point) : Z :=
  shoelace start_point start_point rest.

(** The values the local [sum] of [decode_polygon] takes after each
    [sum += det(..)], the one after ClosePath included, as integers
    without bound: [acc] is the value before, [last] the last point. *)
Fixpoint partial_sums (start_point last : unscaled_point) (acc : Z)
         (rest : list unscaled_point) : list Z :=
  match rest with
  | [] => [acc + cross last start_point]
  | p :: rest =>
      (acc + cross last p)
      :: partial_sums start_point p (acc + cross last p) rest
  end.

Definition ring_partial_sums (start_point : unscaled_point)
           (rest : list unscaled_point) : list Z :=
  partial_sums start_point start_point 0 rest.


(** The points [linestring_point] was called with, in a list of calls. *)
Definition linestring_points {T : Type} (cs : list (handler_call T)) : list T :=
  flat_map (fun c => match c with linestring_point p => [p] | _ => [] end) cs.

(** The points [points_point] was called with, in a list of calls. *)
Definition points_points {T : Type} (cs : list (handler_call T)) : list T :=
  flat_map (fun c => match c with points_point p => [p] | _ => [] end) cs.

(** The calls that pass an attribute. *)
Definition is_attr_call {T : Type} (c : handler_call T) : bool :=
  match c with
  | call_points_attr _ _ _ | call_points_null_attr _ => true
  | _ => false
  end.


(** ** Inputs of the examples *)

(** A handler whose [convert] keeps the point as it is. *)
Definition keep (p : unscaled_point) : unscaled_point := p.

(** Two linestrings of two and three points: MoveTo(1) 1 1, LineTo(1) 1 1,
    MoveTo(1) 1 1, LineTo(2) -1 -1 -1 -1. *)
Definition two_linestrings : list Z :=
  [9; 2; 2; 10; 2; 2; 9; 2; 2; 18; 1; 1; 1; 1].

(** One linestring of two points: MoveTo(1) 1 1, LineTo(1) 1 1. *)
Definition one_linestring : list Z := [9; 2; 2; 10; 2; 2].

(** A triangle: MoveTo(1) 1 1, LineTo(2) 1 0 0 1, ClosePath. *)
Definition triangle : list Z := [9; 2; 2; 18; 2; 0; 0; 2; 15].

(** Two triangles, one after the other. *)
Definition two_triangles : list Z := triangle ++ triangle.

(** The square of the corners (-M, -M), (M, -M), (M, M), (-M, M), M the
    largest 32 bit integer, through the middle of its sides, counter
    clockwise: MoveTo(1) -M -M, LineTo(7) and seven steps of M,
    ClosePath. *)
Definition large_square : list Z :=
  [9; 4294967293; 4294967293;
   58; 4294967294; 0; 4294967294; 0; 0; 4294967294; 0; 4294967294;
       4294967293; 0; 4294967293; 0; 0; 4294967293;
   15].

Definition large_square_start : unscaled_point :=
  mk_unscaled_point (-2147483647) (-2147483647) 0.

Definition large_square_rest : list unscaled_point :=
  [mk_unscaled_point 0 (-2147483647) 0;
   mk_unscaled_point 2147483647 (-2147483647) 0;
   mk_unscaled_point 2147483647 0 0;
   mk_unscaled_point 2147483647 2147483647 0;
   mk_unscaled_point 0 2147483647 0;
   mk_unscaled_point (-2147483647) 2147483647 0;
   mk_unscaled_point (-2147483647) 0 0].

(** One point: MoveTo(1) 5 5. *)
Definition one_point : list Z := [9; 10; 10].

(** An attribute stream with one attribute: key 0, type number list, one
    value, scaling 0, and the value 5 (the delta 2). *)
Definition one_attribute : list Z := [10; 1; 0; 5].

(** One point and an integer after it: MoveTo(1) 5 5, 3. *)
Definition one_point_and_more : list Z := [9; 10; 10; 3].

(** A ClosePath command integer of count 2. *)
Definition close_path_2 : Z := 23.

(** An attribute stream with one attribute of five values: key 0, type
    number list, five values, scaling 0, and the values 3, 5, 7, 9, 11
    (the deltas 1, 2, 3, 4, 5). *)
Definition five_values : list Z := [10; 5; 0; 3; 5; 7; 9; 11].

(** The machines the drivers start from in the examples. *)
Definition linestrings_start : machine unscaled_point :=
  start (initial two_linestrings [] dummy_attr_iterator 7).

Definition triangles_start : machine unscaled_point :=
  start (initial two_triangles [] dummy_attr_iterator 9).

Definition point_and_more_start : machine unscaled_point :=
  start (initial one_point_and_more [] dummy_attr_iterator 2).

Definition close_path_2_start : machine unscaled_point :=
  start (initial [close_path_2] [] dummy_attr_iterator 1).

(** A triangle whose ClosePath has the count 2. *)
Definition triangle_close_path_2 : list Z := [9; 2; 2; 18; 2; 0; 0; 2; 23].

(** A MoveTo of count 0. *)
Definition move_to_0 : list Z := [1].

(** The two linestrings in three dimensions, with five elevations and the
    attribute of five values. *)
Definition elevated_linestrings_start : machine unscaled_point :=
  start (initial two_linestrings [10; 20; 30; 40; 50]
                 (attr_range five_values) 7).

(* ================================================================== *)
(** * Further definitions *)

(** ** Runs of an attribute *)

(** The attribute after [n] calls of [get_next_value()]. *)
Fixpoint read_values (n : nat) (a : Attr.geometric_attribute)
  : Attr.geometric_attribute :=
  match n with
  | O => a
  | S n => read_values n (snd (Attr.get_next_value a))
  end.

(** What [get_next_value()] adds to the value of an attribute for a raw
    value: nothing for 0, [decode_zigzag64(raw_value - 1)] otherwise. *)
Definition attribute_delta (raw_value : Z) : Z :=
  if raw_value =? 0 then 0 else decode_zigzag64 (Int.u64 (raw_value - 1)).

(** The sum of a list of integers. *)
Definition sum_Z (l : list Z) : Z := fold_right Z.add 0 l.

(** ** Vertices as sums of deltas *)

(** [sums_of_deltas Dimensions c elev vs]: every vertex of [vs] is the
    cursor [c] plus the zigzag decoded parameter integers of the vertices
    up to it, in 32 bits, and its elevation is that of [c] plus, in three
    dimensions, the elevations of [elev] up to it, in 64 bits. *)
Definition sums_of_deltas (Dimensions : Z) {T : Type} (c : unscaled_point)
           (elev : list Z) (vs : list (vertex T)) : Prop :=
  forall (vs1 : list (vertex T)) (v : vertex T) (vs2 : list (vertex T)),
    vs = vs1 ++ v :: vs2 ->
    x (v_point v)
    = Int.i32 (x c + sum_Z (map (fun u => decode_zigzag32 (v_px u))
                                (vs1 ++ [v])))
    /\ y (v_point v)
       = Int.i32 (y c + sum_Z (map (fun u => decode_zigzag32 (v_py u))
                                   (vs1 ++ [v])))
    /\ z (v_point v)
       = if Dimensions =? 3
         then Int.i64 (z c + sum_Z (firstn (S (length vs1)) elev))
         else z c.

(** ** The streams the drivers accept, and what they decode to *)

(** The two parameter integers of each point of a command. *)
Definition param_words (params : list (Z * Z)) : list Z :=
  flat_map (fun param => [fst param; snd param]) params.

(** A linestring or ring as it is in the geometry stream: the parameter
    integers of the point of its MoveTo and of the points of its LineTo. *)
Definition raw_path : Type := ((Z * Z) * list (Z * Z))%type.

(** The geometry stream of a point geometry, of a linestring and of a
    ring, from the parameter integers. *)
Definition raw_points_words (params : list (Z * Z)) : list Z :=
  command_integer MOVE_TO (Z.of_nat (length params)) :: param_words params.

Definition raw_linestring_words (raw : raw_path) : list Z :=
  command_integer MOVE_TO 1 :: fst (fst raw) :: snd (fst raw)
  :: command_integer LINE_TO (Z.of_nat (length (snd raw)))
  :: param_words (snd raw).

Definition raw_ring_words (raw : raw_path) : list Z :=
  raw_linestring_words raw ++ [command_integer CLOSE_PATH 1].

Section Reference.

Variable Dimensions : Z.
Variable T : Type.

(** The vertex the decoder makes of two parameter integers, from a
    reader. *)
Definition vertex_of (r : reader) (param : Z * Z) : vertex T :=
  mk_vertex (fst param) (snd param)
            (move_cursor Dimensions (r_cursor r) (fst param) (snd param)
                         (r_elev r))
            (snd (attribute_calls T (r_attrs r))).

(** The vertices of the points of a command, and the reader after them. *)
Fixpoint vertices_of (r : reader) (params : list (Z * Z))
  : list (vertex T) * reader :=
  match params with
  | [] => ([], r)
  | param :: params =>
      let v := vertex_of r param in
      let (vs, r') := vertices_of (reader_after Dimensions r v) params in
      (v :: vs, r')
  end.

(** The paths of a sequence of linestrings or rings, and the reader after
    them. *)
Fixpoint paths_of (r : reader) (raws : list raw_path)
  : list (path T) * reader :=
  match raws with
  | [] => ([], r)
  | raw :: raws =>
      let v := vertex_of r (fst raw) in
      let (vs, r1) := vertices_of (reader_after Dimensions r v) (snd raw) in
      let (ps, r2) := paths_of r1 raws in
      (mk_path v vs :: ps, r2)
  end.

(** The parameter integers a path was decoded from. *)
Definition raw_of_vertex (v : vertex T) : Z * Z := (v_px v, v_py v).

Definition raw_of_path (p : path T) : raw_path :=
  (raw_of_vertex (p_first p), map raw_of_vertex (p_rest p)).

End Reference.

Arguments raw_of_vertex {T} v.
Arguments raw_of_path {T} p.

(** The constructor of the collection for the type of the attribute
    iterator: the specialization for the [dummy_attr_iterator] has no
    attribute, the other one parses the stream. *)
Definition collection_of (MaxGeometricAttributes : nat) (it : attr_iterator)
  : outcome (list Attr.geometric_attribute) :=
  match it with
  | dummy_attr_iterator => Ok []
  | attr_range it => Attr.collection MaxGeometricAttributes it
  end.

(** ** How a driver ends *)

(** An exception raised for the input: a geometry exception, for the
    geometry stream, or a format exception, for the attribute stream,
    which a decoder on the [dummy_attr_iterator] does not have.  A failed
    assertion is none. *)
Definition raised_for_input (attr : attr_iterator) (e : exception) : Prop :=
  match e with
  | geometry_exception _ => True
  | format_exception _ => attr <> dummy_attr_iterator
  | assert_error _ => False
  end.

(** A run that returns or raises an exception for the input. *)
Definition ends_well {A : Type} (attr : attr_iterator) (o : outcome A)
  : Prop :=
  match o with
  | Ok _ => True
  | Throw e => raised_for_input attr e
  | OutOfFuel => False
  end.

(** ** The decoder of plain geometries and the entry points *)

(** [geometry_decoder(begin, end, max)]: the decoder of two dimensions
    without geometric attributes, on the [dummy_elev_iterator] (a range
    that is always exhausted) and the [dummy_attr_iterator]. *)
Definition geometry_decoder (geom : list Z) (max : Z)
  : outcome extended_geometry_decoder :=
  construct geom [] dummy_attr_iterator max.

(** Modelled from the spec: the enumeration [GeomType] of types.hpp.
    [UNKNOWN] stands for every type the switch of [decode_geometry] has
    no case for. *)
Inductive GeomType : Type := UNKNOWN | POINT | LINESTRING | POLYGON.

Definition GeomType_eqb (a b : GeomType) : bool :=
  match a, b with
  | UNKNOWN, UNKNOWN | POINT, POINT | LINESTRING, LINESTRING
  | POLYGON, POLYGON => true
  | _, _ => false
  end.

(** Modelled from the spec: the class [geometry] of types.hpp, as far as
    this header uses it: [type()], the unsigned 32 bit integers from
    [begin()] to [end()], and [data().size()], the number of bytes the
    integers are encoded in. *)
Record geometry : Type := mk_geometry {
  geometry_type : GeomType;
  geometry_integers : list Z;
  data_size : Z
}.

Section EntryPoints.

Variable T : Type.
Variable convert : unscaled_point -> T.

(** What a caller sees of an entry point: how it ended, and the calls the
    handler received. *)
Definition result : Type := (outcome unit * list (handler_call T))%type.

(** A driver on a decoder just constructed, if it was. *)
Definition run (decoder : outcome extended_geometry_decoder)
           (driver : M T unit) : result :=
  match decoder with
  | Ok decoder => let (o, s) := driver (start decoder) in (o, calls s)
  | Throw e => (Throw e, [])
  | OutOfFuel => (OutOfFuel, [])
  end.

(** [decode_point_geometry(geometry, geom_handler)]. *)
Definition decode_point_geometry (g : geometry) : result :=
  if negb (GeomType_eqb (geometry_type g) POINT) then
    (Throw (assert_error "geometry.type() == GeomType::POINT"), [])
  else
    run (geometry_decoder (geometry_integers g) (data_size g / 2))
        (decode_point 2 0 convert).

(** [decode_linestring_geometry(geometry, geom_handler)]. *)
Definition decode_linestring_geometry (g : geometry) : result :=
  if negb (GeomType_eqb (geometry_type g) LINESTRING) then
    (Throw (assert_error "geometry.type() == GeomType::LINESTRING"), [])
  else
    run (geometry_decoder (geometry_integers g) (data_size g / 2))
        (decode_linestring 2 0 convert).

(** [decode_polygon_geometry(geometry, geom_handler)]. *)
Definition decode_polygon_geometry (g : geometry) : result :=
  if negb (GeomType_eqb (geometry_type g) POLYGON) then
    (Throw (assert_error "geometry.type() == GeomType::POLYGON"), [])
  else
    run (geometry_decoder (geometry_integers g) (data_size g / 2))
        (decode_polygon 2 0 convert).

(** [decode_geometry(geometry, geom_handler)]: the decoder is constructed
    before the type is looked at. *)
Definition decode_geometry (g : geometry) : result :=
  match geometry_decoder (geometry_integers g) (data_size g / 2) with
  | Ok decoder =>
      match geometry_type g with
      | POINT => run (Ok decoder) (decode_point 2 0 convert)
      | LINESTRING => run (Ok decoder) (decode_linestring 2 0 convert)
      | POLYGON => run (Ok decoder) (decode_polygon 2 0 convert)
      | UNKNOWN => (Throw (geometry_exception "unknown geometry type"), [])
      end
  | Throw e => (Throw e, [])
  | OutOfFuel => (OutOfFuel, [])
  end.

(** The plain reader the entry points start from. *)
Definition plain_reader : reader :=
  mk_reader (mk_unscaled_point 0 0 0) [] [].

End EntryPoints.

Arguments run {T} decoder driver.
Arguments decode_point_geometry {T} convert g.
Arguments decode_linestring_geometry {T} convert g.
Arguments decode_polygon_geometry {T} convert g.
Arguments decode_geometry {T} convert g.

(** The points the handler was called with, in a list of calls. *)
Definition points_of_calls {T : Type} (cs : list (handler_call T)) : list T :=
  flat_map (fun c => match c with
                     | points_point p | linestring_point p | ring_point p => [p]
                     | _ => []
                     end) cs.

(** ** Rings of small coordinates *)

(** A point whose two coordinates are within [b] of 0. *)
Definition within_extent (b : Z) (p : unscaled_point) : Prop :=
  - b <= x p <= b /\ - b <= y p <= b.

(** ** Further inputs of the examples *)

(** Two points in three dimensions: MoveTo(2) 1 1 1 1, with the
    elevations 10 and 20. *)
Definition two_points : list Z := [17; 2; 2; 2; 2].

Definition two_points_start : machine unscaled_point :=
  start (initial two_points [10; 20] dummy_attr_iterator 2).

(** A ring of two points: MoveTo(1) 1 1, LineTo(1) 1 1, ClosePath. *)
Definition two_point_ring : list Z := [9; 2; 2; 10; 2; 2; 15].

Definition two_point_ring_start : machine unscaled_point :=
  start (initial two_point_ring [] dummy_attr_iterator 3).

(** The two linestrings with the attribute stream of one attribute. *)
Definition attributed_linestrings_start : machine unscaled_point :=
  start (initial two_linestrings [] (attr_range one_attribute) 7).

(** The collection of two slots on the attribute stream of one
    attribute. *)
Definition one_attribute_slots : list Attr.geometric_attribute :=
  [Attr.make [5] 0 0 1; Attr.default].

(** An attribute of three values, the second of them null. *)
Definition three_values : Attr.geometric_attribute :=
  Attr.make [5; 0; 3] 0 0 3.

(** The two linestrings as a geometry of 14 bytes, and the two triangles
    as one of 18 bytes. *)
Definition two_linestrings_geometry : geometry :=
  mk_geometry LINESTRING two_linestrings 14.

Definition two_triangles_geometry : geometry :=
  mk_geometry POLYGON two_triangles 18.

(** ** The comparison operators of the points *)

(** [operator==] and [operator!=] on [point]. *)
Definition point_eqb (a b : point) : bool :=
  (px a =? px b) && (py a =? py b).

Definition point_neb (a b : point) : bool := negb (point_eqb a b).

(** [operator!=] on [unscaled_point]. *)
Definition unscaled_point_neb (a b : unscaled_point) : bool :=
  negb (unscaled_point_eqb a b).

(** A geometry of a type without a driver, and one of 2^31 bytes. *)
Definition unknown_geometry : geometry := mk_geometry UNKNOWN [9; 2; 2] 3.

Definition oversized_geometry : geometry :=
  mk_geometry POINT [9; 2; 2] (2 ^ 31).

(** ** Rings walked the other way *)

(** The sum of the cross products of the consecutive points of the open
    chain [last, p1, ..., pn]. *)
Fixpoint chain (last : unscaled_point) (rest : list unscaled_point) : Z :=
  match rest with
  | [] => 0
  | p :: rest => cross last p + chain p rest
  end.
(* ================================================================== *)
(** * Properties *)

(** ** Integers *)

Lemma u64_small (v : Z) : Int.is_u64 v -> Int.u64 v = v.
Proof. unfold Int.is_u64, Int.u64. intros H. apply Z.mod_small. lia. Qed.

Lemma u32_small (v : Z) : Int.is_u32 v -> Int.u32 v = v.
Proof. unfold Int.is_u32, Int.u32. intros H. apply Z.mod_small. lia. Qed.

Lemma i64_small (v : Z) : Int.is_i64 v -> Int.i64 v = v.
Proof.
  unfold Int.is_i64, Int.i64. intros H.
  rewrite Z.mod_small by lia. lia.
Qed.

Lemma i32_range (v : Z) : Int.is_i32 (Int.i32 v).
Proof.
  unfold Int.is_i32, Int.i32.
  pose proof (Z.mod_pos_bound (v + 2 ^ 31) (2 ^ 32) ltac:(lia)). lia.
Qed.

Lemma i64_range (v : Z) : Int.is_i64 (Int.i64 v).
Proof.
  unfold Int.is_i64, Int.i64.
  pose proof (Z.mod_pos_bound (v + 2 ^ 63) (2 ^ 64) ltac:(lia)). lia.
Qed.

(** Additions in 64 bits can be carried out in any order and reduced once. *)
Lemma i64_add_l (a b : Z) : Int.i64 (Int.i64 a + b) = Int.i64 (a + b).
Proof.
  unfold Int.i64. f_equal.
  replace ((a + 2 ^ 63) mod 2 ^ 64 - 2 ^ 63 + b + 2 ^ 63)
    with ((a + 2 ^ 63) mod 2 ^ 64 + b) by lia.
  rewrite Zplus_mod_idemp_l. f_equal. lia.
Qed.

Lemma i64_add_r (a b : Z) : Int.i64 (a + Int.i64 b) = Int.i64 (a + b).
Proof. rewrite Z.add_comm, i64_add_l. f_equal. lia. Qed.

(** ** Geometric attributes *)

Lemma skip_values_enough (it : list Z) :
  forall (fuel : nat) (c : Z),
    (length it < fuel)%nat ->
    0 <= c <= Z.of_nat (length it) ->
    c < 2 ^ 64 ->
    Attr.skip_values fuel c it = Ok (skipn (Z.to_nat c) it).
Proof.
  induction it as [|v it IH]; intros fuel c Hf Hc Hu; simpl in Hc.
  - assert (c = 0) by lia. subst c. destruct fuel; [simpl in Hf; lia|]. reflexivity.
  - destruct fuel as [|fuel]; [lia|]. simpl in Hf.
    destruct (Z.eq_dec c 0) as [->|Hc0]; [reflexivity|].
    cbn [Attr.skip_values].
    replace (c >? 0) with true by (symmetry; apply Z.gtb_lt; lia).
    rewrite u64_small by (unfold Int.is_u64; lia).
    cbn [Attr.next tl].
    replace (Z.to_nat c) with (S (Z.to_nat (c - 1))) by lia.
    cbn [skipn].
    destruct (Z.eq_dec (c - 1) 0) as [E|E].
    + rewrite E. cbn [Z.eqb negb andb]. apply IH; simpl; lia.
    + replace (c - 1 =? 0) with false by (symmetry; apply Z.eqb_neq; exact E).
      cbn [negb andb].
      destruct it as [|w it']; [simpl in Hc; lia|].
      apply IH; lia.
Qed.

Lemma skip_values_short (it : list Z) :
  forall (fuel : nat) (c : Z),
    (length it < fuel)%nat ->
    it <> [] ->
    Z.of_nat (length it) < c < 2 ^ 64 ->
    Attr.skip_values fuel c it
    = Throw (format_exception "geometric attributes end too soon").
Proof.
  induction it as [|v it IH]; intros fuel c Hf Hne Hc; [congruence|].
  destruct fuel as [|fuel]; [lia|]. simpl in Hf, Hc.
  cbn [Attr.skip_values].
  replace (c >? 0) with true by (symmetry; apply Z.gtb_lt; lia).
  rewrite u64_small by (unfold Int.is_u64; lia).
  cbn [Attr.next tl].
  replace (c - 1 =? 0) with false by (symmetry; apply Z.eqb_neq; lia).
  cbn [negb andb].
  destruct it as [|w it']; [reflexivity|].
  apply IH; [lia|congruence|]. simpl length in *. lia.
Qed.

(** The inner loop never reaches its bound, and leaves a range that is
    not longer.  (The constructor enters it on a range that is not
    exhausted.) *)
Lemma skip_values_total (it : list Z) :
  forall (fuel : nat) (c : Z),
    (length it < fuel)%nat ->
    it <> [] \/ c <= 0 ->
    (exists it', Attr.skip_values fuel c it = Ok it'
                 /\ (length it' <= length it)%nat)
    \/ (exists e, Attr.skip_values fuel c it = Throw e).
Proof.
  induction it as [|v it IH]; intros fuel c Hf Hg.
  - destruct Hg as [Hg|Hg]; [congruence|].
    destruct fuel as [|fuel]; [simpl in Hf; lia|].
    cbn [Attr.skip_values].
    replace (c >? 0) with false by (symmetry; rewrite Z.gtb_ltb; apply Z.ltb_ge; lia).
    left. exists []. split; [reflexivity|lia].
  - destruct fuel as [|fuel]; [simpl in Hf; lia|]. simpl in Hf.
    cbn [Attr.skip_values]. destruct (c >? 0).
    + cbn [Attr.next tl].
      destruct (Int.u64 (c - 1) =? 0) eqn:E; cbn [negb andb].
      * apply Z.eqb_eq in E.
        destruct (IH fuel (Int.u64 (c - 1)) ltac:(lia) ltac:(right; lia))
          as [(it' & E' & L)|(e & E')].
        -- left. exists it'. split; [exact E'|simpl; lia].
        -- right. exists e. exact E'.
      * destruct it as [|w it']; [right; eexists; reflexivity|].
        destruct (IH fuel (Int.u64 (c - 1)) ltac:(lia) ltac:(left; congruence))
          as [(it'' & E' & L)|(e & E')].
        -- left. exists it''. split; [exact E'|simpl in *; lia].
        -- right. exists e. exact E'.
    + left. eexists. split; [reflexivity|lia].
Qed.

(** The loop of the constructor never reaches its bound either. *)
Lemma collect_total (fuel : nat) :
  forall (Max : nat) (it : list Z) (filled : list Attr.geometric_attribute),
    (length it < fuel)%nat ->
    (exists attrs, Attr.collect fuel Max it filled = Ok attrs)
    \/ (exists e, Attr.collect fuel Max it filled = Throw e).
Proof.
  induction fuel as [|fuel IH]; intros Max it filled Hf; [lia|].
  cbn [Attr.collect].
  destruct it as [|cv it]; [left; eexists; reflexivity|].
  destruct (negb (length filled <? Max)%nat); [left; eexists; reflexivity|].
  destruct (negb (Z.land cv 15 =? 10)); [right; eexists; reflexivity|].
  destruct it as [|c it]; [right; eexists; reflexivity|].
  destruct it as [|sc it]; [right; eexists; reflexivity|].
  destruct it as [|v it]; [right; eexists; reflexivity|].
  destruct (skip_values_total (v :: it) (S (length (v :: it))) c
              ltac:(lia) ltac:(left; congruence))
    as [(it' & E & L)|(e & E)]; rewrite E.
  - apply IH. simpl in Hf, L. lia.
  - right. exists e. reflexivity.
Qed.

Lemma collection_total (Max : nat) (it : list Z) :
  (exists attrs, Attr.collection Max it = Ok attrs)
  \/ (exists e, Attr.collection Max it = Throw e).
Proof.
  unfold Attr.collection.
  destruct (collect_total (S (length it)) Max it [] ltac:(lia))
    as [(attrs & E)|(e & E)]; rewrite E.
  - left. eexists. reflexivity.
  - right. eexists. reflexivity.
Qed.

(** One pass of the loop of the constructor on a header whose type is
    "number list", with a free slot. *)
Lemma collect_header (Max fuel : nat) (filled : list Attr.geometric_attribute)
      (cv c sc v : Z) (vals : list Z) :
  (length filled < Max)%nat ->
  Z.land cv 15 = 10 ->
  Attr.collect (S fuel) Max (cv :: c :: sc :: v :: vals) filled
  = match Attr.skip_values (S (length (v :: vals))) c (v :: vals) with
    | Ok it =>
        Attr.collect fuel Max it
          (filled ++ [Attr.make (v :: vals) (Z.shiftr cv 4) sc c])
    | Throw e => Throw e
    | OutOfFuel => OutOfFuel
    end.
Proof.
  intros Hs Ht. cbn [Attr.collect].
  replace (length filled <? Max)%nat with true
    by (symmetry; apply Nat.ltb_lt; exact Hs).
  rewrite Ht. reflexivity.
Qed.

(** The attributes the constructor registers have their values in the
    stream, and [get_next_value()] keeps it so: no attribute reads past
    the end of the attribute stream. *)
Lemma collect_values_present (fuel : nat) :
  forall (Max : nat) (it : list Z) (filled attrs : list Attr.geometric_attribute),
    Forall Int.is_u64 it ->
    Attr.collect fuel Max it filled = Ok attrs ->
    Forall Attr.values_present filled ->
    Forall Attr.values_present attrs.
Proof.
  induction fuel as [|fuel IH]; intros Max it filled attrs Hu H Hf;
    [discriminate H|].
  cbn [Attr.collect] in H.
  destruct it as [|cv it]; [injection H as <-; exact Hf|].
  destruct (negb (length filled <? Max)%nat); [injection H as <-; exact Hf|].
  destruct (negb (Z.land cv 15 =? 10)); [discriminate H|].
  destruct it as [|c it]; [discriminate H|].
  destruct it as [|sc it]; [discriminate H|].
  destruct it as [|v it]; [discriminate H|].
  inversion Hu as [|? ? _ Hu1]. inversion Hu1 as [|? ? Hc Hu2].
  inversion Hu2 as [|? ? _ Hu3]. subst.
  unfold Int.is_u64 in Hc.
  destruct (Z_lt_dec (Z.of_nat (length (v :: it))) c) as [L|L].
  - rewrite skip_values_short in H; [discriminate H|lia|discriminate|lia].
  - rewrite skip_values_enough in H by lia.
    apply IH in H; [exact H| |].
    + clear - Hu3. revert Hu3. generalize (v :: it). intros l Hl.
      revert l Hl. induction (Z.to_nat c) as [|n IHn]; intros l Hl;
        [exact Hl|].
      destruct l as [|w l]; [exact Hl|]. cbn [skipn].
      apply IHn. inversion Hl. assumption.
    + apply Forall_app. split; [exact Hf|]. constructor; [|constructor].
      unfold Attr.values_present, Attr.make. cbn [Attr.m_count Attr.m_it]. lia.
Qed.

Lemma get_next_value_values_present (a : Attr.geometric_attribute) :
  Attr.values_present a ->
  Attr.values_present (snd (Attr.get_next_value a))
  /\ (Attr.m_count a <> 0 -> Attr.m_it a <> []).
Proof.
  unfold Attr.values_present, Attr.get_next_value. intros [Hc Hu].
  destruct (Z.eqb_spec (Attr.m_count a) 0) as [E|E].
  - cbn [snd]. split; [split; assumption|contradiction].
  - assert (Hn : Attr.m_it a <> []).
    { intros Hnil. rewrite Hnil in Hc. cbn in Hc. lia. }
    split; [|intros _; exact Hn].
    destruct (Attr.m_it a) as [|v it]; [contradiction|].
    cbn [length] in Hc.
    destruct (Attr.deref (v :: it) =? 0); cbn [snd Attr.m_count Attr.m_it Attr.next tl];
      rewrite u64_small by (unfold Int.is_u64; lia); lia.
Qed.

(** C4 (as the code has it).  In the constructor of the collection, on a
    header of type "number list" with a free slot: the stream ending before
    the count, before the scaling, or right after the scaling is the format
    error "geometric attributes end too soon", whatever the declared count
    (0 included); with values after the scaling, fewer values than declared
    is the same error, and a stream with at least the declared number of
    values registers the attribute and continues after them; it may end
    exactly with the last of them, which ends the loop without error. *)
Theorem attribute_header_ends_too_soon :
  forall (Max fuel : nat) (filled : list Attr.geometric_attribute) (cv c sc : Z),
    (length filled < Max)%nat ->
    Z.land cv 15 = 10 ->
    Int.is_u64 c ->
    let too_soon :=
      Throw (format_exception "geometric attributes end too soon") in
    Attr.collect (S fuel) Max [cv] filled = too_soon
    /\ Attr.collect (S fuel) Max [cv; c] filled = too_soon
    /\ Attr.collect (S fuel) Max [cv; c; sc] filled = too_soon
    /\ (forall vals : list Z,
           vals <> [] ->
           Z.of_nat (length vals) < c ->
           Attr.collect (S fuel) Max (cv :: c :: sc :: vals) filled = too_soon)
    /\ (forall vals : list Z,
           vals <> [] ->
           c <= Z.of_nat (length vals) ->
           Attr.collect (S fuel) Max (cv :: c :: sc :: vals) filled
           = Attr.collect fuel Max (skipn (Z.to_nat c) vals)
               (filled ++ [Attr.make vals (Z.shiftr cv 4) sc c]))
    /\ (forall vals : list Z,
           vals <> [] ->
           c = Z.of_nat (length vals) ->
           Attr.collect (S (S fuel)) Max (cv :: c :: sc :: vals) filled
           = Ok (filled ++ [Attr.make vals (Z.shiftr cv 4) sc c])).
Proof.
  intros Max fuel filled cv c sc Hs Ht Hc too_soon.
  assert (Hlt : (length filled <? Max)%nat = true) by (apply Nat.ltb_lt; exact Hs).
  repeat split.
  - cbn [Attr.collect]. rewrite Hlt, Ht. reflexivity.
  - cbn [Attr.collect]. rewrite Hlt, Ht. reflexivity.
  - cbn [Attr.collect]. rewrite Hlt, Ht. reflexivity.
  - intros vals Hne Hlen. destruct vals as [|v vals]; [congruence|].
    rewrite collect_header by assumption.
    rewrite skip_values_short; [reflexivity|lia|congruence|].
    unfold Int.is_u64 in Hc. lia.
  - intros vals Hne Hlen. destruct vals as [|v vals]; [congruence|].
    rewrite collect_header by assumption.
    rewrite skip_values_enough; [reflexivity|lia| |].
    + unfold Int.is_u64 in Hc. lia.
    + unfold Int.is_u64 in Hc. lia.
  - intros vals Hne Hlen. destruct vals as [|v vals]; [congruence|].
    rewrite collect_header by assumption.
    rewrite skip_values_enough; [|lia|lia|unfold Int.is_u64 in Hc; lia].
    rewrite Hlen, Nat2Z.id, skipn_all. reflexivity.
Qed.

Lemma attribute_header_ends_too_soon_witness :
  (length (@nil Attr.geometric_attribute) < 1)%nat
  /\ Z.land 26 15 = 10
  /\ Int.is_u64 0
  /\ Attr.collect 3 1 [26; 0; 5] []
     = Throw (format_exception "geometric attributes end too soon").
Proof.
  assert (Hs : (length (@nil Attr.geometric_attribute) < 1)%nat) by (simpl; lia).
  assert (Ht : Z.land 26 15 = 10) by reflexivity.
  assert (Hc : Int.is_u64 0) by (unfold Int.is_u64; lia).
  split; [exact Hs|]. split; [exact Ht|]. split; [exact Hc|].
  exact (proj1 (proj2 (proj2
           (attribute_header_ends_too_soon 1 2 [] 26 0 5 Hs Ht Hc)))).
Defined.

(** C4 as stated fails: an attribute that declares no value, in a stream
    that ends with its scaling, is rejected. *)
Lemma attribute_count_zero_at_end_rejected :
  Attr.collection 1 [10; 0; 0]
  = Throw (format_exception "geometric attributes end too soon")
  /\ ~ (exists attrs, Attr.collection 1 [10; 0; 0] = Ok attrs).
Proof.
  split; [vm_compute; reflexivity|].
  intros [attrs H]. vm_compute in H. discriminate H.
Qed.

Lemma attribute_calls_map (T : Type) (attrs : list Attr.geometric_attribute) :
  attribute_calls T attrs
  = (map (fun a => fst (attribute_call T a)) attrs,
     map (fun a => snd (attribute_call T a)) attrs).
Proof.
  induction attrs as [|a attrs IH]; [reflexivity|].
  cbn [attribute_calls map]. rewrite IH.
  destruct (attribute_call T a) as [a' c]. reflexivity.
Qed.

(** C5.  [get_next_value()] on an attribute whose count is 0 returns false
    and leaves the attribute as it is, so it returns false at every later
    call.  Otherwise it reads one raw value and decrements the count; on a
    raw 0 it returns false and keeps the accumulated value, on another raw
    value it adds [decode_zigzag64(raw - 1)] to the accumulated value and
    returns true.  The loop over the attributes makes one call on the
    handler per attribute: the null call with the key index on false, the
    value call on true. *)
Theorem get_next_value_spec :
  forall (T : Type) (a : Attr.geometric_attribute),
    Int.is_u64 (Attr.m_count a) ->
    Int.is_u64 (Attr.deref (Attr.m_it a)) ->
    (Attr.m_count a = 0 ->
     forall n : nat,
       Nat.iter n (fun r => Attr.get_next_value (snd r)) (false, a) = (false, a))
    /\ (Attr.m_count a <> 0 ->
        let raw := Attr.deref (Attr.m_it a) in
        let a' := snd (Attr.get_next_value a) in
        Attr.m_it a' = Attr.next (Attr.m_it a)
        /\ Attr.m_count a' = Attr.m_count a - 1
        /\ Attr.key_index a' = Attr.key_index a
        /\ Attr.scaling_index a' = Attr.scaling_index a
        /\ (raw = 0 ->
            fst (Attr.get_next_value a) = false
            /\ Attr.value a' = Attr.value a
            /\ attribute_call T a
               = (a', call_points_null_attr (Attr.key_index a)))
        /\ (raw <> 0 ->
            fst (Attr.get_next_value a) = true
            /\ Attr.value a'
               = Int.i64 (Attr.value a + decode_zigzag64 (raw - 1))
            /\ attribute_call T a
               = (a', call_points_attr (Attr.key_index a)
                        (Attr.scaling_index a) (Attr.value a'))))
    /\ (forall attrs : list Attr.geometric_attribute,
           snd (attribute_calls T attrs)
           = map (fun a => snd (attribute_call T a)) attrs).
Proof.
  intros T a Hc Hr. split; [|split].
  - intros H0 n. induction n as [|n IH]; [reflexivity|].
    rewrite Nat.iter_succ, IH. cbn [snd].
    unfold Attr.get_next_value. rewrite H0. reflexivity.
  - intros Hn raw a'.
    assert (E0 : (Attr.m_count a =? 0) = false) by (apply Z.eqb_neq; exact Hn).
    assert (Ed : Int.u64 (Attr.m_count a - 1) = Attr.m_count a - 1)
      by (apply u64_small; unfold Int.is_u64 in *; lia).
    subst a'. unfold attribute_call, Attr.get_next_value. rewrite E0.
    fold raw. destruct (Z.eqb_spec raw 0) as [Ez|Ez]; cbn.
    + repeat split; try congruence; try exact Ed.
    + rewrite (u64_small (raw - 1))
        by (subst raw; unfold Int.is_u64 in *; lia).
      repeat split; try congruence; try exact Ed.
  - intros attrs. rewrite attribute_calls_map. reflexivity.
Qed.

Lemma get_next_value_spec_witness :
  Int.is_u64 (Attr.m_count (Attr.make [0; 5; 0] 3 1 2))
  /\ Int.is_u64 (Attr.deref (Attr.m_it (Attr.make [0; 5; 0] 3 1 2)))
  /\ Attr.m_count (Attr.make [0; 5; 0] 3 1 2) <> 0
  /\ Attr.m_count (snd (Attr.get_next_value (Attr.make [0; 5; 0] 3 1 2)))
     = Attr.m_count (Attr.make [0; 5; 0] 3 1 2) - 1.
Proof.
  set (a := Attr.make [0; 5; 0] 3 1 2).
  assert (Hc : Int.is_u64 (Attr.m_count a)) by (unfold Int.is_u64; simpl; lia).
  assert (Hr : Int.is_u64 (Attr.deref (Attr.m_it a)))
    by (unfold Int.is_u64; simpl; lia).
  assert (Hn : Attr.m_count a <> 0) by (simpl; lia).
  split; [exact Hc|]. split; [exact Hr|]. split; [exact Hn|].
  exact (proj1 (proj2 (proj1 (proj2
           (get_next_value_spec unit a Hc Hr)) Hn))).
Defined.

(** ** Command integers *)

Lemma get_command_id_mod (w : Z) : get_command_id w = w mod 8.
Proof. unfold get_command_id. exact (Z.land_ones w 3 ltac:(lia)). Qed.

Lemma get_command_count_div (w : Z) : get_command_count w = w / 8.
Proof. unfold get_command_count. exact (Z.shiftr_div_pow2 w 3 ltac:(lia)). Qed.

Lemma get_command_count_range (w : Z) :
  Int.is_u32 w -> 0 <= get_command_count w < 2 ^ 29.
Proof.
  unfold Int.is_u32. intros H. rewrite get_command_count_div.
  split.
  - apply Z.div_pos; lia.
  - apply Z.div_lt_upper_bound; lia.
Qed.

Lemma command_integer_sum (id : CommandId) (n : Z) :
  command_integer id n = 8 * n + CommandId_value id.
Proof.
  unfold command_integer.
  replace (Z.land (CommandId_value id) 7) with (CommandId_value id)
    by (destruct id; reflexivity).
  assert (D : Z.land (CommandId_value id) (Z.shiftl n 3) = 0).
  { apply Z.bits_inj'. intros k Hk. rewrite Z.land_spec, Z.bits_0.
    destruct (Z_lt_dec k 3) as [L|L].
    - rewrite (Z.shiftl_spec_low n 3 k L). apply andb_false_r.
    - replace (Z.testbit (CommandId_value id) k) with false; [reflexivity|].
      assert (k = 3 \/ 3 < k) as [->|G] by lia.
      + destruct id; reflexivity.
      + symmetry. apply Z.bits_above_log2; destruct id; simpl; lia. }
  rewrite <- (Z.lxor_lor _ _ D), <- (Z.add_nocarry_lxor _ _ D).
  rewrite Z.shiftl_mul_pow2 by lia. lia.
Qed.

Lemma get_command_id_integer (id : CommandId) (n : Z) :
  get_command_id (command_integer id n) = CommandId_value id.
Proof.
  rewrite get_command_id_mod, command_integer_sum.
  rewrite Z.add_comm, Z.mul_comm, Z.mod_add by lia.
  destruct id; reflexivity.
Qed.

Lemma get_command_count_integer (id : CommandId) (n : Z) :
  get_command_count (command_integer id n) = n.
Proof.
  rewrite get_command_count_div, command_integer_sum.
  rewrite Z.add_comm, Z.mul_comm, Z.div_add by lia.
  destruct id; simpl; lia.
Qed.

(** A command integer is the one of its id and its count. *)
Lemma command_integer_of_word (w : Z) (id : CommandId) :
  get_command_id w = CommandId_value id ->
  w = command_integer id (get_command_count w).
Proof.
  rewrite get_command_id_mod, get_command_count_div, command_integer_sum.
  intros H. rewrite <- H. apply Z.div_mod. lia.
Qed.

Lemma u32_command_id (id : CommandId) :
  Int.u32 (CommandId_value id) = CommandId_value id.
Proof. destruct id; reflexivity. Qed.

(** ** The steps of the decoder *)

Section Steps.

Variable Dimensions : Z.
Variable T : Type.
Variable convert : unscaled_point -> T.

Lemma bind_ok {A B : Type} (m : M T A) (f : A -> M T B)
      (s s' : machine T) (b : B) :
  bind m f s = (Ok b, s') ->
  exists a s1, m s = (Ok a, s1) /\ f a s1 = (Ok b, s').
Proof.
  unfold bind. destruct (m s) as [[a| |] s1]; intros H; try discriminate H.
  exists a, s1. split; [reflexivity|exact H].
Qed.

Lemma bind_step {A B : Type} (m : M T A) (f : A -> M T B)
      (s s1 : machine T) (a : A) :
  m s = (Ok a, s1) -> bind m f s = f a s1.
Proof. unfold bind. intros ->. reflexivity. Qed.

Lemma bind_throw {A B : Type} (m : M T A) (f : A -> M T B)
      (s s1 : machine T) (e : exception) :
  m s = (Throw e, s1) -> bind m f s = (Throw e, s1).
Proof. unfold bind. intros ->. reflexivity. Qed.

Lemma next_command_false (e : CommandId) (s s' : machine T) :
  next_command e s = (Ok false, s') ->
  s' = s /\ m_geom_it (dec s) = [] /\ m_count (dec s) = 0.
Proof.
  unfold next_command.
  destruct (Z.eqb_spec (m_count (dec s)) 0) as [E|E]; cbn [negb];
    [|discriminate].
  destruct (m_geom_it (dec s)) as [|w rest].
  - intros H. injection H as <-. auto.
  - destruct (negb _); [discriminate|].
    destruct e; repeat (destruct (negb _) || destruct (_ >? _));
      discriminate.
Qed.

Lemma next_command_true (e : CommandId) (s s' : machine T) :
  next_command e s = (Ok true, s') ->
  m_count (dec s) = 0
  /\ (exists word,
         m_geom_it (dec s) = word :: m_geom_it (dec s')
         /\ get_command_id word = CommandId_value e
         /\ match e with
            | CLOSE_PATH => get_command_count word = 1 /\ m_count (dec s') = 0
            | _ => m_count (dec s') = get_command_count word
                   /\ get_command_count word <= m_max_count (dec s)
            end)
  /\ reader_of s' = reader_of s
  /\ calls s' = calls s
  /\ same_frame s s'.
Proof.
  unfold next_command, reader_of, same_frame.
  destruct (Z.eqb_spec (m_count (dec s)) 0) as [E|E]; cbn [negb];
    [|discriminate].
  destruct (m_geom_it (dec s)) as [|w rest]; [discriminate|].
  rewrite u32_command_id.
  destruct (Z.eqb_spec (get_command_id w) (CommandId_value e)) as [Ei|Ei];
    cbn [negb]; [|discriminate].
  destruct e.
  - destruct (get_command_count w >? m_max_count (dec s)) eqn:G; [discriminate|].
    intros H. injection H as <-. cbn.
    repeat split; auto. exists w. repeat split; auto.
    rewrite Z.gtb_ltb in G. apply Z.ltb_ge in G. exact G.
  - destruct (get_command_count w >? m_max_count (dec s)) eqn:G; [discriminate|].
    intros H. injection H as <-. cbn.
    repeat split; auto. exists w. repeat split; auto.
    rewrite Z.gtb_ltb in G. apply Z.ltb_ge in G. exact G.
  - destruct (Z.eqb_spec (get_command_count w) 1) as [E1|E1]; cbn [negb];
      [|discriminate].
    intros H. injection H as <-. cbn.
    repeat split; auto. exists w. repeat split; auto.
Qed.

Lemma next_point_ok (s s' : machine T) (p : unscaled_point) :
  next_point Dimensions s = (Ok p, s') ->
  0 < m_count (dec s)
  /\ (exists px py,
         m_geom_it (dec s) = px :: py :: m_geom_it (dec s')
         /\ p = move_cursor Dimensions (m_cursor (dec s)) px py (m_elev_it (dec s)))
  /\ m_cursor (dec s') = p
  /\ m_elev_it (dec s') = next_elev Dimensions (m_elev_it (dec s))
  /\ m_count (dec s') = Int.u32 (m_count (dec s) - 1)
  /\ geom_attributes s' = geom_attributes s
  /\ calls s' = calls s
  /\ same_frame s s'.
Proof.
  unfold next_point, same_frame, next_elev.
  destruct (m_count (dec s) >? 0) eqn:G; cbn [negb]; [|discriminate].
  rewrite Z.gtb_ltb in G. apply Z.ltb_lt in G.
  destruct (m_geom_it (dec s)) as [|px [|py rest]]; try discriminate.
  intros H. injection H as <- <-. cbn.
  repeat split; auto. exists px, py. split; reflexivity.
Qed.

Lemma call_ok (c : handler_call T) (s : machine T) :
  call c s = (Ok tt, mk_machine (dec s) (geom_attributes s) (calls s ++ [c])).
Proof. reflexivity. Qed.

Lemma for_geom_attributes_ok (s : machine T) :
  for_geom_attributes s
  = (Ok tt,
     mk_machine (dec s) (fst (attribute_calls T (geom_attributes s)))
                (calls s ++ snd (attribute_calls T (geom_attributes s)))).
Proof.
  unfold for_geom_attributes.
  destruct (attribute_calls T (geom_attributes s)). reflexivity.
Qed.

(** One turn of a loop over the points of a command. *)
Lemma vertex_body_ok {A : Type} (point : T -> handler_call T)
      (f : A -> unscaled_point -> A) (a a' : A) (s s' : machine T) :
  vertex_body Dimensions convert point f a s = (Ok a', s') ->
  exists v : vertex T,
    decoded Dimensions (reader_of s) [v] (reader_of s')
    /\ m_geom_it (dec s) = vertex_words v ++ m_geom_it (dec s')
    /\ calls s' = calls s ++ vertex_calls convert point v
    /\ a' = f a (v_point v)
    /\ 0 < m_count (dec s)
    /\ m_count (dec s') = Int.u32 (m_count (dec s) - 1)
    /\ same_frame s s'.
Proof.
  unfold vertex_body. intros H.
  apply bind_ok in H. destruct H as (p & s1 & Hp & H).
  apply next_point_ok in Hp.
  destruct Hp as (Hc & (px & py & Hg & Hpt) & Hcur & Hel & Hcnt & Hga & Hcs & Hfr).
  rewrite (bind_step _ _ _ _ _ (call_ok _ s1)) in H.
  rewrite (bind_step _ _ _ _ _ (for_geom_attributes_ok _)) in H.
  unfold ret in H. injection H as <- <-. cbn [dec geom_attributes calls].
  exists (mk_vertex px py p (snd (attribute_calls T (geom_attributes s)))).
  unfold reader_of, reader_after, vertex_words, vertex_calls.
  cbn [decoded v_px v_py v_point v_calls r_cursor r_elev r_attrs dec
       geom_attributes calls app].
  rewrite Hcur, Hel, Hga, Hcs, <- app_assoc.
  repeat split; auto; apply Hfr.
Qed.

End Steps.

(** ** The loops over the points of a command *)

Section Loops.

Variable Dimensions : Z.
Variable T : Type.
Variable convert : unscaled_point -> T.

Lemma same_frame_refl (s : machine T) : same_frame s s.
Proof. split; reflexivity. Qed.

Lemma same_frame_trans (s1 s2 s3 : machine T) :
  same_frame s1 s2 -> same_frame s2 s3 -> same_frame s1 s3.
Proof. unfold same_frame. intros [A1 B1] [A2 B2]. split; congruence. Qed.

Lemma decoded_app (vs1 vs2 : list (vertex T)) :
  forall r r' r'' : reader,
    decoded Dimensions r vs1 r' ->
    decoded Dimensions r' vs2 r'' ->
    decoded Dimensions r (vs1 ++ vs2) r''.
Proof.
  induction vs1 as [|v vs1 IH]; intros r r' r'' H1 H2; cbn in *.
  - subst r'. exact H2.
  - destruct H1 as (Hp & Hc & H1). repeat split; auto. eapply IH; eauto.
Qed.

(** A vertex body returns or throws. *)
Lemma vertex_body_total {A : Type} (point : T -> handler_call T)
      (f : A -> unscaled_point -> A) (a : A) (s : machine T) :
  fst (vertex_body Dimensions convert point f a s) <> OutOfFuel.
Proof.
  unfold vertex_body, bind, next_point.
  destruct (negb (m_count (dec s) >? 0)); [cbn; discriminate|].
  destruct (m_geom_it (dec s)) as [|px [|py rest]]; try (cbn; discriminate).
  rewrite call_ok, for_geom_attributes_ok. cbn. discriminate.
Qed.

Section WhileCount.

Variable A : Type.
Variable point : T -> handler_call T.
Variable f : A -> unscaled_point -> A.
Variable body : A -> M T A.
Hypothesis body_eq :
  forall (a : A) (s : machine T),
    body a s = vertex_body Dimensions convert point f a s.

(** The loop [while (count() > 0)] decodes as many vertices as the count
    says and leaves the count at 0. *)
Lemma while_count_ok (fuel : nat) :
  forall (a a' : A) (s s' : machine T),
    while_count fuel body a s = (Ok a', s') ->
    0 <= m_count (dec s) < 2 ^ 32 ->
    exists vs : list (vertex T),
      Z.of_nat (length vs) = m_count (dec s)
      /\ m_count (dec s') = 0
      /\ m_geom_it (dec s) = flat_map vertex_words vs ++ m_geom_it (dec s')
      /\ calls s' = calls s ++ flat_map (vertex_calls convert point) vs
      /\ decoded Dimensions (reader_of s) vs (reader_of s')
      /\ a' = fold_left f (map v_point vs) a
      /\ same_frame s s'.
Proof.
  induction fuel as [|fuel IH]; intros a a' s s' H Hc; [discriminate H|].
  cbn [while_count] in H. unfold bind at 1, count at 1 in H.
  destruct (m_count (dec s) >? 0) eqn:G.
  - rewrite Z.gtb_ltb in G. apply Z.ltb_lt in G.
    apply bind_ok in H. destruct H as (a1 & s1 & Hb & H).
    rewrite body_eq in Hb. apply vertex_body_ok in Hb.
    destruct Hb as (v & Hd & Hg & Hcs & Ha & _ & Hn & Hfr).
    assert (Hn' : m_count (dec s1) = m_count (dec s) - 1).
    { rewrite Hn. apply u32_small. unfold Int.is_u32. lia. }
    apply IH in H; [|lia].
    destruct H as (vs & Hl & H0 & Hg' & Hcs' & Hd' & Ha' & Hfr').
    exists (v :: vs). cbn [length flat_map map fold_left].
    split; [|split; [|split; [|split; [|split; [|split]]]]].
    + lia.
    + exact H0.
    + rewrite Hg, Hg', app_assoc. reflexivity.
    + rewrite Hcs', Hcs, <- app_assoc. reflexivity.
    + apply (decoded_app [v] vs _ _ _ Hd Hd').
    + subst a' a1. reflexivity.
    + apply (same_frame_trans _ _ _ Hfr Hfr').
  - rewrite Z.gtb_ltb in G. apply Z.ltb_ge in G.
    unfold ret in H. injection H as <- <-.
    exists []. cbn. rewrite app_nil_r.
    split; [lia|]. split; [lia|].
    repeat split; reflexivity.
Qed.

(** With a bound above the count, the loop returns or throws. *)
Lemma while_count_total (fuel : nat) :
  forall (a : A) (s : machine T),
    (Z.to_nat (m_count (dec s)) < fuel)%nat ->
    fst (while_count fuel body a s) <> OutOfFuel.
Proof.
  induction fuel as [|fuel IH]; intros a s Hf; [lia|].
  cbn [while_count]. unfold bind at 1, count at 1.
  destruct (m_count (dec s) >? 0) eqn:G; [|cbn; discriminate].
  rewrite Z.gtb_ltb in G. apply Z.ltb_lt in G.
  unfold bind.
  destruct (body a s) as [[a1|e|] s1] eqn:Hb.
  - apply IH.
    rewrite body_eq in Hb. apply vertex_body_ok in Hb.
    destruct Hb as (v & _ & _ & _ & _ & _ & Hn & _).
    rewrite Hn. unfold Int.u32.
    pose proof (Z.mod_le (m_count (dec s) - 1) (2 ^ 32) ltac:(lia) ltac:(lia)).
    lia.
  - cbn. discriminate.
  - exfalso. apply (vertex_body_total point f a s).
    rewrite <- body_eq, Hb. reflexivity.
Qed.

End WhileCount.

End Loops.

(** ** The bodies of the loops over the linestrings and the rings *)

Section Bodies.

Variable Dimensions : Z.
Variable T : Type.
Variable convert : unscaled_point -> T.

Lemma bind_count {B : Type} (k : Z -> M T B) (s : machine T) :
  bind count k s = k (m_count (dec s)) s.
Proof. reflexivity. Qed.

Lemma bind_call {B : Type} (c : handler_call T) (k : unit -> M T B)
      (s : machine T) :
  bind (call c) k s
  = k tt (mk_machine (dec s) (geom_attributes s) (calls s ++ [c])).
Proof. reflexivity. Qed.

Lemma bind_for_geom_attributes {B : Type} (k : unit -> M T B) (s : machine T) :
  bind for_geom_attributes k s
  = k tt (mk_machine (dec s) (fst (attribute_calls T (geom_attributes s)))
                     (calls s ++ snd (attribute_calls T (geom_attributes s)))).
Proof. unfold bind. rewrite for_geom_attributes_ok. reflexivity. Qed.

Lemma reader_of_eq (s s' : machine T) :
  reader_of s = reader_of s' ->
  m_cursor (dec s) = m_cursor (dec s')
  /\ m_elev_it (dec s) = m_elev_it (dec s')
  /\ geom_attributes s = geom_attributes s'.
Proof. unfold reader_of. intros H. injection H as H1 H2 H3. auto. Qed.

Lemma Forall_u32_app (l1 l2 : list Z) :
  Forall Int.is_u32 (l1 ++ l2) -> Forall Int.is_u32 l2.
Proof. intros H. apply Forall_app in H. apply H. Qed.

(** The body of the loop of the point driver and of the linestring
    driver, as a vertex body. *)
Lemma unit_body_eq (point : T -> handler_call T) (a : unit) (s : machine T) :
  (p <- next_point Dimensions ;;
   call (point (convert p)) ;;
   for_geom_attributes) s
  = vertex_body Dimensions convert point (fun (a : unit) _ => a) a s.
Proof.
  destruct a. unfold vertex_body, bind.
  destruct (next_point Dimensions s) as [[p| |] s1]; try reflexivity.
  rewrite call_ok, for_geom_attributes_ok. reflexivity.
Qed.

(** The body of the loop over the points of a ring, as a vertex body. *)
Lemma ring_body_eq (a : Z * unscaled_point) (s : machine T) :
  (let '(sum, last_point) := a in
   p <- next_point Dimensions ;;
   let sum := Int.i64 (sum + det last_point p) in
   let last_point := p in
   call (ring_point (convert p)) ;;
   for_geom_attributes ;;
   ret (sum, last_point)) s
  = vertex_body Dimensions convert ring_point ring_sum_step a s.
Proof. destruct a as [sum last_point]. reflexivity. Qed.

(** One accepted linestring: what the body of the loop read, the calls it
    made, and the reader it left. *)
Lemma decode_linestring_body_ok (s0 s s' : machine T) :
  next_command MOVE_TO s0 = (Ok true, s) ->
  decode_linestring_body Dimensions convert s = (Ok tt, s') ->
  Forall Int.is_u32 (m_geom_it (dec s0)) ->
  exists p : path T,
    m_geom_it (dec s0) = linestring_words p ++ m_geom_it (dec s')
    /\ calls s' = calls s0 ++ linestring_calls convert p
    /\ decoded Dimensions (reader_of s0) (path_vertices p) (reader_of s')
    /\ 1 <= Z.of_nat (length (p_rest p)) <= m_max_count (dec s0)
    /\ 1 <= m_max_count (dec s0)
    /\ m_count (dec s') = 0
    /\ same_frame s0 s'.
Proof.
  intros Hm H Hu.
  apply next_command_true in Hm.
  destruct Hm as (Hc0 & (w1 & Hg1 & Hid1 & Hn1 & Hmax1) & Hr1 & Hcs1 & Hf1).
  unfold decode_linestring_body in H. rewrite bind_count in H.
  destruct (Z.eqb_spec (m_count (dec s)) 1) as [E1|E1]; cbn [negb] in H;
    [|discriminate H].
  apply bind_ok in H. destruct H as (pt & s1 & Hp & H).
  apply next_point_ok in Hp.
  destruct Hp as (_ & (px & py & Hg2 & Hpt) & Hcur2 & Hel2 & Hn2 & Hga2 & Hcs2 & Hf2).
  apply bind_ok in H. destruct H as (b & s2 & Hl & H).
  destruct b; cbn [negb] in H; [|discriminate H].
  apply next_command_true in Hl.
  destruct Hl as (_ & (w2 & Hg3 & Hid3 & Hn3 & Hmax3) & Hr3 & Hcs3 & Hf3).
  rewrite bind_count in H.
  destruct (Z.eqb_spec (m_count (dec s2)) 0) as [E0|E0]; [discriminate H|].
  rewrite bind_count, bind_call, bind_call, bind_for_geom_attributes in H.
  rewrite bind_count in H. cbn [dec] in H.
  apply bind_ok in H. destruct H as ([] & s3 & Hw & H).
  rewrite call_ok in H. injection H as <-.
  assert (Hw2 : Int.is_u32 w2).
  { rewrite Hg1, Hg2, Hg3 in Hu.
    inversion Hu as [|? ? _ Hu1]. inversion Hu1 as [|? ? _ Hu2].
    inversion Hu2 as [|? ? _ Hu3]. inversion Hu3 as [|? ? Hw2 _]. exact Hw2. }
  pose proof (get_command_count_range w2 Hw2) as Hrange.
  apply (while_count_ok Dimensions T convert unit linestring_point
           (fun a _ => a)) in Hw;
    [|intros a0 s4; apply unit_body_eq|cbn [dec]; lia].
  cbn [dec geom_attributes calls] in Hw.
  destruct Hw as (vs & Hlen & Hcnt & Hg4 & Hcs4 & Hd4 & _ & Hf4).
  set (v0 := mk_vertex px py pt (snd (attribute_calls T (geom_attributes s2)))).
  exists (mk_path v0 vs).
  unfold linestring_words, linestring_calls, path_vertices, same_frame in *.
  cbn [p_first p_rest dec geom_attributes calls flat_map vertex_words
       v_px v_py app length] in *.
  apply reader_of_eq in Hr1. destruct Hr1 as (Rc1 & Re1 & Ra1).
  apply reader_of_eq in Hr3. destruct Hr3 as (Rc3 & Re3 & Ra3).
  assert (Hga : geom_attributes s2 = geom_attributes s0) by congruence.
  split; [|split; [|split; [|split; [|split; [|split]]]]].
  - assert (W1 : w1 = command_integer MOVE_TO 1).
    { etransitivity; [exact (command_integer_of_word w1 MOVE_TO Hid1)|].
      f_equal. congruence. }
    assert (W2 : w2 = command_integer LINE_TO (Z.of_nat (length vs))).
    { etransitivity; [exact (command_integer_of_word w2 LINE_TO Hid3)|].
      f_equal. congruence. }
    rewrite Hg1, Hg2, Hg3, Hg4, <- W1, <- W2. reflexivity.
  - rewrite Hcs4, Hcs3, Hcs2, Hcs1. unfold vertex_calls at 1.
    cbn [v_point v_calls v0].
    rewrite u32_small by (unfold Int.is_u32; lia).
    rewrite Hlen.
    rewrite <- !app_assoc. reflexivity.
  - unfold reader_after, reader_of in *.
    cbn [dec geom_attributes] in Hd4.
    split; [|split];
      cbn [r_cursor r_elev r_attrs v_point v_px v_py v_calls v0 dec
           geom_attributes].
    + rewrite <- Rc1, <- Re1. exact Hpt.
    + rewrite Hga. reflexivity.
    + rewrite Re3, Hel2, Re1, Rc3, Hcur2, Hga in Hd4. exact Hd4.
  - destruct Hf1 as [_ Hx1]. destruct Hf2 as [_ Hx2]. lia.
  - lia.
  - exact Hcnt.
  - destruct Hf1, Hf2, Hf3, Hf4. cbn [dec] in *. split; congruence.
Qed.

(** One accepted ring: what the body of the loop read, the calls it made,
    and the reader it left. *)
Lemma decode_polygon_body_ok (s0 s s' : machine T) :
  next_command MOVE_TO s0 = (Ok true, s) ->
  decode_polygon_body Dimensions convert s = (Ok tt, s') ->
  Forall Int.is_u32 (m_geom_it (dec s0)) ->
  exists p : path T,
    m_geom_it (dec s0) = ring_words p ++ m_geom_it (dec s')
    /\ calls s' = calls s0 ++ ring_calls convert p
    /\ decoded Dimensions (reader_of s0) (path_vertices p) (reader_of s')
    /\ Z.of_nat (length (p_rest p)) <= m_max_count (dec s0)
    /\ 1 <= m_max_count (dec s0)
    /\ m_count (dec s') = 0
    /\ same_frame s0 s'.
Proof.
  intros Hm H Hu.
  apply next_command_true in Hm.
  destruct Hm as (Hc0 & (w1 & Hg1 & Hid1 & Hn1 & Hmax1) & Hr1 & Hcs1 & Hf1).
  unfold decode_polygon_body in H. rewrite bind_count in H.
  destruct (Z.eqb_spec (m_count (dec s)) 1) as [E1|E1]; cbn [negb] in H;
    [|discriminate H].
  apply bind_ok in H. destruct H as (pt & s1 & Hp & H).
  apply next_point_ok in Hp.
  destruct Hp as (_ & (px & py & Hg2 & Hpt) & Hcur2 & Hel2 & Hn2 & Hga2 & Hcs2 & Hf2).
  apply bind_ok in H. destruct H as (b & s2 & Hl & H).
  destruct b; cbn [negb] in H; [|discriminate H].
  apply next_command_true in Hl.
  destruct Hl as (_ & (w2 & Hg3 & Hid3 & Hn3 & Hmax3) & Hr3 & Hcs3 & Hf3).
  rewrite bind_count, bind_call, bind_call, bind_for_geom_attributes in H.
  rewrite bind_count in H. cbn [dec] in H.
  apply bind_ok in H. destruct H as ([sum last_point] & s3 & Hw & H).
  apply bind_ok in H. destruct H as (b & s4 & Hcl & H).
  destruct b; cbn [negb] in H; [|discriminate H].
  apply next_command_true in Hcl.
  destruct Hcl as (_ & (w3 & Hg5 & Hid5 & Hn5 & Hcnt5) & Hr5 & Hcs5 & Hf5).
  rewrite bind_call, call_ok in H. injection H as <-.
  cbn [dec geom_attributes calls].
  assert (Hw2 : Int.is_u32 w2).
  { rewrite Hg1, Hg2, Hg3 in Hu.
    inversion Hu as [|? ? _ Hu1]. inversion Hu1 as [|? ? _ Hu2].
    inversion Hu2 as [|? ? _ Hu3]. inversion Hu3 as [|? ? Hw2 _]. exact Hw2. }
  pose proof (get_command_count_range w2 Hw2) as Hrange.
  apply (while_count_ok Dimensions T convert (Z * unscaled_point)%type
           ring_point ring_sum_step) in Hw;
    [|intros a0 s5; apply ring_body_eq|cbn [dec]; lia].
  cbn [dec geom_attributes calls] in Hw.
  destruct Hw as (vs & Hlen & Hcnt & Hg4 & Hcs4 & Hd4 & Hacc & Hf4).
  set (v0 := mk_vertex px py pt (snd (attribute_calls T (geom_attributes s2)))).
  exists (mk_path v0 vs).
  unfold ring_words, ring_calls, path_vertices, same_frame in *.
  cbn [p_first p_rest dec geom_attributes calls flat_map vertex_words
       v_px v_py app length] in *.
  apply reader_of_eq in Hr1. destruct Hr1 as (Rc1 & Re1 & Ra1).
  apply reader_of_eq in Hr3. destruct Hr3 as (Rc3 & Re3 & Ra3).
  assert (Hga : geom_attributes s2 = geom_attributes s0) by congruence.
  split; [|split; [|split; [|split; [|split; [|split]]]]].
  - assert (W1 : w1 = command_integer MOVE_TO 1).
    { etransitivity; [exact (command_integer_of_word w1 MOVE_TO Hid1)|].
      f_equal. congruence. }
    assert (W2 : w2 = command_integer LINE_TO (Z.of_nat (length vs))).
    { etransitivity; [exact (command_integer_of_word w2 LINE_TO Hid3)|].
      f_equal. congruence. }
    assert (W3 : w3 = command_integer CLOSE_PATH 1).
    { etransitivity; [exact (command_integer_of_word w3 CLOSE_PATH Hid5)|].
      f_equal. congruence. }
    rewrite Hg1, Hg2, Hg3, Hg4, Hg5, <- W1, <- W2, <- W3.
    rewrite <- app_assoc. reflexivity.
  - rewrite Hcs5, Hcs4, Hcs3, Hcs2, Hcs1. unfold vertex_calls at 1.
    cbn [v_point v_calls v0].
    rewrite u32_small by (unfold Int.is_u32; lia).
    rewrite Hlen.
    unfold ring_sum. rewrite <- Hacc. cbn [fst snd].
    rewrite <- !app_assoc. reflexivity.
  - unfold reader_after, reader_of in *.
    cbn [dec geom_attributes] in Hd4.
    injection Hr5 as Rc5 Re5 Ra5.
    split; [|split];
      cbn [r_cursor r_elev r_attrs v_point v_px v_py v_calls v0 dec
           geom_attributes].
    + rewrite <- Rc1, <- Re1. exact Hpt.
    + rewrite Hga. reflexivity.
    + rewrite Re3, Hel2, Re1, Rc3, Hcur2, Hga in Hd4.
      rewrite Rc5, Re5, Ra5. exact Hd4.
  - destruct Hf1 as [_ Hx1]. destruct Hf2 as [_ Hx2]. lia.
  - lia.
  - lia.
  - destruct Hf1, Hf2, Hf3, Hf4, Hf5. cbn [dec] in *. split; congruence.
Qed.

End Bodies.

(** ** The loops over the linestrings and the rings *)

Section Paths.

Variable Dimensions : Z.
Variable T : Type.
Variable convert : unscaled_point -> T.

Lemma bind_total {A B : Type} (m : M T A) (f : A -> M T B) (s : machine T) :
  fst (m s) <> OutOfFuel ->
  (forall a s1, m s = (Ok a, s1) -> fst (f a s1) <> OutOfFuel) ->
  fst (bind m f s) <> OutOfFuel.
Proof.
  unfold bind. destruct (m s) as [[a|e|] s1]; cbn; intros H1 H2.
  - apply H2. reflexivity.
  - discriminate.
  - congruence.
Qed.

Lemma next_command_total (e : CommandId) (s : machine T) :
  fst (next_command e s) <> OutOfFuel.
Proof.
  unfold next_command.
  destruct (negb (m_count (dec s) =? 0)); [cbn; discriminate|].
  destruct (m_geom_it (dec s)) as [|w rest]; [cbn; discriminate|].
  destruct (negb _); [cbn; discriminate|].
  destruct e; repeat (destruct (negb _) || destruct (_ >? _));
    cbn; discriminate.
Qed.

Lemma next_point_total (s : machine T) :
  fst (next_point Dimensions s) <> OutOfFuel.
Proof.
  unfold next_point.
  destruct (negb (m_count (dec s) >? 0)); [cbn; discriminate|].
  destruct (m_geom_it (dec s)) as [|px [|py rest]]; cbn; discriminate.
Qed.

Lemma decode_linestring_body_total (s : machine T) :
  fst (decode_linestring_body Dimensions convert s) <> OutOfFuel.
Proof.
  unfold decode_linestring_body. rewrite bind_count.
  destruct (negb (m_count (dec s) =? 1)); [cbn; discriminate|].
  apply bind_total; [apply next_point_total|]. intros p s1 _.
  apply bind_total; [apply next_command_total|]. intros b s2 _.
  destruct (negb b); [cbn; discriminate|].
  rewrite bind_count.
  destruct (m_count (dec s2) =? 0); [cbn; discriminate|].
  rewrite bind_count, bind_call, bind_call, bind_for_geom_attributes, bind_count.
  apply bind_total; [|intros; cbn; discriminate].
  apply (while_count_total Dimensions T convert unit linestring_point
           (fun a _ => a)).
  - intros a0 s4. apply unit_body_eq.
  - cbn [dec]. lia.
Qed.

Lemma decode_polygon_body_total (s : machine T) :
  fst (decode_polygon_body Dimensions convert s) <> OutOfFuel.
Proof.
  unfold decode_polygon_body. rewrite bind_count.
  destruct (negb (m_count (dec s) =? 1)); [cbn; discriminate|].
  apply bind_total; [apply next_point_total|]. intros p s1 _.
  apply bind_total; [apply next_command_total|]. intros b s2 _.
  destruct (negb b); [cbn; discriminate|].
  rewrite bind_count, bind_call, bind_call, bind_for_geom_attributes, bind_count.
  apply bind_total.
  - apply (while_count_total Dimensions T convert (Z * unscaled_point)%type
             ring_point ring_sum_step).
    + intros a0 s4. apply ring_body_eq.
    + cbn [dec]. lia.
  - intros [sum last_point] s3 _.
    apply bind_total; [apply next_command_total|]. intros b' s4 _.
    destruct (negb b'); cbn; discriminate.
Qed.

Section WhileMoveTo.

(** A loop body, the words and the calls of what it decodes, and what
    holds of a path it accepts under a maximum count. *)
Variable body : M T unit.
Variable words : path T -> list Z.
Variable pcalls : path T -> list (handler_call T).
Variable bounded : Z -> path T -> Prop.

Hypothesis body_ok :
  forall s0 s s' : machine T,
    next_command MOVE_TO s0 = (Ok true, s) ->
    body s = (Ok tt, s') ->
    Forall Int.is_u32 (m_geom_it (dec s0)) ->
    exists p : path T,
      m_geom_it (dec s0) = words p ++ m_geom_it (dec s')
      /\ calls s' = calls s0 ++ pcalls p
      /\ decoded Dimensions (reader_of s0) (path_vertices p) (reader_of s')
      /\ bounded (m_max_count (dec s0)) p
      /\ m_count (dec s') = 0
      /\ same_frame s0 s'.

Hypothesis body_total : forall s : machine T, fst (body s) <> OutOfFuel.

Hypothesis words_not_nil : forall p : path T, words p <> [].

Lemma while_move_to_ok (fuel : nat) :
  forall s s' : machine T,
    while_move_to fuel body s = (Ok tt, s') ->
    Forall Int.is_u32 (m_geom_it (dec s)) ->
    exists ps : list (path T),
      m_geom_it (dec s) = flat_map words ps
      /\ m_geom_it (dec s') = []
      /\ calls s' = calls s ++ flat_map pcalls ps
      /\ decoded Dimensions (reader_of s) (flat_map path_vertices ps)
                 (reader_of s')
      /\ Forall (bounded (m_max_count (dec s))) ps
      /\ m_count (dec s') = 0
      /\ same_frame s s'.
Proof.
  induction fuel as [|fuel IH]; intros s s' H Hu; [discriminate H|].
  cbn [while_move_to] in H.
  apply bind_ok in H. destruct H as (b & s1 & Hm & H).
  destruct b.
  - apply bind_ok in H. destruct H as ([] & s2 & Hb & H).
    destruct (body_ok s s1 s2 Hm Hb Hu)
      as (p & Hg & Hcs & Hd & Hq & Hc & Hf).
    apply IH in H; [|rewrite Hg in Hu; exact (Forall_u32_app _ _ Hu)].
    destruct H as (ps & Hg' & He' & Hcs' & Hd' & Hq' & Hc' & Hf').
    exists (p :: ps). cbn [flat_map].
    split; [|split; [|split; [|split; [|split; [|split]]]]].
    + rewrite Hg, Hg'. reflexivity.
    + exact He'.
    + rewrite Hcs', Hcs, <- app_assoc. reflexivity.
    + exact (decoded_app Dimensions T _ _ _ _ _ Hd Hd').
    + constructor; [exact Hq|]. destruct Hf as [_ Hx]. rewrite <- Hx. exact Hq'.
    + exact Hc'.
    + exact (same_frame_trans T _ _ _ Hf Hf').
  - unfold ret in H. injection H as <-.
    apply next_command_false in Hm. destruct Hm as (-> & Hg & Hc).
    exists []. cbn [flat_map]. rewrite app_nil_r.
    split; [exact Hg|]. split; [exact Hg|].
    split; [reflexivity|]. split; [reflexivity|].
    split; [constructor|]. split; [exact Hc|apply same_frame_refl].
Qed.

(** With a bound above the length of the geometry stream, the loop
    returns or throws. *)
Lemma while_move_to_total (fuel : nat) :
  forall s : machine T,
    (length (m_geom_it (dec s)) < fuel)%nat ->
    Forall Int.is_u32 (m_geom_it (dec s)) ->
    fst (while_move_to fuel body s) <> OutOfFuel.
Proof.
  induction fuel as [|fuel IH]; intros s Hf Hu; [lia|].
  cbn [while_move_to].
  apply bind_total; [apply next_command_total|]. intros b s1 Hm.
  destruct b; [|cbn; discriminate].
  apply bind_total; [apply body_total|]. intros [] s2 Hb.
  destruct (body_ok s s1 s2 Hm Hb Hu) as (p & Hg & _).
  apply next_command_true in Hm.
  destruct Hm as (_ & (w & Hg1 & _) & _).
  assert (Hg2 : exists l, m_geom_it (dec s1) = l ++ m_geom_it (dec s2)).
  { rewrite Hg1 in Hg. pose proof (words_not_nil p) as Hne.
    destruct (words p) as [|w' l]; cbn in Hg.
    - exfalso. exact (Hne eq_refl).
    - injection Hg as _ Hg. exists l. exact Hg. }
  destruct Hg2 as (l & Hg2).
  apply IH.
  - rewrite Hg1, Hg2 in Hf. cbn [length] in Hf. rewrite length_app in Hf. lia.
  - rewrite Hg1, Hg2 in Hu. inversion Hu as [|? ? _ Hu1].
    exact (Forall_u32_app _ _ Hu1).
Qed.

End WhileMoveTo.

End Paths.

(** ** The three drivers *)

Section Drivers.

Variable Dimensions : Z.
Variable MaxGeometricAttributes : nat.
Variable T : Type.
Variable convert : unscaled_point -> T.

Lemma new_geom_attributes_ok (s s' : machine T) :
  new_geom_attributes MaxGeometricAttributes s = (Ok tt, s') ->
  s' = mk_machine (dec s) (geom_attributes s') (calls s)
  /\ match m_attr_it (dec s) with
     | dummy_attr_iterator => geom_attributes s' = []
     | attr_range it =>
         Attr.collection MaxGeometricAttributes it = Ok (geom_attributes s')
     end.
Proof.
  unfold new_geom_attributes. destruct (m_attr_it (dec s)) as [|it].
  - intros H. injection H as <-. split; reflexivity.
  - destruct (Attr.collection MaxGeometricAttributes it) as [attrs|e|];
      try discriminate.
    intros H. injection H as <-. split; reflexivity.
Qed.

Lemma new_geom_attributes_total (s : machine T) :
  fst (new_geom_attributes MaxGeometricAttributes s) <> OutOfFuel.
Proof.
  unfold new_geom_attributes. destruct (m_attr_it (dec s)) as [|it].
  - cbn. discriminate.
  - destruct (collection_total MaxGeometricAttributes it)
      as [(attrs & E)|(e & E)]; rewrite E; cbn; discriminate.
Qed.

Lemma linestring_words_not_nil (p : path T) : linestring_words p <> [].
Proof. unfold linestring_words. discriminate. Qed.

Lemma ring_words_not_nil (p : path T) : ring_words p <> [].
Proof. unfold ring_words. discriminate. Qed.

(** An accepted linestring geometry: the geometry stream is the one of a
    list of linestrings, the calls are theirs, their vertices are decoded
    one after the other, and the counts are within the maximum. *)
Lemma decode_linestring_ok (s s' : machine T) :
  decode_linestring Dimensions MaxGeometricAttributes convert s = (Ok tt, s') ->
  Forall Int.is_u32 (m_geom_it (dec s)) ->
  exists (attrs : list Attr.geometric_attribute) (ps : list (path T)),
    new_geom_attributes MaxGeometricAttributes s
    = (Ok tt, mk_machine (dec s) attrs (calls s))
    /\ m_geom_it (dec s) = flat_map linestring_words ps
    /\ calls s' = calls s ++ flat_map (linestring_calls convert) ps
    /\ decoded Dimensions
         (mk_reader (m_cursor (dec s)) (m_elev_it (dec s)) attrs)
         (flat_map path_vertices ps) (reader_of s')
    /\ Forall (fun p => 1 <= Z.of_nat (length (p_rest p)) <= m_max_count (dec s)
                        /\ 1 <= m_max_count (dec s)) ps.
Proof.
  unfold decode_linestring. intros H Hu.
  apply bind_ok in H. destruct H as ([] & s1 & Hn & H).
  pose proof (new_geom_attributes_ok s s1 Hn) as [Hs1 _].
  rewrite Hs1 in H, Hn. cbn [dec] in H.
  apply (while_move_to_ok Dimensions T
           (decode_linestring_body Dimensions convert)
           linestring_words (linestring_calls convert)
           (fun m p => 1 <= Z.of_nat (length (p_rest p)) <= m /\ 1 <= m)) in H.
  - destruct H as (ps & Hg & _ & Hcs & Hd & Hq & _ & _).
    exists (geom_attributes s1), ps. cbn [dec calls] in *.
    split; [exact Hn|]. split; [exact Hg|]. split; [exact Hcs|].
    split; [exact Hd|exact Hq].
  - intros s0 s2 s3 Hm Hb Hu0.
    destruct (decode_linestring_body_ok Dimensions T convert s0 s2 s3 Hm Hb Hu0)
      as (p & Hg & Hcs & Hd & Hq1 & Hq2 & Hc & Hf).
    exists p. auto 10.
  - cbn [dec]. exact Hu.
Qed.

(** An accepted polygon geometry, likewise. *)
Lemma decode_polygon_ok (s s' : machine T) :
  decode_polygon Dimensions MaxGeometricAttributes convert s = (Ok tt, s') ->
  Forall Int.is_u32 (m_geom_it (dec s)) ->
  exists (attrs : list Attr.geometric_attribute) (ps : list (path T)),
    new_geom_attributes MaxGeometricAttributes s
    = (Ok tt, mk_machine (dec s) attrs (calls s))
    /\ m_geom_it (dec s) = flat_map ring_words ps
    /\ calls s' = calls s ++ flat_map (ring_calls convert) ps
    /\ decoded Dimensions
         (mk_reader (m_cursor (dec s)) (m_elev_it (dec s)) attrs)
         (flat_map path_vertices ps) (reader_of s')
    /\ Forall (fun p => Z.of_nat (length (p_rest p)) <= m_max_count (dec s)
                        /\ 1 <= m_max_count (dec s)) ps.
Proof.
  unfold decode_polygon. intros H Hu.
  apply bind_ok in H. destruct H as ([] & s1 & Hn & H).
  pose proof (new_geom_attributes_ok s s1 Hn) as [Hs1 _].
  rewrite Hs1 in H, Hn. cbn [dec] in H.
  apply (while_move_to_ok Dimensions T
           (decode_polygon_body Dimensions convert)
           ring_words (ring_calls convert)
           (fun m p => Z.of_nat (length (p_rest p)) <= m /\ 1 <= m)) in H.
  - destruct H as (ps & Hg & _ & Hcs & Hd & Hq & _ & _).
    exists (geom_attributes s1), ps. cbn [dec calls] in *.
    split; [exact Hn|]. split; [exact Hg|]. split; [exact Hcs|].
    split; [exact Hd|exact Hq].
  - intros s0 s2 s3 Hm Hb Hu0.
    destruct (decode_polygon_body_ok Dimensions T convert s0 s2 s3 Hm Hb Hu0)
      as (p & Hg & Hcs & Hd & Hq1 & Hq2 & Hc & Hf).
    exists p. auto 10.
  - cbn [dec]. exact Hu.
Qed.

(** The part of the point driver before the test of [done()], when it
    returns: one MoveTo, of a count within the maximum, and that many
    vertices. *)
Lemma decode_point_points_ok (s s' : machine T) :
  decode_point_points Dimensions MaxGeometricAttributes convert s = (Ok tt, s') ->
  Forall Int.is_u32 (m_geom_it (dec s)) ->
  exists (attrs : list Attr.geometric_attribute) (vs : list (vertex T)),
    new_geom_attributes MaxGeometricAttributes s
    = (Ok tt, mk_machine (dec s) attrs (calls s))
    /\ m_geom_it (dec s) = points_words vs ++ m_geom_it (dec s')
    /\ calls s'
       = calls s ++ points_begin (Z.of_nat (length vs))
                 :: flat_map (vertex_calls convert points_point) vs
    /\ decoded Dimensions
         (mk_reader (m_cursor (dec s)) (m_elev_it (dec s)) attrs)
         vs (reader_of s')
    /\ 1 <= Z.of_nat (length vs) <= m_max_count (dec s)
    /\ m_count (dec s') = 0.
Proof.
  unfold decode_point_points. intros H Hu.
  apply bind_ok in H. destruct H as (b & s1 & Hm & H).
  destruct b; cbn [negb] in H; [|discriminate H].
  apply next_command_true in Hm.
  destruct Hm as (Hc0 & (w1 & Hg1 & Hid1 & Hn1 & Hmax1) & Hr1 & Hcs1 & Hf1).
  rewrite bind_count in H.
  destruct (Z.eqb_spec (m_count (dec s1)) 0) as [E0|E0]; [discriminate H|].
  apply bind_ok in H. destruct H as ([] & s2 & Hn & H).
  pose proof (new_geom_attributes_ok s1 s2 Hn) as [Hs2 _].
  rewrite Hs2 in H. rewrite bind_count, bind_call, bind_count in H.
  cbn [dec geom_attributes calls] in H.
  assert (Hw1 : Int.is_u32 w1).
  { rewrite Hg1 in Hu. inversion Hu as [|? ? Hw1 _]. exact Hw1. }
  pose proof (get_command_count_range w1 Hw1) as Hrange.
  apply (while_count_ok Dimensions T convert unit points_point
           (fun a _ => a)) in H;
    [|intros a0 s4; apply unit_body_eq|cbn [dec]; lia].
  cbn [dec geom_attributes calls] in H.
  destruct H as (vs & Hlen & Hcnt & Hg4 & Hcs4 & Hd4 & _ & Hf4).
  apply reader_of_eq in Hr1. destruct Hr1 as (Rc1 & Re1 & Ra1).
  exists (geom_attributes s2), vs.
  split; [|split; [|split; [|split; [|split]]]].
  - unfold new_geom_attributes in *.
    destruct Hf1 as [Hat _]. rewrite Hat in Hn.
    destruct (m_attr_it (dec s)) as [|it].
    + injection Hn as Hn. rewrite <- Hn. reflexivity.
    + destruct (Attr.collection MaxGeometricAttributes it) as [attrs|e|];
        try discriminate Hn.
      injection Hn as Hn. rewrite <- Hn. reflexivity.
  - unfold points_words. rewrite Hg1, Hg4. cbn [app]. f_equal.
    etransitivity; [exact (command_integer_of_word w1 MOVE_TO Hid1)|].
    f_equal. congruence.
  - rewrite Hcs4, Hcs1, Hlen, <- app_assoc. reflexivity.
  - unfold reader_of in Hd4. cbn [dec geom_attributes] in Hd4.
    rewrite Rc1, Re1 in Hd4. exact Hd4.
  - lia.
  - exact Hcnt.
Qed.

(** An accepted point geometry: the geometry stream is one MoveTo and its
    vertices, and nothing is left of it or of the elevations. *)
Lemma decode_point_ok (s s' : machine T) :
  decode_point Dimensions MaxGeometricAttributes convert s = (Ok tt, s') ->
  Forall Int.is_u32 (m_geom_it (dec s)) ->
  exists (attrs : list Attr.geometric_attribute) (vs : list (vertex T)),
    new_geom_attributes MaxGeometricAttributes s
    = (Ok tt, mk_machine (dec s) attrs (calls s))
    /\ m_geom_it (dec s) = points_words vs
    /\ calls s' = calls s ++ points_calls convert vs
    /\ decoded Dimensions
         (mk_reader (m_cursor (dec s)) (m_elev_it (dec s)) attrs)
         vs (reader_of s')
    /\ 1 <= Z.of_nat (length vs) <= m_max_count (dec s)
    /\ m_elev_it (dec s') = [].
Proof.
  unfold decode_point. intros H Hu.
  apply bind_ok in H. destruct H as ([] & s1 & Hp & H).
  destruct (decode_point_points_ok s s1 Hp Hu)
    as (attrs & vs & Hn & Hg & Hcs & Hd & Hq & Hc).
  unfold bind at 1, done at 1 in H.
  destruct (done_of (dec s1)) eqn:Hdone; cbn [negb] in H; [|discriminate H].
  rewrite call_ok in H. injection H as <-.
  unfold done_of in Hdone.
  destruct (m_geom_it (dec s1)) as [|? ?] eqn:Eg; [|discriminate Hdone].
  destruct (m_elev_it (dec s1)) as [|? ?] eqn:Ee; [|discriminate Hdone].
  exists attrs, vs. cbn [dec calls].
  split; [exact Hn|]. split; [rewrite Hg, app_nil_r; reflexivity|].
  split; [|split; [|split; [exact Hq|exact Ee]]].
  - rewrite Hcs. unfold points_calls. rewrite <- app_assoc. reflexivity.
  - exact Hd.
Qed.

(** The drivers return or throw: the loop bounds of the embedding are
    never reached. *)
Lemma decode_point_total (s : machine T) :
  fst (decode_point Dimensions MaxGeometricAttributes convert s) <> OutOfFuel.
Proof.
  unfold decode_point, decode_point_points.
  apply bind_total; [|intros [] s1 _].
  - apply bind_total; [apply next_command_total|]. intros b s1 _.
    destruct (negb b); [cbn; discriminate|]. rewrite bind_count.
    destruct (m_count (dec s1) =? 0); [cbn; discriminate|].
    apply bind_total; [apply new_geom_attributes_total|]. intros [] s2 _.
    rewrite bind_count, bind_call, bind_count.
    apply (while_count_total Dimensions T convert unit points_point
             (fun a _ => a)).
    + intros a0 s4. apply unit_body_eq.
    + cbn [dec]. lia.
  - unfold bind, done. destruct (negb (done_of (dec s1))); cbn; discriminate.
Qed.

Lemma decode_linestring_total (s : machine T) :
  Forall Int.is_u32 (m_geom_it (dec s)) ->
  fst (decode_linestring Dimensions MaxGeometricAttributes convert s)
  <> OutOfFuel.
Proof.
  intros Hu. unfold decode_linestring.
  apply bind_total; [apply new_geom_attributes_total|]. intros [] s1 Hn.
  pose proof (new_geom_attributes_ok s s1 Hn) as [Hs1 _].
  apply (while_move_to_total Dimensions T
           (decode_linestring_body Dimensions convert)
           linestring_words (linestring_calls convert)
           (fun m p => 1 <= Z.of_nat (length (p_rest p)) <= m /\ 1 <= m)).
  - intros s0 s2 s3 Hm Hb Hu0.
    destruct (decode_linestring_body_ok Dimensions T convert s0 s2 s3 Hm Hb Hu0)
      as (p & Hg & Hcs & Hd & Hq1 & Hq2 & Hc & Hf).
    exists p. auto 10.
  - apply decode_linestring_body_total.
  - apply linestring_words_not_nil.
  - lia.
  - rewrite Hs1. cbn [dec]. exact Hu.
Qed.

Lemma decode_polygon_total (s : machine T) :
  Forall Int.is_u32 (m_geom_it (dec s)) ->
  fst (decode_polygon Dimensions MaxGeometricAttributes convert s)
  <> OutOfFuel.
Proof.
  intros Hu. unfold decode_polygon.
  apply bind_total; [apply new_geom_attributes_total|]. intros [] s1 Hn.
  pose proof (new_geom_attributes_ok s s1 Hn) as [Hs1 _].
  apply (while_move_to_total Dimensions T
           (decode_polygon_body Dimensions convert)
           ring_words (ring_calls convert)
           (fun m p => Z.of_nat (length (p_rest p)) <= m /\ 1 <= m)).
  - intros s0 s2 s3 Hm Hb Hu0.
    destruct (decode_polygon_body_ok Dimensions T convert s0 s2 s3 Hm Hb Hu0)
      as (p & Hg & Hcs & Hd & Hq1 & Hq2 & Hc & Hf).
    exists p. auto 10.
  - apply decode_polygon_body_total.
  - apply ring_words_not_nil.
  - lia.
  - rewrite Hs1. cbn [dec]. exact Hu.
Qed.

End Drivers.

(** ** What holds of decoded vertices *)

Section Decoded.

Variable Dimensions : Z.
Variable T : Type.
Variable convert : unscaled_point -> T.

Lemma attribute_calls_are_attr_calls (attrs : list Attr.geometric_attribute) :
  Forall (fun c => is_attr_call c = true) (snd (attribute_calls T attrs)).
Proof.
  rewrite attribute_calls_map. cbn [snd].
  induction attrs as [|a attrs IH]; cbn [map]; constructor; [|exact IH].
  unfold attribute_call. destruct (Attr.get_next_value a) as [[|] a'];
    reflexivity.
Qed.

Lemma attribute_calls_length (attrs : list Attr.geometric_attribute) :
  length (snd (attribute_calls T attrs)) = length attrs
  /\ length (fst (attribute_calls T attrs)) = length attrs.
Proof.
  rewrite attribute_calls_map. cbn [fst snd]. rewrite !length_map. auto.
Qed.

(** The calls after a decoded vertex are attribute calls, as many as the
    collection has slots, and its coordinates are 32 bit integers. *)
Lemma decoded_vertices (vs : list (vertex T)) :
  forall r r' : reader,
    decoded Dimensions r vs r' ->
    Forall (fun v => Forall (fun c => is_attr_call c = true) (v_calls v)
                     /\ length (v_calls v) = length (r_attrs r)
                     /\ Int.is_i32 (x (v_point v))
                     /\ Int.is_i32 (y (v_point v))) vs
    /\ length (r_attrs r') = length (r_attrs r).
Proof.
  induction vs as [|v vs IH]; intros r r' H; cbn [decoded] in H.
  - subst r'. split; [constructor|reflexivity].
  - destruct H as (Hp & Hc & H). apply IH in H. destruct H as [H Hl].
    unfold reader_after in *. cbn [r_attrs] in *.
    rewrite (proj2 (attribute_calls_length _)) in *.
    split; [|exact Hl]. constructor; [|exact H].
    rewrite Hc, Hp. split; [apply attribute_calls_are_attr_calls|].
    split; [apply attribute_calls_length|].
    unfold move_cursor. cbn [x y]. split; apply i32_range.
Qed.

(** The calls that pass a point, among the calls for decoded vertices. *)
Lemma vertex_calls_select (sel : handler_call T -> list T)
      (point : T -> handler_call T) (vs : list (vertex T)) :
  (forall c, is_attr_call c = true -> sel c = []) ->
  Forall (fun v => Forall (fun c => is_attr_call c = true) (v_calls v)) vs ->
  flat_map sel (flat_map (vertex_calls convert point) vs)
  = flat_map (fun v => sel (point (convert (v_point v)))) vs.
Proof.
  intros Hsel H. induction H as [|v vs Hv _ IH]; [reflexivity|].
  cbn [flat_map]. rewrite flat_map_app, IH. unfold vertex_calls.
  cbn [flat_map]. rewrite <- app_assoc. f_equal.
  assert (E : flat_map sel (v_calls v) = []).
  { induction Hv as [|c cs Hc _ IHc]; [reflexivity|].
    cbn [flat_map]. rewrite (Hsel c Hc), IHc. reflexivity. }
  rewrite E. reflexivity.
Qed.

End Decoded.

(** ** The sum of the polygon driver and the signed area *)

(** A cross product of points with 32 bit coordinates does not overflow
    64 bits: [det] is exact. *)
Lemma det_exact (a b : unscaled_point) :
  Int.is_i32 (x a) -> Int.is_i32 (y a) ->
  Int.is_i32 (x b) -> Int.is_i32 (y b) ->
  det a b = cross a b /\ Int.is_i64 (cross a b).
Proof.
  unfold Int.is_i32, det, cross. intros Hxa Hya Hxb Hyb.
  assert (H1 : - 2 ^ 62 < x a * y b <= 2 ^ 62) by nia.
  assert (H2 : - 2 ^ 62 < x b * y a <= 2 ^ 62) by nia.
  rewrite (i64_small (x a * y b)) by (unfold Int.is_i64; lia).
  rewrite (i64_small (x b * y a)) by (unfold Int.is_i64; lia).
  split; [apply i64_small|]; unfold Int.is_i64; lia.
Qed.

(** The sum the polygon driver computes is the shoelace sum, reduced to
    64 bits. *)
Lemma ring_sum_shoelace (start_point : unscaled_point)
      (rest : list unscaled_point) :
  Int.is_i32 (x start_point) -> Int.is_i32 (y start_point) ->
  Forall (fun p => Int.is_i32 (x p) /\ Int.is_i32 (y p)) rest ->
  ring_sum start_point rest = Int.i64 (twice_signed_area start_point rest).
Proof.
  intros Hx Hy Hrest. unfold ring_sum, twice_signed_area.
  assert (G : forall (acc : Z) (last : unscaled_point),
             Int.is_i32 (x last) -> Int.is_i32 (y last) ->
             Int.i64 (fst (fold_left ring_sum_step rest (acc, last))
                      + det (snd (fold_left ring_sum_step rest (acc, last)))
                            start_point)
             = Int.i64 (acc + shoelace start_point last rest)).
  { induction Hrest as [|p rest [Hpx Hpy] _ IH]; intros acc last Hlx Hly.
    - cbn [fold_left fst snd shoelace].
      rewrite (proj1 (det_exact last start_point Hlx Hly Hx Hy)). reflexivity.
    - cbn [fold_left shoelace].
      change (ring_sum_step (acc, last) p)
        with (Int.i64 (acc + det last p), p).
      rewrite (IH _ p Hpx Hpy), i64_add_l.
      rewrite (proj1 (det_exact last p Hlx Hly Hpx Hpy)).
      f_equal. lia. }
  rewrite (G 0 start_point Hx Hy). reflexivity.
Qed.

(* ================================================================== *)
(** * The properties the description states *)

Section Claims.

Variable Dimensions : Z.
Variable MaxGeometricAttributes : nat.
Variable T : Type.
Variable convert : unscaled_point -> T.

(** C9.  When the next integer of the geometry stream is a command
    integer with the id of ClosePath and a count other than 1 (2, say),
    [next_command] throws a geometry exception whatever command is
    expected, and so does whatever continues from it; with ClosePath
    expected the exception is "ClosePath command count is not 1".  The
    three drivers throw a geometry exception on a stream that starts with
    such an integer.  And [next_command(CLOSE_PATH)] returns true only on
    a command integer of count 1. *)
Theorem close_path_count_must_be_1 :
  forall (expected : CommandId) (s : machine T) (word : Z) (rest : list Z),
    m_count (dec s) = 0 ->
    m_geom_it (dec s) = word :: rest ->
    get_command_id word = CommandId_value CLOSE_PATH ->
    get_command_count word <> 1 ->
    (exists msg,
        next_command expected s = (Throw (geometry_exception msg), s)
        /\ forall (B : Type) (k : bool -> M T B),
            bind (next_command expected) k s
            = (Throw (geometry_exception msg), s))
    /\ next_command CLOSE_PATH s
       = (Throw (geometry_exception "ClosePath command count is not 1"), s)
    /\ (exists msg s1,
           decode_point Dimensions MaxGeometricAttributes convert s
           = (Throw (geometry_exception msg), s1))
    /\ (forall s1,
           new_geom_attributes MaxGeometricAttributes s = (Ok tt, s1) ->
           exists msg s2,
             decode_linestring Dimensions MaxGeometricAttributes convert s
             = (Throw (geometry_exception msg), s2))
    /\ (forall s1,
           new_geom_attributes MaxGeometricAttributes s = (Ok tt, s1) ->
           exists msg s2,
             decode_polygon Dimensions MaxGeometricAttributes convert s
             = (Throw (geometry_exception msg), s2))
    /\ (forall s0 s' : machine T,
           next_command CLOSE_PATH s0 = (Ok true, s') ->
           exists w, m_geom_it (dec s0) = w :: m_geom_it (dec s')
                     /\ get_command_id w = CommandId_value CLOSE_PATH
                     /\ get_command_count w = 1).
Proof.
  intros expected s word rest Hc Hg Hid Hn.
  assert (Hthrow : forall e : CommandId,
             exists msg, next_command e s = (Throw (geometry_exception msg), s)).
  { intros e. unfold next_command. rewrite Hc, Hg. cbn [Z.eqb negb].
    rewrite u32_command_id, Hid.
    destruct e; cbn [CommandId_value Z.eqb Pos.eqb negb].
    - eexists. reflexivity.
    - eexists. reflexivity.
    - destruct (Z.eqb_spec (get_command_count word) 1) as [E|E];
        [contradiction|]. cbn [negb]. eexists. reflexivity. }
  split; [|split; [|split; [|split; [|split]]]].
  - destruct (Hthrow expected) as (msg & E). exists msg. split; [exact E|].
    intros B k. apply bind_throw. exact E.
  - unfold next_command. rewrite Hc, Hg. cbn [Z.eqb negb].
    rewrite u32_command_id, Hid. cbn [CommandId_value Z.eqb Pos.eqb negb].
    destruct (Z.eqb_spec (get_command_count word) 1) as [E|E];
      [contradiction|reflexivity].
  - destruct (Hthrow MOVE_TO) as (msg & E). exists msg, s.
    unfold decode_point, decode_point_points.
    apply bind_throw. apply bind_throw. exact E.
  - intros s1 Hs1. destruct (new_geom_attributes_ok _ _ s s1 Hs1) as [Es1 _].
    assert (Hc1 : m_count (dec s1) = 0) by (rewrite Es1; exact Hc).
    assert (Hg1 : m_geom_it (dec s1) = word :: rest) by (rewrite Es1; exact Hg).
    exists ("expected command 1 but got 7"%string), s1.
    unfold decode_linestring. rewrite (bind_step _ _ _ _ _ _ Hs1).
    cbn [while_move_to]. apply bind_throw.
    unfold next_command. rewrite Hc1, Hg1. cbn [Z.eqb negb].
    rewrite u32_command_id, Hid. reflexivity.
  - intros s1 Hs1. destruct (new_geom_attributes_ok _ _ s s1 Hs1) as [Es1 _].
    assert (Hc1 : m_count (dec s1) = 0) by (rewrite Es1; exact Hc).
    assert (Hg1 : m_geom_it (dec s1) = word :: rest) by (rewrite Es1; exact Hg).
    exists ("expected command 1 but got 7"%string), s1.
    unfold decode_polygon. rewrite (bind_step _ _ _ _ _ _ Hs1).
    cbn [while_move_to]. apply bind_throw.
    unfold next_command. rewrite Hc1, Hg1. cbn [Z.eqb negb].
    rewrite u32_command_id, Hid. reflexivity.
  - intros s0 s' H. apply next_command_true in H.
    destruct H as (_ & (w & Hw & Hi & Hcnt & _) & _).
    exists w. auto.
Qed.

(** C7.  [done()] is true exactly when the geometry stream and the
    elevation stream are both exhausted.  When the point driver has
    consumed the points of its MoveTo (the count is back at 0), it throws
    the geometry exception "additional data after end of geometry" if
    [done()] is false, and calls [points_end] and returns if it is true. *)
Theorem point_driver_additional_data :
  forall s s1 : machine T,
    Forall Int.is_u32 (m_geom_it (dec s)) ->
    decode_point_points Dimensions MaxGeometricAttributes convert s
    = (Ok tt, s1) ->
    (exists vs : list (vertex T),
        m_geom_it (dec s) = points_words vs ++ m_geom_it (dec s1)
        /\ m_count (dec s1) = 0)
    /\ (done_of (dec s1) = true
        <-> m_geom_it (dec s1) = [] /\ m_elev_it (dec s1) = [])
    /\ done s1 = (Ok (done_of (dec s1)), s1)
    /\ (done_of (dec s1) = false ->
        decode_point Dimensions MaxGeometricAttributes convert s
        = (Throw (geometry_exception
                    "additional data after end of geometry (spec 4.3.4.2)"),
           s1))
    /\ (done_of (dec s1) = true ->
        decode_point Dimensions MaxGeometricAttributes convert s
        = (Ok tt,
           mk_machine (dec s1) (geom_attributes s1) (calls s1 ++ [points_end]))).
Proof.
  intros s s1 Hu H. split; [|split; [|split; [|split]]].
  - destruct (decode_point_points_ok _ _ _ _ s s1 H Hu)
      as (attrs & vs & _ & Hg & _ & _ & _ & Hc).
    exists vs. split; [exact Hg|exact Hc].
  - unfold done_of.
    destruct (m_geom_it (dec s1)), (m_elev_it (dec s1)); split;
      intros X; try discriminate X; try reflexivity; auto;
      destruct X; discriminate.
  - reflexivity.
  - intros Hd. unfold decode_point. rewrite (bind_step _ _ _ _ _ _ H).
    unfold bind, done. rewrite Hd. reflexivity.
  - intros Hd. unfold decode_point. rewrite (bind_step _ _ _ _ _ _ H).
    unfold bind, done. rewrite Hd. reflexivity.
Qed.

(** What holds of each vertex of the paths of an accepted geometry. *)
Lemma decoded_paths (ps : list (path T)) (r r' : reader) :
  decoded Dimensions r (flat_map path_vertices ps) r' ->
  Forall (fun p =>
            Forall (fun v => Forall (fun c => is_attr_call c = true) (v_calls v)
                             /\ length (v_calls v) = length (r_attrs r)
                             /\ Int.is_i32 (x (v_point v))
                             /\ Int.is_i32 (y (v_point v)))
                   (path_vertices p)) ps.
Proof.
  intros H. apply decoded_vertices in H. destruct H as [H _].
  apply Forall_flat_map in H. exact H.
Qed.


(** Where no [sum += det(..)] leaves the 64 bit integers, the sum is the
    shoelace sum. *)
Lemma ring_sum_no_overflow (start_point : unscaled_point)
      (rest : list unscaled_point) :
  Int.is_i32 (x start_point) -> Int.is_i32 (y start_point) ->
  Forall (fun p => Int.is_i32 (x p) /\ Int.is_i32 (y p)) rest ->
  Forall Int.is_i64 (ring_partial_sums start_point rest) ->
  ring_sum start_point rest = twice_signed_area start_point rest.
Proof.
  intros Hx Hy Hrest. unfold ring_sum, twice_signed_area, ring_partial_sums.
  assert (G : forall (acc : Z) (last : unscaled_point),
             Int.is_i32 (x last) -> Int.is_i32 (y last) ->
             Forall Int.is_i64 (partial_sums start_point last acc rest) ->
             Int.i64 (fst (fold_left ring_sum_step rest (acc, last))
                      + det (snd (fold_left ring_sum_step rest (acc, last)))
                            start_point)
             = acc + shoelace start_point last rest).
  { induction Hrest as [|p rest [Hpx Hpy] _ IH]; intros acc last Hlx Hly Hf.
    - cbn [fold_left fst snd shoelace partial_sums] in *.
      rewrite (proj1 (det_exact last start_point Hlx Hly Hx Hy)).
      inversion Hf as [|? ? Hh _]. apply i64_small. exact Hh.
    - cbn [fold_left shoelace partial_sums] in *.
      inversion Hf as [|? ? Hh Ht]. subst.
      replace (ring_sum_step (acc, last) p) with (acc + cross last p, p).
      2:{ unfold ring_sum_step. cbn [fst snd].
          rewrite (proj1 (det_exact last p Hlx Hly Hpx Hpy)).
          rewrite (i64_small _ Hh). reflexivity. }
      rewrite (IH _ _ Hpx Hpy Ht). lia. }
  intros Hf. rewrite (G 0 start_point Hx Hy Hf). lia.
Qed.

(** X17.  The sum of a ring where nothing overflows.  For every ring of an
    accepted polygon, the argument of [ring_end] is the class of
    [ring_sum], the sum of the cross products of the consecutive points of
    the ring, start point to first point of the LineTo up to last point
    back to start point.  Each cross product is exact in 64 bits.  Where
    no [sum += det(..)] leaves the 64 bit integers, the sum is twice the
    signed area of the ring. *)
Theorem ring_sum_exact_without_overflow :
  forall s s' : machine T,
    decode_polygon Dimensions MaxGeometricAttributes convert s = (Ok tt, s') ->
    Forall Int.is_u32 (m_geom_it (dec s)) ->
    exists ps : list (path T),
      m_geom_it (dec s) = flat_map ring_words ps
      /\ calls s' = calls s ++ flat_map (ring_calls convert) ps
      /\ Forall
           (fun p =>
              last (ring_calls convert p) points_end
              = ring_end (ring_type_of_sum
                            (ring_sum (v_point (p_first p))
                                      (map v_point (p_rest p))))
              /\ (forall a b : unscaled_point,
                     In a (map v_point (path_vertices p)) ->
                     In b (map v_point (path_vertices p)) ->
                     det a b = cross a b /\ Int.is_i64 (cross a b))
              /\ (Forall Int.is_i64
                         (ring_partial_sums (v_point (p_first p))
                                            (map v_point (p_rest p))) ->
                  ring_sum (v_point (p_first p)) (map v_point (p_rest p))
                  = twice_signed_area (v_point (p_first p))
                                      (map v_point (p_rest p))))
           ps.
Proof.
  intros s s' H Hu.
  destruct (decode_polygon_ok _ _ _ _ s s' H Hu)
    as (attrs & ps & _ & Hg & Hcs & Hd & _).
  exists ps. split; [exact Hg|]. split; [exact Hcs|].
  apply decoded_paths in Hd.
  eapply Forall_impl; [|exact Hd]. clear. intros p Hp.
  assert (Hi : Forall (fun q => Int.is_i32 (x q) /\ Int.is_i32 (y q))
                      (map v_point (path_vertices p))).
  { apply Forall_map. eapply Forall_impl; [|exact Hp].
    intros v (_ & _ & Hx & Hy). auto. }
  split; [|split].
  - unfold ring_calls. rewrite app_comm_cons.
    match goal with
    | |- last (?l ++ [?a; ?b]) _ = _ =>
        change (l ++ [a; b]) with (l ++ [a] ++ [b])
    end.
    rewrite app_assoc. apply last_last.
  - intros a b Ha Hb. rewrite Forall_forall in Hi.
    destruct (Hi a Ha) as [Hxa Hya]. destruct (Hi b Hb) as [Hxb Hyb].
    apply det_exact; assumption.
  - unfold path_vertices in Hi. cbn [map] in Hi.
    inversion Hi as [|? ? [Hx Hy] Hrest]. subst.
    apply ring_sum_no_overflow; assumption.
Qed.


(** With the count as the assertions want it, [next_command] and
    [next_point] throw geometry exceptions only. *)
Lemma next_command_throws (e : CommandId) (s s1 : machine T) (ex : exception) :
  next_command e s = (Throw ex, s1) ->
  m_count (dec s) = 0 ->
  exists msg, ex = geometry_exception msg.
Proof.
  unfold next_command. intros H Hc. rewrite Hc in H. cbn [Z.eqb negb] in H.
  destruct (m_geom_it (dec s)) as [|w rest]; [discriminate H|].
  destruct (negb _) in H; [injection H as <- _; eexists; reflexivity|].
  destruct e.
  - destruct (_ >? _) in H; [|discriminate H].
    injection H as <- _. eexists. reflexivity.
  - destruct (_ >? _) in H; [|discriminate H].
    injection H as <- _. eexists. reflexivity.
  - destruct (negb _) in H; [|discriminate H].
    injection H as <- _. eexists. reflexivity.
Qed.

Lemma next_point_throws (s s1 : machine T) (ex : exception) :
  next_point Dimensions s = (Throw ex, s1) ->
  0 < m_count (dec s) ->
  exists msg, ex = geometry_exception msg.
Proof.
  unfold next_point. intros H Hc.
  replace (m_count (dec s) >? 0) with true in H
    by (symmetry; rewrite Z.gtb_ltb; apply Z.ltb_lt; exact Hc).
  cbn [negb] in H.
  destruct (m_geom_it (dec s)) as [|px [|py rest]]; try discriminate H;
    injection H as <- _; eexists; reflexivity.
Qed.

(** The loop of the linestring driver, on a stream that is not exhausted
    and does not start with a MoveTo of count 1, a point and a LineTo of
    a count of 1 or more, throws a geometry exception. *)
Lemma linestring_loop_rejects (fuel : nat) (s : machine T) :
  m_count (dec s) = 0 ->
  Forall Int.is_u32 (m_geom_it (dec s)) ->
  m_geom_it (dec s) <> [] ->
  ~ (exists px py w rest,
        m_geom_it (dec s) = command_integer MOVE_TO 1 :: px :: py :: w :: rest
        /\ get_command_id w = CommandId_value LINE_TO
        /\ 1 <= get_command_count w) ->
  exists msg s1,
    while_move_to (S fuel) (decode_linestring_body Dimensions convert) s
    = (Throw (geometry_exception msg), s1).
Proof.
  intros Hc Hu Hne Hnot. cbn [while_move_to].
  destruct (next_command MOVE_TO s) as [[b|e|] s1] eqn:Hm.
  - destruct b.
    2:{ apply next_command_false in Hm. destruct Hm as (_ & Hm & _).
        congruence. }
    rewrite (bind_step _ _ _ _ _ _ Hm).
    apply next_command_true in Hm.
    destruct Hm as (_ & (w0 & Hg1 & Hid1 & Hn1 & Hmax1) & Hr1 & Hcs1 & Hf1).
    cut (exists msg s2,
            decode_linestring_body Dimensions convert s1
            = (Throw (geometry_exception msg), s2)).
    { intros (msg & s2 & E). exists msg, s2. apply bind_throw. exact E. }
    unfold decode_linestring_body. rewrite bind_count.
    destruct (Z.eqb_spec (m_count (dec s1)) 1) as [E1|E1]; cbn [negb];
      [|eexists; eexists; reflexivity].
    assert (W0 : w0 = command_integer MOVE_TO 1).
    { etransitivity; [exact (command_integer_of_word w0 MOVE_TO Hid1)|].
      f_equal. congruence. }
    destruct (next_point Dimensions s1) as [[pt|e|] s2] eqn:Hp.
    + rewrite (bind_step _ _ _ _ _ _ Hp).
      apply next_point_ok in Hp.
      destruct Hp as (_ & (px & py & Hg2 & _) & _ & _ & Hn2 & _ & _ & Hf2).
      rewrite E1 in Hn2. change (Int.u32 (1 - 1)) with 0 in Hn2.
      destruct (next_command LINE_TO s2) as [[b|e|] s3] eqn:Hl.
      * rewrite (bind_step _ _ _ _ _ _ Hl).
        destruct b; cbn [negb]; [|eexists; eexists; reflexivity].
        apply next_command_true in Hl.
        destruct Hl as (_ & (w2 & Hg3 & Hid3 & Hn3 & Hmax3) & _).
        rewrite bind_count.
        destruct (Z.eqb_spec (m_count (dec s3)) 0) as [E0|E0];
          [eexists; eexists; reflexivity|].
        exfalso. apply Hnot. exists px, py, w2, (m_geom_it (dec s3)).
        split; [rewrite Hg1, Hg2, Hg3, W0; reflexivity|].
        split; [exact Hid3|].
        assert (Hw2 : Int.is_u32 w2).
        { rewrite Hg1, Hg2, Hg3 in Hu.
          inversion Hu as [|? ? _ Hu1]. inversion Hu1 as [|? ? _ Hu2].
          inversion Hu2 as [|? ? _ Hu3]. inversion Hu3 as [|? ? Hw2 _].
          exact Hw2. }
        pose proof (get_command_count_range w2 Hw2). lia.
      * destruct (next_command_throws _ _ _ _ Hl Hn2) as (msg & ->).
        exists msg, s3. apply bind_throw. exact Hl.
      * exfalso. apply (next_command_total T LINE_TO s2). rewrite Hl. reflexivity.
    + destruct (next_point_throws _ _ _ Hp ltac:(lia)) as (msg & ->).
      exists msg, s2. apply bind_throw. exact Hp.
    + exfalso. apply (next_point_total Dimensions T s1). rewrite Hp. reflexivity.
  - destruct (next_command_throws _ _ _ _ Hm Hc) as (msg & ->).
    exists msg, s1. apply bind_throw. exact Hm.
  - exfalso. apply (next_command_total T MOVE_TO s). rewrite Hm. reflexivity.
Qed.

Lemma linestring_points_of_linestring_calls (p : path T) :
  Forall (fun v => Forall (fun c => is_attr_call c = true) (v_calls v))
         (path_vertices p) ->
  linestring_points (linestring_calls convert p)
  = map (fun v => convert (v_point v)) (path_vertices p).
Proof.
  intros H. unfold linestring_points, linestring_calls. cbn [flat_map app].
  rewrite flat_map_app.
  rewrite (vertex_calls_select T convert
             (fun c => match c with linestring_point q => [q] | _ => [] end)
             linestring_point (path_vertices p)).
  - change (flat_map _ [linestring_end]) with (@nil T). rewrite app_nil_r.
    clear H. induction (path_vertices p) as [|v vs IH]; [reflexivity|].
    cbn [flat_map map app]. rewrite IH. reflexivity.
  - intros c Hc. destruct c; try discriminate Hc; reflexivity.
  - exact H.
Qed.

(** C8.  The loop of the linestring driver ends, without error, where the
    geometry stream is exhausted.  Where it is not, the stream must go on
    with a MoveTo of count 1, a point and a LineTo of a count of 1 or
    more, or a geometry exception is thrown.  An accepted geometry is a
    sequence of linestrings, one per pair of MoveTo and LineTo, each
    passed as [linestring_begin(1 + n)], [1 + n] calls of
    [linestring_point] (2 or more) and [linestring_end], [n] the count of
    the LineTo.  The driver returns or throws on every stream. *)
Theorem linestring_driver :
  forall s : machine T,
    m_count (dec s) = 0 ->
    Forall Int.is_u32 (m_geom_it (dec s)) ->
    (m_geom_it (dec s) = [] ->
     forall fuel : nat,
       while_move_to (S fuel) (decode_linestring_body Dimensions convert) s
       = (Ok tt, s))
    /\ (m_geom_it (dec s) <> [] ->
        ~ (exists px py w rest,
              m_geom_it (dec s)
              = command_integer MOVE_TO 1 :: px :: py :: w :: rest
              /\ get_command_id w = CommandId_value LINE_TO
              /\ 1 <= get_command_count w) ->
        forall fuel : nat,
        exists msg s1,
          while_move_to (S fuel) (decode_linestring_body Dimensions convert) s
          = (Throw (geometry_exception msg), s1))
    /\ (forall s' : machine T,
           decode_linestring Dimensions MaxGeometricAttributes convert s
           = (Ok tt, s') ->
           exists ps : list (path T),
             m_geom_it (dec s) = flat_map linestring_words ps
             /\ calls s' = calls s ++ flat_map (linestring_calls convert) ps
             /\ Forall
                  (fun p =>
                     let n := Z.of_nat (length (p_rest p)) in
                     1 <= n
                     /\ (exists cs,
                            linestring_calls convert p
                            = linestring_begin (n + 1) :: cs ++ [linestring_end])
                     /\ linestring_points (linestring_calls convert p)
                        = map (fun v => convert (v_point v)) (path_vertices p)
                     /\ Z.of_nat (length (linestring_points
                                            (linestring_calls convert p)))
                        = 1 + n)
                  ps)
    /\ fst (decode_linestring Dimensions MaxGeometricAttributes convert s)
       <> OutOfFuel.
Proof.
  intros s Hc Hu. split; [|split; [|split]].
  - intros Hg fuel. cbn [while_move_to]. unfold bind, next_command.
    rewrite Hc, Hg. reflexivity.
  - intros Hne Hnot fuel. apply linestring_loop_rejects; assumption.
  - intros s' H.
    destruct (decode_linestring_ok _ _ _ _ s s' H Hu)
      as (attrs & ps & _ & Hg & Hcs & Hd & Hq).
    exists ps. split; [exact Hg|]. split; [exact Hcs|].
    apply decoded_paths in Hd.
    rewrite Forall_forall in Hd, Hq. apply Forall_forall. intros p Hin.
    specialize (Hd p Hin). destruct (Hq p Hin) as [[Hn _] _].
    assert (Hpts : linestring_points (linestring_calls convert p)
                   = map (fun v => convert (v_point v)) (path_vertices p)).
    { apply linestring_points_of_linestring_calls.
      eapply Forall_impl; [|exact Hd]. intros v (Hv & _). exact Hv. }
    cbv zeta. split; [exact Hn|]. split; [|split].
    + eexists. reflexivity.
    + exact Hpts.
    + rewrite Hpts, length_map. unfold path_vertices. cbn [length]. lia.
  - apply decode_linestring_total. exact Hu.
Qed.

Lemma vertex_words_length (vs : list (vertex T)) :
  length (flat_map vertex_words vs) = (2 * length vs)%nat.
Proof.
  induction vs as [|v vs IH]; [reflexivity|].
  cbn [flat_map vertex_words app length]. rewrite IH. lia.
Qed.

(** Every vertex takes two integers of the geometry stream. *)
Lemma linestring_words_length (ps : list (path T)) :
  (2 * length (flat_map path_vertices ps)
   <= length (flat_map linestring_words ps))%nat.
Proof.
  induction ps as [|p ps IH]; [cbn; lia|].
  cbn [flat_map]. rewrite !length_app.
  assert (E : length (linestring_words p) = (4 + 2 * length (p_rest p))%nat).
  { unfold linestring_words. cbn [vertex_words app length].
    rewrite vertex_words_length. lia. }
  rewrite E. unfold path_vertices at 1. cbn [length]. lia.
Qed.

Lemma ring_words_length (ps : list (path T)) :
  (2 * length (flat_map path_vertices ps)
   <= length (flat_map ring_words ps))%nat.
Proof.
  induction ps as [|p ps IH]; [cbn; lia|].
  cbn [flat_map]. rewrite !length_app.
  assert (E : length (ring_words p) = (5 + 2 * length (p_rest p))%nat).
  { unfold ring_words. cbn [vertex_words app length].
    rewrite length_app, vertex_words_length. cbn [length]. lia. }
  rewrite E. unfold path_vertices at 1. cbn [length]. lia.
Qed.

(** C1 (as the code has it).  The maximum bounds the count of each
    command: in an accepted geometry every MoveTo and every LineTo has a
    count within the maximum.  The vertices of a point geometry, which has
    one command, are within the maximum; those of a linestring or polygon
    geometry are within half the length of the geometry stream. *)
Theorem command_counts_within_maximum :
  forall s s' : machine T,
    Forall Int.is_u32 (m_geom_it (dec s)) ->
    (decode_point Dimensions MaxGeometricAttributes convert s = (Ok tt, s') ->
     exists vs : list (vertex T),
       m_geom_it (dec s) = points_words vs
       /\ calls s' = calls s ++ points_calls convert vs
       /\ Z.of_nat (length vs) <= m_max_count (dec s))
    /\ (decode_linestring Dimensions MaxGeometricAttributes convert s
        = (Ok tt, s') ->
        exists ps : list (path T),
          m_geom_it (dec s) = flat_map linestring_words ps
          /\ calls s' = calls s ++ flat_map (linestring_calls convert) ps
          /\ Forall (fun p => 1 <= m_max_count (dec s)
                              /\ Z.of_nat (length (p_rest p))
                                 <= m_max_count (dec s)) ps
          /\ (2 * length (flat_map path_vertices ps)
              <= length (m_geom_it (dec s)))%nat)
    /\ (decode_polygon Dimensions MaxGeometricAttributes convert s
        = (Ok tt, s') ->
        exists ps : list (path T),
          m_geom_it (dec s) = flat_map ring_words ps
          /\ calls s' = calls s ++ flat_map (ring_calls convert) ps
          /\ Forall (fun p => 1 <= m_max_count (dec s)
                              /\ Z.of_nat (length (p_rest p))
                                 <= m_max_count (dec s)) ps
          /\ (2 * length (flat_map path_vertices ps)
              <= length (m_geom_it (dec s)))%nat).
Proof.
  intros s s' Hu. split; [|split]; intros H.
  - destruct (decode_point_ok _ _ _ _ s s' H Hu)
      as (attrs & vs & _ & Hg & Hcs & _ & Hq & _).
    exists vs. split; [exact Hg|]. split; [exact Hcs|lia].
  - destruct (decode_linestring_ok _ _ _ _ s s' H Hu)
      as (attrs & ps & _ & Hg & Hcs & _ & Hq).
    exists ps. split; [exact Hg|]. split; [exact Hcs|]. split.
    + eapply Forall_impl; [|exact Hq]. cbv beta. intros p Hp. lia.
    + rewrite Hg. apply linestring_words_length.
  - destruct (decode_polygon_ok _ _ _ _ s s' H Hu)
      as (attrs & ps & _ & Hg & Hcs & _ & Hq).
    exists ps. split; [exact Hg|]. split; [exact Hcs|]. split.
    + eapply Forall_impl; [|exact Hq]. cbv beta. intros p Hp. lia.
    + rewrite Hg. apply ring_words_length.
Qed.

Lemma last_cons {A : Type} (l : list A) :
  forall a d : A, last (a :: l) d = last l a.
Proof.
  induction l as [|b l IH]; intros a d; [reflexivity|].
  change (last (a :: b :: l) d) with (last (b :: l) d).
  rewrite (IH b d), (IH b a). reflexivity.
Qed.

Lemma cons_last {A : Type} (l : list A) (a : A) :
  exists l', a :: l = l' ++ [last l a].
Proof.
  exists (removelast (a :: l)).
  rewrite <- (last_cons l a a).
  apply app_removelast_last. discriminate.
Qed.

Lemma elev_after_succ (n : nat) (elev : list Z) :
  elev_after Dimensions (S n) elev
  = elev_after Dimensions n (next_elev Dimensions elev).
Proof. unfold elev_after. apply Nat.iter_succ_r. Qed.

Lemma attrs_after_succ (n : nat) (attrs : list Attr.geometric_attribute) :
  attrs_after T (S n) attrs
  = attrs_after T n (fst (attribute_calls T attrs)).
Proof. unfold attrs_after. apply Nat.iter_succ_r. Qed.

(** Every decoded vertex is the vertex before it moved, with the
    elevations and the attributes as the vertices before it left them. *)
Lemma decoded_threaded (vs1 : list (vertex T)) :
  forall (r r' : reader) (v : vertex T) (vs2 : list (vertex T)),
    decoded Dimensions r (vs1 ++ v :: vs2) r' ->
    v_point v
    = move_cursor Dimensions (last (map v_point vs1) (r_cursor r))
                  (v_px v) (v_py v)
                  (elev_after Dimensions (length vs1) (r_elev r))
    /\ v_calls v
       = snd (attribute_calls T (attrs_after T (length vs1) (r_attrs r))).
Proof.
  induction vs1 as [|u vs1 IH]; intros r r' v vs2 H.
  - cbn [app decoded] in H. destruct H as (Hp & Hc & _).
    split; [exact Hp|exact Hc].
  - cbn [app decoded] in H. destruct H as (_ & _ & H).
    apply IH in H. unfold reader_after in H.
    cbn [r_cursor r_elev r_attrs] in H.
    cbn [map length]. rewrite last_cons, elev_after_succ, attrs_after_succ.
    exact H.
Qed.

Lemma decoded_carried_over (ps : list (path T)) (c : unscaled_point)
      (elev : list Z) (attrs : list Attr.geometric_attribute) (r' : reader) :
  decoded Dimensions (mk_reader c elev attrs) (flat_map path_vertices ps) r' ->
  carried_over Dimensions c elev attrs ps.
Proof.
  intros H. split.
  - intros vs1 v vs2 E. rewrite E in H.
    exact (decoded_threaded _ _ _ _ _ H).
  - intros ps1 p q ps2 ->.
    assert (E : flat_map path_vertices (ps1 ++ p :: q :: ps2)
                = flat_map path_vertices (ps1 ++ [p])
                  ++ p_first q :: (p_rest q ++ flat_map path_vertices ps2)).
    { rewrite !flat_map_app. cbn [flat_map]. rewrite app_nil_r.
      unfold path_vertices at 3. rewrite <- !app_assoc. reflexivity. }
    rewrite E in H. apply decoded_threaded in H.
    cbn [r_cursor r_elev r_attrs] in H.
    assert (L : last (map v_point (flat_map path_vertices (ps1 ++ [p]))) c
                = v_point (last (p_rest p) (p_first p))).
    { rewrite flat_map_app. cbn [flat_map]. rewrite app_nil_r.
      unfold path_vertices.
      destruct (cons_last (p_rest p) (p_first p)) as (l & El).
      rewrite El, app_assoc, map_app. cbn [map]. apply last_last. }
    rewrite L in H. exact H.
Qed.

(** C10.  In a call of the linestring or of the polygon driver on a
    decoder as constructed, the attributes are constructed once, before
    the loop, and the accepted geometry is the sequence of the linestrings
    or rings of its stream.  Every vertex, the first of a later linestring
    or ring as well, is the vertex decoded before it (the cursor (0, 0, 0)
    for the first vertex of the call) moved by its zigzag decoded
    parameter integers, in the plane, and by the elevation the vertices
    before it have left at the front of the elevation stream; its
    attribute calls are those of the attributes constructed before the
    loop after one call of [get_next_value()] per vertex before it, so
    that counts and values go on across linestrings and rings. *)
Theorem cursor_carried_over_sub_geometries :
  forall (geom elev : list Z) (attr : attr_iterator) (max : Z)
         (d : extended_geometry_decoder) (s' : machine T),
    construct geom elev attr max = Ok d ->
    Forall Int.is_u32 geom ->
    (decode_linestring Dimensions MaxGeometricAttributes convert (start d)
     = (Ok tt, s') ->
     exists (attrs : list Attr.geometric_attribute) (ps : list (path T)),
       new_geom_attributes MaxGeometricAttributes (@start T d)
       = (Ok tt, mk_machine d attrs [])
       /\ match attr with
          | dummy_attr_iterator => attrs = []
          | attr_range it =>
              Attr.collection MaxGeometricAttributes it = Ok attrs
          end
       /\ geom = flat_map linestring_words ps
       /\ calls s' = flat_map (linestring_calls convert) ps
       /\ carried_over Dimensions (mk_unscaled_point 0 0 0) elev attrs ps)
    /\ (decode_polygon Dimensions MaxGeometricAttributes convert (start d)
        = (Ok tt, s') ->
        exists (attrs : list Attr.geometric_attribute) (ps : list (path T)),
          new_geom_attributes MaxGeometricAttributes (@start T d)
          = (Ok tt, mk_machine d attrs [])
          /\ match attr with
             | dummy_attr_iterator => attrs = []
             | attr_range it =>
                 Attr.collection MaxGeometricAttributes it = Ok attrs
             end
          /\ geom = flat_map ring_words ps
          /\ calls s' = flat_map (ring_calls convert) ps
          /\ carried_over Dimensions (mk_unscaled_point 0 0 0) elev attrs ps)
    /\ (forall (c : unscaled_point) (px py : Z) (e : list Z),
           x (move_cursor Dimensions c px py e)
           = Int.i32 (x c + decode_zigzag32 px)
           /\ y (move_cursor Dimensions c px py e)
              = Int.i32 (y c + decode_zigzag32 py)
           /\ z (move_cursor Dimensions c px py e)
              = match e with
                | e0 :: _ => if Dimensions =? 3 then Int.i64 (z c + e0)
                             else z c
                | [] => z c
                end).
Proof.
  intros geom elev attr max d s' Hd Hu.
  unfold construct in Hd.
  destruct (max <=? max_command_count); [|discriminate Hd].
  injection Hd as <-. unfold initial.
  split; [|split].
  - intros H.
    match type of H with
    | decode_linestring _ _ _ ?s0 = _ =>
        destruct (decode_linestring_ok _ _ _ _ s0 s' H Hu)
          as (attrs & ps & Hn & Hg & Hcs & Hdec & _)
    end.
    exists attrs, ps. cbn [start dec calls m_geom_it m_cursor m_elev_it app] in *.
    split; [exact Hn|].
    split; [exact (proj2 (new_geom_attributes_ok _ _ _ _ Hn))|].
    split; [exact Hg|]. split; [exact Hcs|].
    exact (decoded_carried_over _ _ _ _ _ Hdec).
  - intros H.
    match type of H with
    | decode_polygon _ _ _ ?s0 = _ =>
        destruct (decode_polygon_ok _ _ _ _ s0 s' H Hu)
          as (attrs & ps & Hn & Hg & Hcs & Hdec & _)
    end.
    exists attrs, ps. cbn [start dec calls m_geom_it m_cursor m_elev_it app] in *.
    split; [exact Hn|].
    split; [exact (proj2 (new_geom_attributes_ok _ _ _ _ Hn))|].
    split; [exact Hg|]. split; [exact Hcs|].
    exact (decoded_carried_over _ _ _ _ _ Hdec).
  - intros c px py e. split; [reflexivity|]. split; reflexivity.
Qed.

End Claims.

(** ** The slots of the collection *)

Lemma collect_length (fuel : nat) :
  forall (Max : nat) (it : list Z) (filled attrs : list Attr.geometric_attribute),
    Attr.collect fuel Max it filled = Ok attrs ->
    (length filled <= Max)%nat ->
    (length attrs <= Max)%nat.
Proof.
  induction fuel as [|fuel IH]; intros Max it filled attrs H Hl;
    [discriminate H|].
  cbn [Attr.collect] in H.
  destruct it as [|cv it]; [injection H as <-; exact Hl|].
  destruct (Nat.ltb_spec (length filled) Max) as [L|L]; cbn [negb] in H;
    [|injection H as <-; exact Hl].
  destruct (negb (Z.land cv 15 =? 10)); [discriminate H|].
  destruct it as [|c it]; [discriminate H|].
  destruct it as [|sc it]; [discriminate H|].
  destruct it as [|v it]; [discriminate H|].
  destruct (Attr.skip_values _ c (v :: it)) as [it'|e|]; try discriminate H.
  apply IH in H; [exact H|]. rewrite length_app. cbn [length]. lia.
Qed.

(** The collection has [MaxGeometricAttributes] attributes, however many
    the stream declares. *)
Lemma collection_length (Max : nat) (it : list Z)
      (attrs : list Attr.geometric_attribute) :
  Attr.collection Max it = Ok attrs -> length attrs = Max.
Proof.
  unfold Attr.collection.
  destruct (Attr.collect (S (length it)) Max it []) as [filled|e|] eqn:E;
    try discriminate.
  intros H. injection H as <-.
  apply collect_length in E; [|cbn; lia].
  rewrite length_app, repeat_length. lia.
Qed.

Lemma points_points_of_points_calls (T : Type) (convert : unscaled_point -> T)
      (vs : list (vertex T)) :
  Forall (fun v => Forall (fun c => is_attr_call c = true) (v_calls v)) vs ->
  points_points (points_calls convert vs)
  = map (fun v => convert (v_point v)) vs.
Proof.
  intros H. unfold points_points, points_calls. cbn [flat_map app].
  rewrite flat_map_app.
  rewrite (vertex_calls_select T convert
             (fun c => match c with points_point q => [q] | _ => [] end)
             points_point vs).
  - change (flat_map _ [points_end]) with (@nil T). rewrite app_nil_r.
    clear H. induction vs as [|v vs IH]; [reflexivity|].
    cbn [flat_map map app]. rewrite IH. reflexivity.
  - intros c Hc. destruct c; try discriminate Hc; reflexivity.
  - exact H.
Qed.

(** An accepted point geometry: [points_begin] with the count of the
    MoveTo, that many calls of [points_point], each followed by attribute
    calls only, and [points_end].  With an attribute stream, each point is
    followed by [MaxGeometricAttributes] attribute calls; with the
    [dummy_attr_iterator], by none. *)
Lemma point_attribute_calls (Dimensions : Z) (Max : nat) (T : Type)
      (convert : unscaled_point -> T) (s s' : machine T) :
  decode_point Dimensions Max convert s = (Ok tt, s') ->
  Forall Int.is_u32 (m_geom_it (dec s)) ->
  exists vs : list (vertex T),
    m_geom_it (dec s) = points_words vs
    /\ calls s' = calls s ++ points_calls convert vs
    /\ points_points (points_calls convert vs)
       = map (fun v => convert (v_point v)) vs
    /\ Forall (fun v =>
                 Forall (fun c => is_attr_call c = true) (v_calls v)
                 /\ length (v_calls v)
                    = match m_attr_it (dec s) with
                      | dummy_attr_iterator => O
                      | attr_range _ => Max
                      end)
              vs.
Proof.
  intros H Hu.
  destruct (decode_point_ok _ _ _ _ s s' H Hu)
    as (attrs & vs & Hn & Hg & Hcs & Hd & _).
  exists vs. split; [exact Hg|]. split; [exact Hcs|].
  apply new_geom_attributes_ok in Hn. destruct Hn as [_ Hn].
  cbn [geom_attributes] in Hn.
  apply decoded_vertices in Hd. destruct Hd as [Hd _]. cbn [r_attrs] in Hd.
  split.
  - apply points_points_of_points_calls.
    eapply Forall_impl; [|exact Hd]. cbv beta. intros v (Hc & _). exact Hc.
  - eapply Forall_impl; [|exact Hd]. cbv beta.
    intros v (Hc & Hl & _). split; [exact Hc|].
    rewrite Hl. destruct (m_attr_it (dec s)) as [|it].
    + rewrite Hn. reflexivity.
    + exact (collection_length _ _ _ Hn).
Qed.

(* ================================================================== *)
(** * Examples *)

(** The point MoveTo(1) 5 5, without elevations and attributes: one call
    of [points_point], with the point (5, 5). *)
Example one_point_calls :
  decode_point 2 0 keep (start (initial one_point [] dummy_attr_iterator 1))
  = (Ok tt,
     mk_machine
       (mk_decoder [] [] dummy_attr_iterator (mk_unscaled_point 5 5 0) 1 0)
       []
       [points_begin 1; points_point (mk_unscaled_point 5 5 0); points_end]).
Proof. vm_compute. reflexivity. Qed.

(** The parameter integers of (3, 4) give the point (3, 4) from the cursor
    (0, 0), and those of (-1, 2) after them the point (2, 6). *)
Example cursor_accumulates :
  move_cursor 2 (mk_unscaled_point 0 0 0) 6 8 [] = mk_unscaled_point 3 4 0
  /\ move_cursor 2 (mk_unscaled_point 3 4 0) 1 4 [] = mk_unscaled_point 2 6 0.
Proof. split; vm_compute; reflexivity. Qed.

(** The point driver rejects a MoveTo of count 0. *)
Example point_driver_rejects_count_0 :
  fst (decode_point 2 0 keep (start (initial move_to_0 [] dummy_attr_iterator 1)))
  = Throw (geometry_exception "MoveTo command count is zero (spec 4.3.4.2)").
Proof. vm_compute. reflexivity. Qed.

(** The polygon driver rejects a ClosePath of count 2 at the end of a
    ring. *)
Example polygon_driver_rejects_close_path_2 :
  fst (decode_polygon 2 0 keep
         (start (initial triangle_close_path_2 [] dummy_attr_iterator 4)))
  = Throw (geometry_exception "ClosePath command count is not 1").
Proof. vm_compute. reflexivity. Qed.

(** Two pairs of MoveTo and LineTo give two linestrings; the second
    starts from the last point of the first. *)
Example two_linestrings_calls :
  calls (snd (decode_linestring 2 0 keep linestrings_start))
  = [linestring_begin 2;
     linestring_point (mk_unscaled_point 1 1 0);
     linestring_point (mk_unscaled_point 2 2 0);
     linestring_end;
     linestring_begin 3;
     linestring_point (mk_unscaled_point 3 3 0);
     linestring_point (mk_unscaled_point 2 2 0);
     linestring_point (mk_unscaled_point 1 1 0);
     linestring_end].
Proof. vm_compute. reflexivity. Qed.

(** C6.  The point driver with room for two attributes, on a point and an
    attribute stream that declares one attribute: the point is followed
    by two attribute calls, the value of the attribute and a null call
    with the default key index of the slot no attribute was assigned to.
    (With the [dummy_attr_iterator] the point is followed by no call.) *)
Theorem point_driver_calls_for_unassigned_slot :
  decode_point 2 2 keep
    (start (initial one_point [] (attr_range one_attribute) 1))
  = (Ok tt,
     mk_machine
       (mk_decoder [] [] (attr_range one_attribute)
                   (mk_unscaled_point 5 5 0) 1 0)
       [Attr.mk [] (Some 0) (Some 0) 0 2; Attr.default]
       [points_begin 1;
        points_point (mk_unscaled_point 5 5 0);
        call_points_attr (Some 0) (Some 0) 2;
        call_points_null_attr None;
        points_end])
  /\ Attr.collection 2 one_attribute
     = Ok [Attr.mk [5] (Some 0) (Some 0) 1 0; Attr.default]
  /\ calls (snd (decode_point 2 2 keep
                   (start (initial one_point [] dummy_attr_iterator 1))))
     = [points_begin 1; points_point (mk_unscaled_point 5 5 0); points_end].
Proof. repeat split; vm_compute; reflexivity. Qed.

(** C1 as stated fails: with the maximum 1, a linestring of two vertices
    is accepted. *)
Lemma linestring_vertices_exceed_maximum :
  exists (d : extended_geometry_decoder) (s' : machine unscaled_point),
    construct one_linestring [] dummy_attr_iterator 1 = Ok d
    /\ decode_linestring 2 0 keep (start d) = (Ok tt, s')
    /\ m_max_count d < Z.of_nat (length (linestring_points (calls s'))).
Proof.
  exists (initial one_linestring [] dummy_attr_iterator 1).
  exists (snd (decode_linestring 2 0 keep
                 (start (initial one_linestring [] dummy_attr_iterator 1)))).
  repeat split; vm_compute; reflexivity.
Qed.

(** C2.  The large square is accepted.  Its points are those of the
    square, counter clockwise, of twice the signed area 8 M M, M the
    largest 32 bit integer; every cross product is exact in 64 bits, but
    the third [sum += det(..)] leaves the 64 bit integers, and so does
    every one after it.  With the integers wrapping around, the sum is
    negative at the end and [ring_end] is called with inner. *)
Theorem large_square_sum_overflows :
  exists s' : machine unscaled_point,
    construct large_square [] dummy_attr_iterator 9
    = Ok (initial large_square [] dummy_attr_iterator 9)
    /\ decode_polygon 2 0 keep
         (start (initial large_square [] dummy_attr_iterator 9))
       = (Ok tt, s')
    /\ calls s'
       = ring_begin 9
         :: map ring_point (large_square_start :: large_square_rest)
         ++ [ring_point large_square_start; ring_end inner]
    /\ Forall (fun p => Int.is_i32 (x p) /\ Int.is_i32 (y p))
              (large_square_start :: large_square_rest)
    /\ (forall a b : unscaled_point,
           In a (large_square_start :: large_square_rest) ->
           In b (large_square_start :: large_square_rest) ->
           det a b = cross a b)
    /\ ring_partial_sums large_square_start large_square_rest
       = [4611686014132420609; 9223372028264841218; 13835058042397261827;
          18446744056529682436; 23058430070662103045; 27670116084794523654;
          32281802098926944263; 36893488113059364872]
    /\ Int.is_i64 9223372028264841218
    /\ 2 ^ 63 - 1 < 13835058042397261827
    /\ twice_signed_area large_square_start large_square_rest
       = 36893488113059364872
    /\ ring_type_of_sum
         (twice_signed_area large_square_start large_square_rest)
       = outer
    /\ ring_sum large_square_start large_square_rest = - 34359738360
    /\ ring_type_of_sum (ring_sum large_square_start large_square_rest)
       = inner.
Proof.
  exists (snd (decode_polygon 2 0 keep
                 (start (initial large_square [] dummy_attr_iterator 9)))).
  assert (Hi : Forall (fun p => Int.is_i32 (x p) /\ Int.is_i32 (y p))
                      (large_square_start :: large_square_rest)).
  { repeat constructor; cbn; lia. }
  split; [vm_compute; reflexivity|]. split; [vm_compute; reflexivity|].
  split; [vm_compute; reflexivity|]. split; [exact Hi|].
  split.
  { intros a b Ha Hb. rewrite Forall_forall in Hi.
    destruct (Hi a Ha) as [Hxa Hya]. destruct (Hi b Hb) as [Hxb Hyb].
    exact (proj1 (det_exact a b Hxa Hya Hxb Hyb)). }
  split; [vm_compute; reflexivity|].
  split; [unfold Int.is_i64; lia|]. split; [lia|].
  split; [vm_compute; reflexivity|]. split; [vm_compute; reflexivity|].
  split; vm_compute; reflexivity.
Qed.

(** ** The theorems at the inputs of the examples *)

(** The integers of a stream of the examples are 32 bit unsigned. *)
Ltac u32_stream := cbn; repeat constructor; unfold Int.is_u32; lia.

Lemma two_linestrings_u32 : Forall Int.is_u32 two_linestrings.
Proof. u32_stream. Qed.

Lemma two_triangles_u32 : Forall Int.is_u32 two_triangles.
Proof. u32_stream. Qed.

Lemma command_counts_within_maximum_witness :
  Forall Int.is_u32 (m_geom_it (dec linestrings_start))
  /\ decode_linestring 2 0 keep linestrings_start
     = (Ok tt, snd (decode_linestring 2 0 keep linestrings_start))
  /\ exists ps : list (path unscaled_point),
      m_geom_it (dec linestrings_start) = flat_map linestring_words ps
      /\ calls (snd (decode_linestring 2 0 keep linestrings_start))
         = calls linestrings_start ++ flat_map (linestring_calls keep) ps
      /\ Forall (fun p => 1 <= m_max_count (dec linestrings_start)
                          /\ Z.of_nat (length (p_rest p))
                             <= m_max_count (dec linestrings_start)) ps
      /\ (2 * length (flat_map path_vertices ps)
          <= length (m_geom_it (dec linestrings_start)))%nat.
Proof.
  assert (Hu : Forall Int.is_u32 (m_geom_it (dec linestrings_start)))
    by exact two_linestrings_u32.
  assert (H : decode_linestring 2 0 keep linestrings_start
              = (Ok tt, snd (decode_linestring 2 0 keep linestrings_start)))
    by (vm_compute; reflexivity).
  split; [exact Hu|]. split; [exact H|].
  exact (proj1 (proj2 (command_counts_within_maximum 2 0 unscaled_point keep
                         linestrings_start _ Hu)) H).
Defined.

Lemma ring_sum_exact_without_overflow_witness :
  decode_polygon 2 0 keep triangles_start
  = (Ok tt, snd (decode_polygon 2 0 keep triangles_start))
  /\ Forall Int.is_u32 (m_geom_it (dec triangles_start))
  /\ exists ps : list (path unscaled_point),
      m_geom_it (dec triangles_start) = flat_map ring_words ps
      /\ calls (snd (decode_polygon 2 0 keep triangles_start))
         = calls triangles_start ++ flat_map (ring_calls keep) ps
      /\ Forall
           (fun p =>
              last (ring_calls keep p) points_end
              = ring_end (ring_type_of_sum
                            (ring_sum (v_point (p_first p))
                                      (map v_point (p_rest p))))
              /\ (forall a b : unscaled_point,
                     In a (map v_point (path_vertices p)) ->
                     In b (map v_point (path_vertices p)) ->
                     det a b = cross a b /\ Int.is_i64 (cross a b))
              /\ (Forall Int.is_i64
                         (ring_partial_sums (v_point (p_first p))
                                            (map v_point (p_rest p))) ->
                  ring_sum (v_point (p_first p)) (map v_point (p_rest p))
                  = twice_signed_area (v_point (p_first p))
                                      (map v_point (p_rest p))))
           ps.
Proof.
  assert (H : decode_polygon 2 0 keep triangles_start
              = (Ok tt, snd (decode_polygon 2 0 keep triangles_start)))
    by (vm_compute; reflexivity).
  assert (Hu : Forall Int.is_u32 (m_geom_it (dec triangles_start)))
    by exact two_triangles_u32.
  split; [exact H|]. split; [exact Hu|].
  exact (ring_sum_exact_without_overflow 2 0 unscaled_point keep
           triangles_start _ H Hu).
Defined.


Lemma point_driver_additional_data_witness :
  Forall Int.is_u32 (m_geom_it (dec point_and_more_start))
  /\ decode_point_points 2 0 keep point_and_more_start
     = (Ok tt, snd (decode_point_points 2 0 keep point_and_more_start))
  /\ done_of (dec (snd (decode_point_points 2 0 keep point_and_more_start)))
     = false
  /\ decode_point 2 0 keep point_and_more_start
     = (Throw (geometry_exception
                 "additional data after end of geometry (spec 4.3.4.2)"),
        snd (decode_point_points 2 0 keep point_and_more_start)).
Proof.
  assert (Hu : Forall Int.is_u32 (m_geom_it (dec point_and_more_start)))
    by u32_stream.
  assert (H : decode_point_points 2 0 keep point_and_more_start
              = (Ok tt, snd (decode_point_points 2 0 keep point_and_more_start)))
    by (vm_compute; reflexivity).
  assert (Hd : done_of (dec (snd (decode_point_points 2 0 keep
                                    point_and_more_start))) = false)
    by (vm_compute; reflexivity).
  split; [exact Hu|]. split; [exact H|]. split; [exact Hd|].
  exact (proj1 (proj2 (proj2 (proj2
           (point_driver_additional_data 2 0 unscaled_point keep
              point_and_more_start _ Hu H)))) Hd).
Defined.

Lemma linestring_driver_witness :
  m_count (dec linestrings_start) = 0
  /\ Forall Int.is_u32 (m_geom_it (dec linestrings_start))
  /\ decode_linestring 2 0 keep linestrings_start
     = (Ok tt, snd (decode_linestring 2 0 keep linestrings_start))
  /\ exists ps : list (path unscaled_point),
      m_geom_it (dec linestrings_start) = flat_map linestring_words ps
      /\ calls (snd (decode_linestring 2 0 keep linestrings_start))
         = calls linestrings_start ++ flat_map (linestring_calls keep) ps
      /\ Forall
           (fun p =>
              let n := Z.of_nat (length (p_rest p)) in
              1 <= n
              /\ (exists cs,
                     linestring_calls keep p
                     = linestring_begin (n + 1) :: cs ++ [linestring_end])
              /\ linestring_points (linestring_calls keep p)
                 = map (fun v => keep (v_point v)) (path_vertices p)
              /\ Z.of_nat (length (linestring_points (linestring_calls keep p)))
                 = 1 + n)
           ps.
Proof.
  assert (Hc : m_count (dec linestrings_start) = 0) by reflexivity.
  assert (Hu : Forall Int.is_u32 (m_geom_it (dec linestrings_start)))
    by exact two_linestrings_u32.
  assert (H : decode_linestring 2 0 keep linestrings_start
              = (Ok tt, snd (decode_linestring 2 0 keep linestrings_start)))
    by (vm_compute; reflexivity).
  split; [exact Hc|]. split; [exact Hu|]. split; [exact H|].
  exact (proj1 (proj2 (proj2 (linestring_driver 2 0 unscaled_point keep
                                linestrings_start Hc Hu))) _ H).
Defined.

Lemma close_path_count_must_be_1_witness :
  m_count (dec close_path_2_start) = 0
  /\ m_geom_it (dec close_path_2_start) = [close_path_2]
  /\ get_command_id close_path_2 = CommandId_value CLOSE_PATH
  /\ get_command_count close_path_2 <> 1
  /\ next_command CLOSE_PATH close_path_2_start
     = (Throw (geometry_exception "ClosePath command count is not 1"),
        close_path_2_start).
Proof.
  assert (Hc : m_count (dec close_path_2_start) = 0) by reflexivity.
  assert (Hg : m_geom_it (dec close_path_2_start) = [close_path_2])
    by reflexivity.
  assert (Hi : get_command_id close_path_2 = CommandId_value CLOSE_PATH)
    by reflexivity.
  assert (Hn : get_command_count close_path_2 <> 1) by (cbn; lia).
  split; [exact Hc|]. split; [exact Hg|]. split; [exact Hi|].
  split; [exact Hn|].
  exact (proj1 (proj2 (close_path_count_must_be_1 2 0 unscaled_point keep
                         CLOSE_PATH close_path_2_start close_path_2 []
                         Hc Hg Hi Hn))).
Defined.

Lemma cursor_carried_over_sub_geometries_witness :
  construct two_linestrings [10; 20; 30; 40; 50] (attr_range five_values) 7
  = Ok (initial two_linestrings [10; 20; 30; 40; 50]
                (attr_range five_values) 7)
  /\ Forall Int.is_u32 two_linestrings
  /\ decode_linestring 3 1 keep elevated_linestrings_start
     = (Ok tt, snd (decode_linestring 3 1 keep elevated_linestrings_start))
  /\ exists (attrs : list Attr.geometric_attribute)
            (ps : list (path unscaled_point)),
      new_geom_attributes 1 elevated_linestrings_start
      = (Ok tt,
         mk_machine (initial two_linestrings [10; 20; 30; 40; 50]
                             (attr_range five_values) 7) attrs [])
      /\ Attr.collection 1 five_values = Ok attrs
      /\ two_linestrings = flat_map linestring_words ps
      /\ calls (snd (decode_linestring 3 1 keep elevated_linestrings_start))
         = flat_map (linestring_calls keep) ps
      /\ carried_over 3 (mk_unscaled_point 0 0 0) [10; 20; 30; 40; 50]
                      attrs ps.
Proof.
  assert (Hd : construct two_linestrings [10; 20; 30; 40; 50]
                         (attr_range five_values) 7
               = Ok (initial two_linestrings [10; 20; 30; 40; 50]
                             (attr_range five_values) 7))
    by (vm_compute; reflexivity).
  assert (H : decode_linestring 3 1 keep elevated_linestrings_start
              = (Ok tt,
                 snd (decode_linestring 3 1 keep elevated_linestrings_start)))
    by (vm_compute; reflexivity).
  split; [exact Hd|]. split; [exact two_linestrings_u32|]. split; [exact H|].
  exact (proj1 (cursor_carried_over_sub_geometries 3 1 unscaled_point keep
                  two_linestrings [10; 20; 30; 40; 50]
                  (attr_range five_values) 7 _ _
                  Hd two_linestrings_u32) H).
Defined.

(** The two linestrings in three dimensions with the attribute of five
    values: the elevations and the values of the attribute go on from the
    first linestring to the second. *)
Example elevated_linestrings_calls :
  calls (snd (decode_linestring 3 1 keep elevated_linestrings_start))
  = [linestring_begin 2;
     linestring_point (mk_unscaled_point 1 1 10);
     call_points_attr (Some 0) (Some 0) 1;
     linestring_point (mk_unscaled_point 2 2 30);
     call_points_attr (Some 0) (Some 0) 3;
     linestring_end;
     linestring_begin 3;
     linestring_point (mk_unscaled_point 3 3 60);
     call_points_attr (Some 0) (Some 0) 6;
     linestring_point (mk_unscaled_point 2 2 100);
     call_points_attr (Some 0) (Some 0) 10;
     linestring_point (mk_unscaled_point 1 1 150);
     call_points_attr (Some 0) (Some 0) 15;
     linestring_end].
Proof. vm_compute. reflexivity. Qed.

(* ================================================================== *)
(** * Further properties *)

(** ** Runs of an attribute *)

Lemma default_values_present : Attr.values_present Attr.default.
Proof. unfold Attr.values_present, Attr.default. cbn. lia. Qed.

Lemma attribute_calls_values_present (T : Type)
      (attrs : list Attr.geometric_attribute) :
  Forall Attr.values_present attrs ->
  Forall Attr.values_present (fst (attribute_calls T attrs)).
Proof.
  intros H. rewrite attribute_calls_map. cbn [fst]. apply Forall_map.
  eapply Forall_impl; [|exact H]. cbv beta. intros a Ha.
  unfold attribute_call.
  pose proof (proj1 (get_next_value_values_present a Ha)) as Hn.
  destruct (Attr.get_next_value a) as [[|] a']; exact Hn.
Qed.

(** X1.  The attributes of a collection read inside the attribute
    stream: after the constructor, and after any number of rounds of the
    loop over the attributes, every attribute has as many values left in
    its range as its count says, so that [*m_it++] of [get_next_value()]
    is never evaluated on an exhausted range. *)
Theorem attribute_reads_stay_in_range :
  forall (T : Type) (Max : nat) (it : list Z)
         (attrs : list Attr.geometric_attribute) (rounds : nat),
    Forall Int.is_u64 it ->
    Attr.collection Max it = Ok attrs ->
    Forall (fun a => Attr.values_present a
                     /\ (Attr.m_count a <> 0 -> Attr.m_it a <> []))
           (Nat.iter rounds (fun l => fst (attribute_calls T l)) attrs).
Proof.
  intros T Max it attrs rounds Hu H.
  assert (H0 : Forall Attr.values_present attrs).
  { unfold Attr.collection in H.
    destruct (Attr.collect (S (length it)) Max it []) as [filled|e|] eqn:E;
      try discriminate H.
    injection H as <-. apply Forall_app. split.
    - exact (collect_values_present _ _ _ _ _ Hu E (Forall_nil _)).
    - clear. induction (Max - length filled)%nat as [|n IH]; cbn [repeat];
        constructor; [exact default_values_present|exact IH]. }
  assert (Hn : Forall Attr.values_present
                 (Nat.iter rounds (fun l => fst (attribute_calls T l)) attrs)).
  { induction rounds as [|n IH]; [exact H0|].
    rewrite Nat.iter_succ. apply attribute_calls_values_present. exact IH. }
  eapply Forall_impl; [|exact Hn]. cbv beta. intros a Ha.
  split; [exact Ha|]. exact (proj2 (get_next_value_values_present a Ha)).
Qed.

Lemma read_values_exhausted (n : nat) :
  forall a : Attr.geometric_attribute,
    Attr.m_count a = 0 -> read_values n a = a.
Proof.
  induction n as [|n IH]; intros a H0; [reflexivity|].
  cbn [read_values]. unfold Attr.get_next_value at 1. rewrite H0.
  cbn [Z.eqb snd]. apply IH. exact H0.
Qed.

(** X2.  The value of an attribute is the sum, in 64 bits, of the deltas
    of the raw values read so far, a raw 0 counting for nothing: after [n]
    calls of [get_next_value()], [n] within the count, the range has
    advanced by [n], the count has gone down by [n], the indexes are the
    same and the value has grown by the deltas of the first [n] raw
    values.  Calls beyond the count change nothing. *)
Theorem attribute_value_after_reads :
  forall (n : nat) (a : Attr.geometric_attribute),
    Attr.values_present a ->
    Int.is_i64 (Attr.m_value a) ->
    (Z.of_nat n <= Attr.m_count a ->
     Attr.m_it (read_values n a) = skipn n (Attr.m_it a)
     /\ Attr.m_count (read_values n a) = Attr.m_count a - Z.of_nat n
     /\ Attr.key_index (read_values n a) = Attr.key_index a
     /\ Attr.scaling_index (read_values n a) = Attr.scaling_index a
     /\ Attr.value (read_values n a)
        = Int.i64 (Attr.m_value a
                   + sum_Z (map attribute_delta (firstn n (Attr.m_it a)))))
    /\ (Attr.m_count a <= Z.of_nat n ->
        read_values n a = read_values (Z.to_nat (Attr.m_count a)) a).
Proof.
  induction n as [|n IH]; intros a Hp Hv.
  - split.
    + intros _. cbn [read_values skipn firstn map sum_Z fold_right].
      rewrite Z.add_0_r, i64_small by exact Hv.
      repeat split; lia.
    + intros Hc. destruct Hp as [Hp _].
      replace (Attr.m_count a) with 0 by lia. reflexivity.
  - pose proof (get_next_value_values_present a Hp) as [Hp' Hne].
    destruct (Z.eq_dec (Attr.m_count a) 0) as [E0|E0].
    + split; [intros Hc; lia|]. intros _. rewrite E0.
      cbn [Z.to_nat read_values].
      replace (snd (Attr.get_next_value a)) with a
        by (unfold Attr.get_next_value; rewrite E0; reflexivity).
      apply read_values_exhausted. exact E0.
    + specialize (Hne E0).
      destruct (Attr.m_it a) as [|raw it] eqn:Eit; [contradiction|].
      assert (Hstep :
                Attr.m_it (snd (Attr.get_next_value a)) = it
                /\ Attr.m_count (snd (Attr.get_next_value a))
                   = Attr.m_count a - 1
                /\ Attr.m_key_index (snd (Attr.get_next_value a))
                   = Attr.m_key_index a
                /\ Attr.m_scaling_index (snd (Attr.get_next_value a))
                   = Attr.m_scaling_index a
                /\ Attr.m_value (snd (Attr.get_next_value a))
                   = Int.i64 (Attr.m_value a + attribute_delta raw)).
      { unfold Attr.get_next_value, attribute_delta. rewrite Eit.
        replace (Attr.m_count a =? 0) with false
          by (symmetry; apply Z.eqb_neq; exact E0).
        cbn [Attr.deref hd Attr.next tl].
        destruct Hp as [Hc Hu]. rewrite Eit in Hc. cbn [length] in Hc.
        rewrite (u64_small (Attr.m_count a - 1))
          by (unfold Int.is_u64; lia).
        destruct (raw =? 0); cbn [snd Attr.m_it Attr.m_count Attr.m_key_index
                                  Attr.m_scaling_index Attr.m_value].
        - rewrite Z.add_0_r, i64_small by exact Hv. auto.
        - auto. }
      destruct Hstep as (Sit & Sc & Sk & Ss & Sv).
      assert (Hv' : Int.is_i64 (Attr.m_value (snd (Attr.get_next_value a))))
        by (rewrite Sv; apply i64_range).
      destruct (IH (snd (Attr.get_next_value a)) Hp' Hv') as [IH1 IH2].
      split.
      * intros Hc. cbn [read_values skipn firstn map sum_Z fold_right].
        destruct (IH1 ltac:(lia)) as (I1 & I2 & I3 & I4 & I5).
        unfold Attr.key_index, Attr.scaling_index, Attr.value in *.
        rewrite I1, I2, I3, I4, I5, Sit, Sc, Sk, Ss, Sv.
        split; [reflexivity|]. split; [lia|].
        split; [reflexivity|]. split; [reflexivity|].
        rewrite i64_add_l. f_equal. unfold sum_Z. lia.
      * intros Hc. cbn [read_values]. rewrite (IH2 ltac:(lia)), Sc.
        replace (Z.to_nat (Attr.m_count a))
          with (S (Z.to_nat (Attr.m_count a - 1))) by (destruct Hp; lia).
        reflexivity.
Qed.

(** ** Vertices as sums of deltas *)

Lemma i32_add_l (a b : Z) : Int.i32 (Int.i32 a + b) = Int.i32 (a + b).
Proof.
  unfold Int.i32. f_equal.
  replace ((a + 2 ^ 31) mod 2 ^ 32 - 2 ^ 31 + b + 2 ^ 31)
    with ((a + 2 ^ 31) mod 2 ^ 32 + b) by lia.
  rewrite Zplus_mod_idemp_l. f_equal. lia.
Qed.

Lemma i32_small (v : Z) : Int.is_i32 v -> Int.i32 v = v.
Proof.
  unfold Int.is_i32, Int.i32. intros H.
  rewrite Z.mod_small by lia. lia.
Qed.

Section Sums.

Variable Dimensions : Z.
Variable T : Type.

Lemma decoded_sums_of_deltas (vs : list (vertex T)) :
  forall r r' : reader,
    decoded Dimensions r vs r' ->
    Int.is_i64 (z (r_cursor r)) ->
    sums_of_deltas Dimensions (r_cursor r) (r_elev r) vs.
Proof.
  unfold sums_of_deltas.
  intros r r' Hd Hz vs1. revert vs r r' Hd Hz.
  induction vs1 as [|u vs1 IH]; intros vs r r' Hd Hz v vs2 ->.
  - cbn [app decoded] in Hd. destruct Hd as (Hp & _).
    rewrite Hp. unfold move_cursor.
    cbn [x y z map sum_Z fold_right app length firstn].
    rewrite !Z.add_0_r. split; [reflexivity|]. split; [reflexivity|].
    destruct (r_elev r) as [|e elev]; cbn [firstn fold_right].
    + destruct (Dimensions =? 3); [|reflexivity].
      rewrite Z.add_0_r, i64_small by exact Hz. reflexivity.
    + destruct (Dimensions =? 3); [|reflexivity].
      rewrite Z.add_0_r. reflexivity.
  - cbn [app decoded] in Hd. destruct Hd as (Hp & _ & Hd).
    assert (Hz' : Int.is_i64 (z (r_cursor (reader_after Dimensions r u)))).
    { unfold reader_after. cbn [r_cursor]. rewrite Hp. unfold move_cursor.
      cbn [z]. destruct (r_elev r) as [|e elev]; [exact Hz|].
      destruct (Dimensions =? 3); [apply i64_range|exact Hz]. }
    destruct (IH _ _ _ Hd Hz' v vs2 eq_refl) as (Ix & Iy & Iz).
    unfold reader_after in Ix, Iy, Iz. cbn [r_cursor r_elev] in Ix, Iy, Iz.
    rewrite Hp in Ix, Iy, Iz. unfold move_cursor in Ix, Iy, Iz.
    cbn [x y z] in Ix, Iy, Iz.
    cbn [app map sum_Z fold_right length]. fold sum_Z.
    split; [|split].
    + rewrite Ix, i32_add_l. f_equal. unfold sum_Z. lia.
    + rewrite Iy, i32_add_l. f_equal. unfold sum_Z. lia.
    + rewrite Iz. unfold next_elev.
      destruct (r_elev r) as [|e elev].
      * destruct (Dimensions =? 3); [|reflexivity].
        destruct (length vs1); reflexivity.
      * destruct (Dimensions =? 3); [|reflexivity].
        rewrite i64_add_l.
        change (firstn (S (S (length vs1))) (e :: elev))
          with (e :: firstn (S (length vs1)) elev).
        cbn [sum_Z fold_right]. f_equal. unfold sum_Z. lia.
Qed.

(** The elevation stream after the vertices: in three dimensions one
    elevation per vertex is gone, otherwise none. *)
Lemma decoded_elevations (vs : list (vertex T)) :
  forall r r' : reader,
    decoded Dimensions r vs r' ->
    r_elev r' = if Dimensions =? 3 then skipn (length vs) (r_elev r)
                else r_elev r.
Proof.
  induction vs as [|v vs IH]; intros r r' Hd; cbn [decoded] in Hd.
  - subst r'. destruct (Dimensions =? 3); reflexivity.
  - destruct Hd as (_ & _ & Hd). rewrite (IH _ _ Hd).
    unfold reader_after, next_elev. cbn [r_elev length].
    destruct (Dimensions =? 3); [|destruct (r_elev r); reflexivity].
    destruct (r_elev r) as [|e elev]; [apply skipn_nil|reflexivity].
Qed.

End Sums.

Section DriverSums.

Variable Dimensions : Z.
Variable MaxGeometricAttributes : nat.
Variable T : Type.
Variable convert : unscaled_point -> T.

Lemma zero_is_i64 : Int.is_i64 0.
Proof. unfold Int.is_i64. lia. Qed.

(** X3.  Delta accumulation.  In an accepted geometry, decoded from a
    decoder as constructed, every vertex is the sum, in 32 bits, of the
    zigzag decoded parameter integers of all the vertices of the stream up
    to it, whatever commands and sub-geometries lie between; its elevation
    is, in three dimensions, the sum in 64 bits of the elevations up to
    it (those the stream has), and 0 otherwise. *)
Theorem vertices_are_sums_of_deltas :
  forall (geom elev : list Z) (attr : attr_iterator) (max : Z)
         (s' : machine T),
    Forall Int.is_u32 geom ->
    (decode_point Dimensions MaxGeometricAttributes convert
       (start (initial geom elev attr max)) = (Ok tt, s') ->
     exists vs : list (vertex T),
       geom = points_words vs
       /\ calls s' = points_calls convert vs
       /\ sums_of_deltas Dimensions (mk_unscaled_point 0 0 0) elev vs)
    /\ (decode_linestring Dimensions MaxGeometricAttributes convert
          (start (initial geom elev attr max)) = (Ok tt, s') ->
        exists ps : list (path T),
          geom = flat_map linestring_words ps
          /\ calls s' = flat_map (linestring_calls convert) ps
          /\ sums_of_deltas Dimensions (mk_unscaled_point 0 0 0) elev
                            (flat_map path_vertices ps))
    /\ (decode_polygon Dimensions MaxGeometricAttributes convert
          (start (initial geom elev attr max)) = (Ok tt, s') ->
        exists ps : list (path T),
          geom = flat_map ring_words ps
          /\ calls s' = flat_map (ring_calls convert) ps
          /\ sums_of_deltas Dimensions (mk_unscaled_point 0 0 0) elev
                            (flat_map path_vertices ps)).
Proof.
  intros geom elev attr max s' Hu. split; [|split]; intros H.
  - destruct (decode_point_ok _ _ _ _ _ s' H Hu)
      as (attrs & vs & _ & Hg & Hcs & Hd & _).
    exists vs. split; [exact Hg|]. split; [exact Hcs|].
    exact (decoded_sums_of_deltas Dimensions T vs _ _ Hd zero_is_i64).
  - destruct (decode_linestring_ok _ _ _ _ _ s' H Hu)
      as (attrs & ps & _ & Hg & Hcs & Hd & _).
    exists ps. split; [exact Hg|]. split; [exact Hcs|].
    exact (decoded_sums_of_deltas Dimensions T _ _ _ Hd zero_is_i64).
  - destruct (decode_polygon_ok _ _ _ _ _ s' H Hu)
      as (attrs & ps & _ & Hg & Hcs & Hd & _).
    exists ps. split; [exact Hg|]. split; [exact Hcs|].
    exact (decoded_sums_of_deltas Dimensions T _ _ _ Hd zero_is_i64).
Qed.

(** X4.  The point driver and the elevations.  The point driver accepts
    a geometry only if its points use up the elevation stream: in three
    dimensions the stream has at most one elevation per point, and in two
    dimensions, where no elevation is ever read, it is empty. *)
Theorem point_driver_uses_up_elevations :
  forall s s' : machine T,
    Forall Int.is_u32 (m_geom_it (dec s)) ->
    decode_point Dimensions MaxGeometricAttributes convert s = (Ok tt, s') ->
    exists vs : list (vertex T),
      m_geom_it (dec s) = points_words vs
      /\ if Dimensions =? 3
         then (length (m_elev_it (dec s)) <= length vs)%nat
         else m_elev_it (dec s) = [].
Proof.
  intros s s' Hu H.
  destruct (decode_point_ok _ _ _ _ s s' H Hu)
    as (attrs & vs & _ & Hg & _ & Hd & _ & He).
  exists vs. split; [exact Hg|].
  apply decoded_elevations in Hd. cbn [r_elev reader_of] in Hd.
  rewrite He in Hd. destruct (Dimensions =? 3); [|symmetry; exact Hd].
  apply (f_equal (@length Z)) in Hd. rewrite length_skipn in Hd.
  cbn [length] in Hd. lia.
Qed.

End DriverSums.

(** ** Running the decoder forward *)

Section Forward.

Variable Dimensions : Z.
Variable T : Type.
Variable convert : unscaled_point -> T.

Lemma vertices_of_cons (r : reader) (param : Z * Z) (params : list (Z * Z)) :
  vertices_of Dimensions T r (param :: params)
  = (vertex_of Dimensions T r param
     :: fst (vertices_of Dimensions T
               (reader_after Dimensions r (vertex_of Dimensions T r param))
               params),
     snd (vertices_of Dimensions T
            (reader_after Dimensions r (vertex_of Dimensions T r param))
            params)).
Proof.
  cbn [vertices_of].
  destruct (vertices_of Dimensions T
              (reader_after Dimensions r (vertex_of Dimensions T r param))
              params).
  reflexivity.
Qed.

Lemma paths_of_cons (r : reader) (raw : raw_path) (raws : list raw_path) :
  paths_of Dimensions T r (raw :: raws)
  = (mk_path (vertex_of Dimensions T r (fst raw))
             (fst (vertices_of Dimensions T
                     (reader_after Dimensions r
                        (vertex_of Dimensions T r (fst raw)))
                     (snd raw)))
     :: fst (paths_of Dimensions T
               (snd (vertices_of Dimensions T
                       (reader_after Dimensions r
                          (vertex_of Dimensions T r (fst raw)))
                       (snd raw)))
               raws),
     snd (paths_of Dimensions T
            (snd (vertices_of Dimensions T
                    (reader_after Dimensions r
                       (vertex_of Dimensions T r (fst raw)))
                    (snd raw)))
            raws)).
Proof.
  cbn [paths_of].
  destruct (vertices_of Dimensions T
              (reader_after Dimensions r (vertex_of Dimensions T r (fst raw)))
              (snd raw)) as [vs r1].
  cbn [fst snd]. destruct (paths_of Dimensions T r1 raws). reflexivity.
Qed.

(** The vertices made of parameter integers are decoded vertices, with
    those parameter integers. *)
Lemma vertices_of_decoded (params : list (Z * Z)) :
  forall r : reader,
    decoded Dimensions r (fst (vertices_of Dimensions T r params))
            (snd (vertices_of Dimensions T r params))
    /\ map raw_of_vertex (fst (vertices_of Dimensions T r params)) = params.
Proof.
  induction params as [|[px py] params IH]; intros r.
  - split; reflexivity.
  - rewrite vertices_of_cons. cbn [fst snd decoded map].
    destruct (IH (reader_after Dimensions r
                    (vertex_of Dimensions T r (px, py)))) as [Hd Hm].
    split.
    + split; [reflexivity|]. split; [reflexivity|exact Hd].
    + rewrite Hm. reflexivity.
Qed.

Lemma vertices_of_length (params : list (Z * Z)) :
  forall r : reader,
    length (fst (vertices_of Dimensions T r params)) = length params.
Proof.
  induction params as [|param params IH]; intros r; [reflexivity|].
  rewrite vertices_of_cons. cbn [fst length]. rewrite IH. reflexivity.
Qed.

Lemma vertex_calls_vertex_of (point : T -> handler_call T) (s : machine T)
      (param : Z * Z) :
  vertex_calls convert point (vertex_of Dimensions T (reader_of s) param)
  = point (convert (move_cursor Dimensions (m_cursor (dec s))
                                (fst param) (snd param) (m_elev_it (dec s))))
    :: snd (attribute_calls T (geom_attributes s)).
Proof. reflexivity. Qed.

(** Decoded vertices are the vertices made of their parameter integers. *)
Lemma decoded_vertices_of (vs : list (vertex T)) :
  forall r r' : reader,
    decoded Dimensions r vs r' ->
    vertices_of Dimensions T r (map raw_of_vertex vs) = (vs, r').
Proof.
  induction vs as [|v vs IH]; intros r r' Hd; cbn [decoded] in Hd.
  - subst r'. reflexivity.
  - destruct Hd as (Hp & Hc & Hd).
    cbn [map]. rewrite vertices_of_cons.
    assert (Ev : vertex_of Dimensions T r (raw_of_vertex v) = v).
    { unfold vertex_of, raw_of_vertex. cbn [fst snd].
      rewrite <- Hp, <- Hc. destruct v. reflexivity. }
    rewrite Ev, (IH _ _ Hd). reflexivity.
Qed.

Lemma param_words_vertices (vs : list (vertex T)) :
  flat_map vertex_words vs = param_words (map raw_of_vertex vs).
Proof.
  unfold param_words.
  induction vs as [|v vs IH]; [reflexivity|].
  cbn [flat_map map]. rewrite IH. reflexivity.
Qed.

Lemma linestring_words_raw (p : path T) :
  linestring_words p = raw_linestring_words (raw_of_path p).
Proof.
  unfold linestring_words, raw_linestring_words, raw_of_path, vertex_words.
  cbn [fst snd raw_of_vertex app].
  rewrite length_map, param_words_vertices. reflexivity.
Qed.

Lemma ring_words_raw (p : path T) :
  ring_words p = raw_ring_words (raw_of_path p).
Proof.
  unfold ring_words, raw_ring_words, raw_linestring_words, raw_of_path,
    vertex_words.
  cbn [fst snd raw_of_vertex app].
  rewrite length_map, param_words_vertices. reflexivity.
Qed.

(** [next_command] on the command integer it expects. *)
Lemma next_command_run (e : CommandId) (s : machine T) (n : Z) (rest : list Z) :
  m_count (dec s) = 0 ->
  m_geom_it (dec s) = command_integer e n :: rest ->
  match e with
  | CLOSE_PATH => n = 1
  | _ => n <= m_max_count (dec s)
  end ->
  next_command e s
  = (Ok true,
     mk_machine
       (mk_decoder rest (m_elev_it (dec s)) (m_attr_it (dec s))
                   (m_cursor (dec s)) (m_max_count (dec s))
                   (match e with CLOSE_PATH => m_count (dec s) | _ => n end))
       (geom_attributes s) (calls s)).
Proof.
  intros Hc Hg Hn. unfold next_command. rewrite Hg.
  replace (m_count (dec s) =? 0) with true by (symmetry; apply Z.eqb_eq; exact Hc).
  cbn [negb]. rewrite get_command_id_integer, u32_command_id, Z.eqb_refl.
  cbn [negb]. rewrite get_command_count_integer.
  destruct e.
  - replace (n >? m_max_count (dec s)) with false
      by (symmetry; rewrite Z.gtb_ltb; apply Z.ltb_ge; exact Hn).
    reflexivity.
  - replace (n >? m_max_count (dec s)) with false
      by (symmetry; rewrite Z.gtb_ltb; apply Z.ltb_ge; exact Hn).
    reflexivity.
  - subst n. reflexivity.
Qed.

(** [next_point] where two integers are left and the count is positive. *)
Lemma next_point_run (s : machine T) (px py : Z) (rest : list Z) :
  0 < m_count (dec s) ->
  m_geom_it (dec s) = px :: py :: rest ->
  next_point Dimensions s
  = (Ok (move_cursor Dimensions (m_cursor (dec s)) px py (m_elev_it (dec s))),
     mk_machine
       (mk_decoder rest (next_elev Dimensions (m_elev_it (dec s)))
                   (m_attr_it (dec s))
                   (move_cursor Dimensions (m_cursor (dec s)) px py
                                (m_elev_it (dec s)))
                   (m_max_count (dec s)) (Int.u32 (m_count (dec s) - 1)))
       (geom_attributes s) (calls s)).
Proof.
  intros Hc Hg. unfold next_point. rewrite Hg.
  replace (m_count (dec s) >? 0) with true
    by (symmetry; rewrite Z.gtb_ltb; apply Z.ltb_lt; exact Hc).
  reflexivity.
Qed.

(** One turn of a loop over the points of a command, run on two parameter
    integers. *)
Lemma vertex_body_run {A : Type} (point : T -> handler_call T)
      (f : A -> unscaled_point -> A) (a : A) (s : machine T)
      (param : Z * Z) (rest : list Z) :
  0 < m_count (dec s) ->
  m_geom_it (dec s) = fst param :: snd param :: rest ->
  exists s1 : machine T,
    vertex_body Dimensions convert point f a s
    = (Ok (f a (v_point (vertex_of Dimensions T (reader_of s) param))), s1)
    /\ m_geom_it (dec s1) = rest
    /\ m_count (dec s1) = Int.u32 (m_count (dec s) - 1)
    /\ reader_of s1
       = reader_after Dimensions (reader_of s)
                      (vertex_of Dimensions T (reader_of s) param)
    /\ calls s1
       = calls s ++ vertex_calls convert point
                      (vertex_of Dimensions T (reader_of s) param)
    /\ same_frame s s1.
Proof.
  intros Hc Hg. unfold vertex_body.
  rewrite (bind_step _ _ _ _ _ _ (next_point_run s _ _ _ Hc Hg)).
  rewrite bind_call, bind_for_geom_attributes. unfold ret.
  eexists. split; [reflexivity|].
  cbn [dec geom_attributes calls m_geom_it m_count].
  split; [reflexivity|]. split; [reflexivity|].
  split; [reflexivity|].
  split; [rewrite <- app_assoc; reflexivity|].
  split; reflexivity.
Qed.

Section WhileCountRun.

Variable A : Type.
Variable point : T -> handler_call T.
Variable f : A -> unscaled_point -> A.
Variable body : A -> M T A.
Hypothesis body_eq :
  forall (a : A) (s : machine T),
    body a s = vertex_body Dimensions convert point f a s.

(** The loop [while (count() > 0)] on a stream that has the parameter
    integers the count asks for: it returns, having decoded them. *)
Lemma while_count_run (params : list (Z * Z)) :
  forall (fuel : nat) (a : A) (s : machine T) (rest : list Z),
    m_geom_it (dec s) = param_words params ++ rest ->
    m_count (dec s) = Z.of_nat (length params) ->
    m_count (dec s) < 2 ^ 32 ->
    (length params < fuel)%nat ->
    exists s' : machine T,
      while_count fuel body a s
      = (Ok (fold_left f
               (map v_point
                    (fst (vertices_of Dimensions T (reader_of s) params)))
               a),
         s')
      /\ m_geom_it (dec s') = rest
      /\ m_count (dec s') = 0
      /\ reader_of s' = snd (vertices_of Dimensions T (reader_of s) params)
      /\ calls s'
         = calls s ++ flat_map (vertex_calls convert point)
                        (fst (vertices_of Dimensions T (reader_of s) params))
      /\ same_frame s s'.
Proof.
  induction params as [|param params IH]; intros fuel a s rest Hg Hc Hlt Hf.
  - destruct fuel as [|fuel]; [lia|]. cbn [while_count].
    rewrite bind_count, Hc. cbn [length Z.of_nat Z.gtb Z.compare].
    exists s. unfold ret. cbn [vertices_of fst snd map fold_left flat_map].
    rewrite app_nil_r. cbn [param_words flat_map app] in Hg.
    repeat split; auto.
  - destruct fuel as [|fuel]; [cbn [length] in Hf; lia|]. cbn [while_count].
    cbn [length] in Hc, Hf. rewrite Nat2Z.inj_succ in Hc.
    rewrite bind_count.
    replace (m_count (dec s) >? 0) with true
      by (symmetry; rewrite Z.gtb_ltb; apply Z.ltb_lt; lia).
    unfold param_words in Hg. cbn [flat_map app] in Hg.
    fold (param_words params) in Hg.
    destruct (vertex_body_run point f a s param (param_words params ++ rest)
                ltac:(lia) Hg)
      as (s1 & Hb & Hg1 & Hc1 & Hr1 & Hcs1 & Hf1).
    rewrite <- body_eq in Hb. rewrite (bind_step _ _ _ _ _ _ Hb).
    assert (Hc1' : m_count (dec s1) = Z.of_nat (length params)).
    { rewrite Hc1, u32_small; [lia|]. unfold Int.is_u32. lia. }
    destruct (IH fuel (f a (v_point (vertex_of Dimensions T (reader_of s) param)))
                 s1 rest Hg1 Hc1' ltac:(lia) ltac:(lia))
      as (s' & Hw & Hg' & Hc' & Hr' & Hcs' & Hf').
    exists s'. rewrite vertices_of_cons. cbn [fst snd map fold_left flat_map].
    rewrite <- Hr1.
    split; [exact Hw|]. split; [exact Hg'|]. split; [exact Hc'|].
    split; [exact Hr'|].
    split; [rewrite Hcs', Hcs1, <- app_assoc; reflexivity|].
    exact (same_frame_trans T _ _ _ Hf1 Hf').
Qed.

End WhileCountRun.

(** The body of the loop of the linestring driver, run on the stream of a
    linestring whose counts are within the maximum. *)
Lemma decode_linestring_body_run (s : machine T) (raw : raw_path)
      (rest : list Z) :
  m_count (dec s) = 0 ->
  m_geom_it (dec s) = raw_linestring_words raw ++ rest ->
  1 <= Z.of_nat (length (snd raw)) <= m_max_count (dec s) ->
  Z.of_nat (length (snd raw)) < 2 ^ 29 ->
  exists s1 s' : machine T,
    next_command MOVE_TO s = (Ok true, s1)
    /\ decode_linestring_body Dimensions convert s1 = (Ok tt, s')
    /\ m_geom_it (dec s') = rest
    /\ m_count (dec s') = 0
    /\ reader_of s'
       = snd (vertices_of Dimensions T
                (reader_after Dimensions (reader_of s)
                   (vertex_of Dimensions T (reader_of s) (fst raw)))
                (snd raw))
    /\ calls s'
       = calls s
         ++ linestring_calls convert
              (mk_path (vertex_of Dimensions T (reader_of s) (fst raw))
                 (fst (vertices_of Dimensions T
                         (reader_after Dimensions (reader_of s)
                            (vertex_of Dimensions T (reader_of s) (fst raw)))
                         (snd raw))))
    /\ same_frame s s'.
Proof.
  intros Hc Hg Hn Hlt.
  unfold raw_linestring_words in Hg. cbn [app] in Hg.
  destruct (while_count_run unit linestring_point (fun a _ => a)
              (fun _ : unit =>
                 p <- next_point Dimensions ;;
                 call (linestring_point (convert p)) ;;
                 for_geom_attributes)
              (fun a0 s5 => unit_body_eq Dimensions T convert
                              linestring_point a0 s5)
              (snd raw) (S (Z.to_nat (Z.of_nat (length (snd raw))))) tt
              (mk_machine
                 (mk_decoder
                    (param_words (snd raw) ++ rest)
                    (next_elev Dimensions (m_elev_it (dec s)))
                    (m_attr_it (dec s))
                    (move_cursor Dimensions (m_cursor (dec s))
                       (fst (fst raw)) (snd (fst raw)) (m_elev_it (dec s)))
                    (m_max_count (dec s))
                    (Z.of_nat (length (snd raw))))
                 (fst (attribute_calls T (geom_attributes s)))
                 (((calls s
                    ++ [linestring_begin
                          (Int.u32 (Z.of_nat (length (snd raw)) + 1))])
                   ++ [linestring_point
                         (convert
                            (move_cursor Dimensions (m_cursor (dec s))
                               (fst (fst raw)) (snd (fst raw))
                               (m_elev_it (dec s))))])
                  ++ snd (attribute_calls T (geom_attributes s))))
              rest eq_refl eq_refl
              ltac:(cbn [dec m_count]; lia) ltac:(lia))
    as (s5 & Hw & Hg5 & Hc5 & Hr5 & Hcs5 & Hf5).
  match type of Hr5 with
  | _ = snd (vertices_of _ _ ?r _) =>
      change r with (reader_after Dimensions (reader_of s)
                       (vertex_of Dimensions T (reader_of s) (fst raw)))
        in Hr5, Hcs5
  end.
  eexists. eexists.
  split; [exact (next_command_run MOVE_TO s 1 _ Hc Hg ltac:(cbn; lia))|].
  unfold decode_linestring_body. rewrite bind_count.
  cbn [dec m_count Z.eqb Pos.eqb negb].
  erewrite bind_step; [|apply next_point_run; cbn [dec m_count m_geom_it];
                        [lia|reflexivity]].
  cbn [dec m_count m_geom_it m_elev_it m_attr_it m_cursor m_max_count
       geom_attributes calls].
  change (Int.u32 (1 - 1)) with 0.
  erewrite bind_step;
    [|apply (next_command_run LINE_TO _ (Z.of_nat (length (snd raw))));
      cbn [dec m_count m_geom_it m_max_count]; [reflexivity|reflexivity|lia]].
  cbn [negb]. rewrite bind_count.
  cbn [dec m_count m_geom_it m_elev_it m_attr_it m_cursor m_max_count
       geom_attributes calls].
  replace (Z.of_nat (length (snd raw)) =? 0) with false
    by (symmetry; apply Z.eqb_neq; lia).
  rewrite bind_count, bind_call, bind_call, bind_for_geom_attributes, bind_count.
  cbn [dec m_count geom_attributes calls].
  rewrite (bind_step _ _ _ _ _ _ Hw). rewrite call_ok.
  split; [reflexivity|].
  cbn [dec geom_attributes calls].
  split; [exact Hg5|]. split; [exact Hc5|].
  split; [exact Hr5|].
  split.
  - rewrite Hcs5. cbn [calls].
    unfold linestring_calls, path_vertices. cbn [p_first p_rest flat_map].
    rewrite vertices_of_length, vertex_calls_vertex_of.
    rewrite u32_small by (unfold Int.is_u32; lia).
    rewrite <- !app_assoc. reflexivity.
  - destruct Hf5 as [F1 F2]. split; [exact F1|exact F2].
Qed.

(** The body of the loop of the polygon driver, run on the stream of a
    ring whose counts are within the maximum. *)
Lemma decode_polygon_body_run (s : machine T) (raw : raw_path)
      (rest : list Z) :
  m_count (dec s) = 0 ->
  m_geom_it (dec s) = raw_ring_words raw ++ rest ->
  Z.of_nat (length (snd raw)) <= m_max_count (dec s) ->
  1 <= m_max_count (dec s) ->
  Z.of_nat (length (snd raw)) < 2 ^ 29 ->
  exists s1 s' : machine T,
    next_command MOVE_TO s = (Ok true, s1)
    /\ decode_polygon_body Dimensions convert s1 = (Ok tt, s')
    /\ m_geom_it (dec s') = rest
    /\ m_count (dec s') = 0
    /\ reader_of s'
       = snd (vertices_of Dimensions T
                (reader_after Dimensions (reader_of s)
                   (vertex_of Dimensions T (reader_of s) (fst raw)))
                (snd raw))
    /\ calls s'
       = calls s
         ++ ring_calls convert
              (mk_path (vertex_of Dimensions T (reader_of s) (fst raw))
                 (fst (vertices_of Dimensions T
                         (reader_after Dimensions (reader_of s)
                            (vertex_of Dimensions T (reader_of s) (fst raw)))
                         (snd raw))))
    /\ same_frame s s'.
Proof.
  intros Hc Hg Hn Hmax Hlt.
  unfold raw_ring_words, raw_linestring_words in Hg.
  cbn [app] in Hg. rewrite <- app_assoc in Hg.
  destruct (while_count_run (Z * unscaled_point)%type ring_point ring_sum_step
              (fun '(sum, last_point) =>
                 p <- next_point Dimensions ;;
                 let sum := Int.i64 (sum + det last_point p) in
                 let last_point := p in
                 call (ring_point (convert p)) ;;
                 for_geom_attributes ;;
                 ret (sum, last_point))
              (fun a0 s5 => ring_body_eq Dimensions T convert a0 s5)
              (snd raw) (S (Z.to_nat (Z.of_nat (length (snd raw)))))
              (0, move_cursor Dimensions (m_cursor (dec s))
                    (fst (fst raw)) (snd (fst raw)) (m_elev_it (dec s)))
              (mk_machine
                 (mk_decoder
                    (param_words (snd raw)
                     ++ [command_integer CLOSE_PATH 1] ++ rest)
                    (next_elev Dimensions (m_elev_it (dec s)))
                    (m_attr_it (dec s))
                    (move_cursor Dimensions (m_cursor (dec s))
                       (fst (fst raw)) (snd (fst raw)) (m_elev_it (dec s)))
                    (m_max_count (dec s))
                    (Z.of_nat (length (snd raw))))
                 (fst (attribute_calls T (geom_attributes s)))
                 (((calls s
                    ++ [ring_begin
                          (Int.u32 (Z.of_nat (length (snd raw)) + 2))])
                   ++ [ring_point
                         (convert
                            (move_cursor Dimensions (m_cursor (dec s))
                               (fst (fst raw)) (snd (fst raw))
                               (m_elev_it (dec s))))])
                  ++ snd (attribute_calls T (geom_attributes s))))
              ([command_integer CLOSE_PATH 1] ++ rest) eq_refl eq_refl
              ltac:(cbn [dec m_count]; lia) ltac:(lia))
    as (s5 & Hw & Hg5 & Hc5 & Hr5 & Hcs5 & Hf5).
  match type of Hr5 with
  | _ = snd (vertices_of _ _ ?r _) =>
      change r with (reader_after Dimensions (reader_of s)
                       (vertex_of Dimensions T (reader_of s) (fst raw)))
        in Hr5, Hcs5, Hw
  end.
  pose proof (next_command_run CLOSE_PATH s5 1 rest Hc5 Hg5 eq_refl) as Hcl.
  destruct (fold_left ring_sum_step
              (map v_point
                 (fst (vertices_of Dimensions T
                         (reader_after Dimensions (reader_of s)
                            (vertex_of Dimensions T (reader_of s) (fst raw)))
                         (snd raw))))
              (0, move_cursor Dimensions (m_cursor (dec s))
                    (fst (fst raw)) (snd (fst raw)) (m_elev_it (dec s))))
    as [sum last_point] eqn:Efold.
  eexists. eexists.
  split; [exact (next_command_run MOVE_TO s 1 _ Hc Hg ltac:(cbn; lia))|].
  unfold decode_polygon_body. rewrite bind_count.
  cbn [dec m_count Z.eqb Pos.eqb negb].
  erewrite bind_step; [|apply next_point_run; cbn [dec m_count m_geom_it];
                        [lia|reflexivity]].
  cbn [dec m_count m_geom_it m_elev_it m_attr_it m_cursor m_max_count
       geom_attributes calls].
  change (Int.u32 (1 - 1)) with 0.
  erewrite bind_step;
    [|apply (next_command_run LINE_TO _ (Z.of_nat (length (snd raw))));
      cbn [dec m_count m_geom_it m_max_count]; [reflexivity|reflexivity|lia]].
  cbn [negb].
  rewrite bind_count, bind_call, bind_call, bind_for_geom_attributes, bind_count.
  cbn [dec m_count m_geom_it m_elev_it m_attr_it m_cursor m_max_count
       geom_attributes calls].
  rewrite (bind_step _ _ _ _ _ _ Hw).
  rewrite (bind_step _ _ _ _ _ _ Hcl). cbn [negb].
  rewrite bind_call, call_ok.
  split; [reflexivity|].
  cbn [dec geom_attributes calls m_geom_it m_count m_elev_it m_cursor
       m_attr_it m_max_count].
  split; [reflexivity|]. split; [exact Hc5|].
  split; [exact Hr5|].
  split.
  - rewrite Hcs5. cbn [calls].
    unfold ring_calls, path_vertices. cbn [p_first p_rest flat_map].
    rewrite vertices_of_length, vertex_calls_vertex_of.
    rewrite u32_small by (unfold Int.is_u32; lia).
    unfold ring_sum.
    change (v_point (vertex_of Dimensions T (reader_of s) (fst raw)))
      with (move_cursor Dimensions (m_cursor (dec s))
              (fst (fst raw)) (snd (fst raw)) (m_elev_it (dec s))).
    rewrite Efold. cbn [fst snd].
    rewrite <- !app_assoc. reflexivity.
  - destruct Hf5 as [F1 F2]. split; [exact F1|exact F2].
Qed.

Section WhileMoveToRun.

Variable body : M T unit.
Variable raw_words : raw_path -> list Z.
Variable pcalls : path T -> list (handler_call T).
Variable bounded : Z -> raw_path -> Prop.

Hypothesis body_run :
  forall (s : machine T) (raw : raw_path) (rest : list Z),
    m_count (dec s) = 0 ->
    m_geom_it (dec s) = raw_words raw ++ rest ->
    bounded (m_max_count (dec s)) raw ->
    exists s1 s' : machine T,
      next_command MOVE_TO s = (Ok true, s1)
      /\ body s1 = (Ok tt, s')
      /\ m_geom_it (dec s') = rest
      /\ m_count (dec s') = 0
      /\ reader_of s'
         = snd (vertices_of Dimensions T
                  (reader_after Dimensions (reader_of s)
                     (vertex_of Dimensions T (reader_of s) (fst raw)))
                  (snd raw))
      /\ calls s'
         = calls s
           ++ pcalls
                (mk_path (vertex_of Dimensions T (reader_of s) (fst raw))
                   (fst (vertices_of Dimensions T
                           (reader_after Dimensions (reader_of s)
                              (vertex_of Dimensions T (reader_of s) (fst raw)))
                           (snd raw))))
      /\ same_frame s s'.

(** The loop [while (next_command(MOVE_TO))] on the stream of a sequence
    of paths within the maximum: it returns, having decoded them. *)
Lemma while_move_to_run (raws : list raw_path) :
  forall (fuel : nat) (s : machine T),
    m_count (dec s) = 0 ->
    m_geom_it (dec s) = flat_map raw_words raws ->
    Forall (bounded (m_max_count (dec s))) raws ->
    (length raws < fuel)%nat ->
    exists s' : machine T,
      while_move_to fuel body s = (Ok tt, s')
      /\ calls s'
         = calls s
           ++ flat_map pcalls (fst (paths_of Dimensions T (reader_of s) raws))
      /\ reader_of s' = snd (paths_of Dimensions T (reader_of s) raws)
      /\ m_geom_it (dec s') = []
      /\ same_frame s s'.
Proof.
  induction raws as [|raw raws IH]; intros fuel s Hc Hg Hb Hf.
  - destruct fuel as [|fuel]; [lia|]. cbn [while_move_to].
    exists s. cbn [flat_map] in Hg.
    assert (E : next_command MOVE_TO s = (Ok false, s)).
    { unfold next_command. rewrite Hc, Hg. reflexivity. }
    rewrite (bind_step _ _ _ _ _ _ E). unfold ret.
    cbn [paths_of fst snd flat_map]. rewrite app_nil_r.
    split; [reflexivity|]. split; [reflexivity|]. split; [reflexivity|].
    split; [exact Hg|apply same_frame_refl].
  - destruct fuel as [|fuel]; [cbn [length] in Hf; lia|].
    cbn [while_move_to]. cbn [flat_map] in Hg.
    inversion Hb as [|? ? Hb1 Hb2]. subst.
    destruct (body_run s raw (flat_map raw_words raws) Hc Hg Hb1)
      as (s1 & s2 & Hm & Hbody & Hg2 & Hc2 & Hr2 & Hcs2 & Hf2).
    rewrite (bind_step _ _ _ _ _ _ Hm), (bind_step _ _ _ _ _ _ Hbody).
    assert (Hb2' : Forall (bounded (m_max_count (dec s2))) raws).
    { destruct Hf2 as [_ Hx]. rewrite Hx. exact Hb2. }
    destruct (IH fuel s2 Hc2 Hg2 Hb2' ltac:(cbn [length] in Hf; lia))
      as (s' & Hw & Hcs' & Hr' & Hg' & Hf').
    exists s'. rewrite paths_of_cons. cbn [fst snd flat_map].
    rewrite <- Hr2.
    split; [exact Hw|].
    split; [rewrite Hcs', Hcs2, <- app_assoc; reflexivity|].
    split; [exact Hr'|]. split; [exact Hg'|].
    exact (same_frame_trans T _ _ _ Hf2 Hf').
Qed.

End WhileMoveToRun.

(** The paths made of raw paths are decoded, and have their words. *)
Lemma paths_of_decoded (raws : list raw_path) :
  forall r : reader,
    decoded Dimensions r
            (flat_map path_vertices (fst (paths_of Dimensions T r raws)))
            (snd (paths_of Dimensions T r raws))
    /\ map raw_of_path (fst (paths_of Dimensions T r raws)) = raws.
Proof.
  induction raws as [|[first rest] raws IH]; intros r.
  - split; reflexivity.
  - rewrite paths_of_cons. cbn [fst snd flat_map map].
    set (v := vertex_of Dimensions T r first).
    destruct (vertices_of_decoded rest (reader_after Dimensions r v))
      as [Hd Hm].
    destruct (IH (snd (vertices_of Dimensions T
                         (reader_after Dimensions r v) rest))) as [Hd' Hm'].
    split.
    + unfold path_vertices at 1. cbn [p_first p_rest app].
      cbn [decoded]. split; [reflexivity|]. split; [reflexivity|].
      exact (decoded_app Dimensions T _ _ _ _ _ Hd Hd').
    + rewrite Hm'. unfold raw_of_path at 1. cbn [p_first p_rest].
      rewrite Hm. destruct first. reflexivity.
Qed.

(** Decoded paths are the paths made of their raw paths. *)
Lemma decoded_paths_of (ps : list (path T)) :
  forall r r' : reader,
    decoded Dimensions r (flat_map path_vertices ps) r' ->
    paths_of Dimensions T r (map raw_of_path ps) = (ps, r').
Proof.
  induction ps as [|p ps IH]; intros r r' Hd.
  - cbn [flat_map decoded] in Hd. subst r'. reflexivity.
  - cbn [flat_map] in Hd. unfold path_vertices at 1 in Hd.
    cbn [app decoded] in Hd. destruct Hd as (Hp & Hc & Hd).
    cbn [map]. rewrite paths_of_cons.
    change (fst (raw_of_path p)) with (raw_of_vertex (p_first p)).
    change (snd (raw_of_path p)) with (map raw_of_vertex (p_rest p)).
    assert (Ev : vertex_of Dimensions T r (raw_of_vertex (p_first p))
                 = p_first p).
    { unfold vertex_of, raw_of_vertex. cbn [fst snd].
      rewrite <- Hp, <- Hc. destruct (p_first p). reflexivity. }
    rewrite Ev.
    assert (Hsplit : exists r1,
               decoded Dimensions (reader_after Dimensions r (p_first p))
                       (p_rest p) r1
               /\ decoded Dimensions r1 (flat_map path_vertices ps) r').
    { clear - Hd. revert Hd.
      generalize (reader_after Dimensions r (p_first p)).
      induction (p_rest p) as [|v vs IHv]; intros r0 Hd.
      - exists r0. split; [reflexivity|exact Hd].
      - cbn [app decoded] in Hd. destruct Hd as (Hp & Hc & Hd).
        destruct (IHv _ Hd) as (r1 & H1 & H2).
        exists r1. split; [|exact H2]. cbn [decoded]. auto. }
    destruct Hsplit as (r1 & H1 & H2).
    rewrite (decoded_vertices_of _ _ _ H1). cbn [fst snd].
    rewrite (IH _ _ H2). destruct p. reflexivity.
Qed.

End Forward.

(** ** The streams the drivers accept *)

Section Accepts.

Variable Dimensions : Z.
Variable MaxGeometricAttributes : nat.
Variable T : Type.
Variable convert : unscaled_point -> T.

(** The construction of the attributes of a driver is the constructor of
    the collection on the attribute stream. *)
Lemma new_geom_attributes_collection (s : machine T) :
  new_geom_attributes MaxGeometricAttributes s
  = match collection_of MaxGeometricAttributes (m_attr_it (dec s)) with
    | Ok attrs => (Ok tt, mk_machine (dec s) attrs (calls s))
    | Throw e => (Throw e, s)
    | OutOfFuel => (OutOfFuel, s)
    end.
Proof.
  unfold new_geom_attributes, collection_of.
  destruct (m_attr_it (dec s)) as [|it]; reflexivity.
Qed.

Lemma flat_map_raw {A B C : Type} (f : A -> list C) (g : B -> list C)
      (h : A -> B) (l : list A) :
  (forall a, f a = g (h a)) -> flat_map f l = flat_map g (map h l).
Proof.
  intros H. induction l as [|a l IH]; [reflexivity|].
  cbn [flat_map map]. rewrite H, IH. reflexivity.
Qed.

Lemma command_integer_u32_count (id : CommandId) (n : Z) :
  Int.is_u32 (command_integer id n) -> n < 2 ^ 29.
Proof.
  unfold Int.is_u32. rewrite command_integer_sum.
  destruct id; cbn [CommandId_value]; lia.
Qed.

Lemma raw_linestring_words_count (raw : raw_path) (l : list Z) :
  Forall Int.is_u32 (raw_linestring_words raw ++ l) ->
  Z.of_nat (length (snd raw)) < 2 ^ 29.
Proof.
  unfold raw_linestring_words. cbn [app]. intros H.
  inversion H as [|? ? _ Ha]. inversion Ha as [|? ? _ Hb].
  inversion Hb as [|? ? _ Hd]. inversion Hd as [|? ? Hw _].
  exact (command_integer_u32_count _ _ Hw).
Qed.

Lemma raw_words_counts (words : raw_path -> list Z) (raws : list raw_path) :
  (forall raw, exists l, words raw = raw_linestring_words raw ++ l) ->
  Forall Int.is_u32 (flat_map words raws) ->
  Forall (fun raw => Z.of_nat (length (snd raw)) < 2 ^ 29) raws.
Proof.
  intros Hw H. apply Forall_flat_map in H.
  eapply Forall_impl; [|exact H]. cbv beta. intros raw Hr.
  destruct (Hw raw) as (l & E). rewrite E in Hr.
  exact (raw_linestring_words_count raw l Hr).
Qed.

Lemma raws_length (words : raw_path -> list Z) (raws : list raw_path) :
  (forall raw, words raw <> []) ->
  (length raws <= length (flat_map words raws))%nat.
Proof.
  intros Hne. induction raws as [|raw raws IH]; [cbn; lia|].
  cbn [flat_map length]. rewrite length_app.
  specialize (Hne raw). destruct (words raw); [congruence|].
  cbn [length]. lia.
Qed.

(** The linestring driver on the stream of a sequence of linestrings whose
    counts are within the maximum. *)
Lemma decode_linestring_run (s : machine T) (attrs : list Attr.geometric_attribute) :
  m_count (dec s) = 0 ->
  Forall Int.is_u32 (m_geom_it (dec s)) ->
  collection_of MaxGeometricAttributes (m_attr_it (dec s)) = Ok attrs ->
  forall raws : list raw_path,
  m_geom_it (dec s) = flat_map raw_linestring_words raws ->
  Forall (fun raw => 1 <= Z.of_nat (length (snd raw))
                       <= m_max_count (dec s)) raws ->
  exists s',
    decode_linestring Dimensions MaxGeometricAttributes convert s
    = (Ok tt, s')
    /\ calls s'
       = calls s
         ++ flat_map (linestring_calls convert)
              (fst (paths_of Dimensions T
                      (mk_reader (m_cursor (dec s))
                                 (m_elev_it (dec s)) attrs)
                      raws)).
Proof.
  intros Hc Hu Ha.
  intros raws Hg Hb.
  assert (Hn : Forall (fun raw => Z.of_nat (length (snd raw)) < 2 ^ 29) raws).
  { apply (raw_words_counts raw_linestring_words).
    - intros raw. exists []. rewrite app_nil_r. reflexivity.
    - rewrite <- Hg. exact Hu. }
  unfold decode_linestring.
  erewrite bind_step;
    [|rewrite new_geom_attributes_collection, Ha; reflexivity].
  cbn [dec].
  destruct (while_move_to_run Dimensions T
              (decode_linestring_body Dimensions convert)
              raw_linestring_words (linestring_calls convert)
              (fun m raw => 1 <= Z.of_nat (length (snd raw)) <= m
                            /\ Z.of_nat (length (snd raw)) < 2 ^ 29)
              ltac:(intros s0 raw rest H0 Hg0 [Hb0 Hn0];
                    exact (decode_linestring_body_run Dimensions T convert
                             s0 raw rest H0 Hg0 Hb0 Hn0))
              raws (S (length (m_geom_it (dec s))))
              (mk_machine (dec s) attrs (calls s)) Hc Hg)
    as (s' & Hw & Hcs & _).
  - cbn [dec]. rewrite Forall_forall in Hb, Hn. apply Forall_forall.
    intros raw Hin. split; [exact (Hb raw Hin)|exact (Hn raw Hin)].
  - rewrite Hg.
    pose proof (raws_length raw_linestring_words raws
                  ltac:(intros raw; unfold raw_linestring_words; discriminate)).
    lia.
  - exists s'. split; [exact Hw|exact Hcs].
Qed.

(** X5.  The streams the linestring driver accepts.  On a decoder whose
    count is 0 and whose attribute stream the collection accepts, the
    linestring driver returns exactly on the streams that are a sequence
    (empty or not) of: a MoveTo of count 1, two parameter integers, a
    LineTo of a count n from 1 to the maximum, and 2 n parameter
    integers.  The elevations play no part.  The calls it makes on such a
    stream are those of the paths of the stream. *)
Theorem linestring_driver_accepts_exactly :
  forall (s : machine T) (attrs : list Attr.geometric_attribute),
    m_count (dec s) = 0 ->
    Forall Int.is_u32 (m_geom_it (dec s)) ->
    collection_of MaxGeometricAttributes (m_attr_it (dec s)) = Ok attrs ->
    ((exists s', decode_linestring Dimensions MaxGeometricAttributes convert s
                 = (Ok tt, s'))
     <-> (exists raws : list raw_path,
             m_geom_it (dec s) = flat_map raw_linestring_words raws
             /\ Forall (fun raw => 1 <= Z.of_nat (length (snd raw))
                                     <= m_max_count (dec s)) raws))
    /\ (forall raws : list raw_path,
           m_geom_it (dec s) = flat_map raw_linestring_words raws ->
           Forall (fun raw => 1 <= Z.of_nat (length (snd raw))
                                <= m_max_count (dec s)) raws ->
           exists s',
             decode_linestring Dimensions MaxGeometricAttributes convert s
             = (Ok tt, s')
             /\ calls s'
                = calls s
                  ++ flat_map (linestring_calls convert)
                       (fst (paths_of Dimensions T
                               (mk_reader (m_cursor (dec s))
                                          (m_elev_it (dec s)) attrs)
                               raws))).
Proof.
  intros s attrs Hc Hu Ha.
  pose proof (decode_linestring_run s attrs Hc Hu Ha) as Hfwd.
  split; [|exact Hfwd]. split.
  - intros (s' & H).
    destruct (decode_linestring_ok _ _ _ _ s s' H Hu)
      as (attrs' & ps & _ & Hg & _ & _ & Hq).
    exists (map raw_of_path ps). split.
    + rewrite Hg. apply flat_map_raw.
      exact (linestring_words_raw T).
    + apply Forall_map. eapply Forall_impl; [|exact Hq]. cbv beta.
      intros p [Hp _]. unfold raw_of_path. cbn [snd].
      rewrite length_map. exact Hp.
  - intros (raws & Hg & Hb). destruct (Hfwd raws Hg Hb) as (s' & H & _).
    exists s'. exact H.
Qed.

(** The polygon driver on the stream of a sequence of rings whose counts
    are within the maximum. *)
Lemma decode_polygon_run (s : machine T) (attrs : list Attr.geometric_attribute) :
  m_count (dec s) = 0 ->
  Forall Int.is_u32 (m_geom_it (dec s)) ->
  collection_of MaxGeometricAttributes (m_attr_it (dec s)) = Ok attrs ->
  forall raws : list raw_path,
  m_geom_it (dec s) = flat_map raw_ring_words raws ->
  Forall (fun raw => Z.of_nat (length (snd raw))
                       <= m_max_count (dec s)
                     /\ 1 <= m_max_count (dec s)) raws ->
  exists s',
    decode_polygon Dimensions MaxGeometricAttributes convert s
    = (Ok tt, s')
    /\ calls s'
       = calls s
         ++ flat_map (ring_calls convert)
              (fst (paths_of Dimensions T
                      (mk_reader (m_cursor (dec s))
                                 (m_elev_it (dec s)) attrs)
                      raws)).
Proof.
  intros Hc Hu Ha.
  intros raws Hg Hb.
  assert (Hn : Forall (fun raw => Z.of_nat (length (snd raw)) < 2 ^ 29) raws).
  { apply (raw_words_counts raw_ring_words).
    - intros raw. eexists. reflexivity.
    - rewrite <- Hg. exact Hu. }
  unfold decode_polygon.
  erewrite bind_step;
    [|rewrite new_geom_attributes_collection, Ha; reflexivity].
  cbn [dec].
  destruct (while_move_to_run Dimensions T
              (decode_polygon_body Dimensions convert)
              raw_ring_words (ring_calls convert)
              (fun m raw => (Z.of_nat (length (snd raw)) <= m /\ 1 <= m)
                            /\ Z.of_nat (length (snd raw)) < 2 ^ 29)
              ltac:(intros s0 raw rest H0 Hg0 [[Hb0 Hm0] Hn0];
                    exact (decode_polygon_body_run Dimensions T convert
                             s0 raw rest H0 Hg0 Hb0 Hm0 Hn0))
              raws (S (length (m_geom_it (dec s))))
              (mk_machine (dec s) attrs (calls s)) Hc Hg)
    as (s' & Hw & Hcs & _).
  - cbn [dec]. rewrite Forall_forall in Hb, Hn. apply Forall_forall.
    intros raw Hin. split; [exact (Hb raw Hin)|exact (Hn raw Hin)].
  - rewrite Hg.
    pose proof (raws_length raw_ring_words raws
                  ltac:(intros raw; unfold raw_ring_words,
                          raw_linestring_words; discriminate)).
    lia.
  - exists s'. split; [exact Hw|exact Hcs].
Qed.

(** X6.  The streams the polygon driver accepts.  On a decoder whose
    count is 0 and whose attribute stream the collection accepts, the
    polygon driver returns exactly on the streams that are a sequence
    (empty or not) of: a MoveTo of count 1, two parameter integers, a
    LineTo of a count n from 0 to the maximum (the maximum being 1 or
    more), 2 n parameter integers and a ClosePath of count 1.  A ring
    need not have three points, and the elevations play no part.  The
    calls it makes on such a stream are those of the rings of the
    stream. *)
Theorem polygon_driver_accepts_exactly :
  forall (s : machine T) (attrs : list Attr.geometric_attribute),
    m_count (dec s) = 0 ->
    Forall Int.is_u32 (m_geom_it (dec s)) ->
    collection_of MaxGeometricAttributes (m_attr_it (dec s)) = Ok attrs ->
    ((exists s', decode_polygon Dimensions MaxGeometricAttributes convert s
                 = (Ok tt, s'))
     <-> (exists raws : list raw_path,
             m_geom_it (dec s) = flat_map raw_ring_words raws
             /\ Forall (fun raw => Z.of_nat (length (snd raw))
                                     <= m_max_count (dec s)
                                   /\ 1 <= m_max_count (dec s)) raws))
    /\ (forall raws : list raw_path,
           m_geom_it (dec s) = flat_map raw_ring_words raws ->
           Forall (fun raw => Z.of_nat (length (snd raw))
                                <= m_max_count (dec s)
                              /\ 1 <= m_max_count (dec s)) raws ->
           exists s',
             decode_polygon Dimensions MaxGeometricAttributes convert s
             = (Ok tt, s')
             /\ calls s'
                = calls s
                  ++ flat_map (ring_calls convert)
                       (fst (paths_of Dimensions T
                               (mk_reader (m_cursor (dec s))
                                          (m_elev_it (dec s)) attrs)
                               raws))).
Proof.
  intros s attrs Hc Hu Ha.
  pose proof (decode_polygon_run s attrs Hc Hu Ha) as Hfwd.
  split; [|exact Hfwd]. split.
  - intros (s' & H).
    destruct (decode_polygon_ok _ _ _ _ s s' H Hu)
      as (attrs' & ps & _ & Hg & _ & _ & Hq).
    exists (map raw_of_path ps). split.
    + rewrite Hg. apply flat_map_raw.
      exact (ring_words_raw T).
    + apply Forall_map. eapply Forall_impl; [|exact Hq]. cbv beta.
      intros p Hp. unfold raw_of_path. cbn [snd].
      rewrite length_map. exact Hp.
  - intros (raws & Hg & Hb). destruct (Hfwd raws Hg Hb) as (s' & H & _).
    exists s'. exact H.
Qed.

(** The point driver on the stream of one MoveTo and its points. *)
Lemma decode_point_run (s : machine T) (attrs : list Attr.geometric_attribute) :
  m_count (dec s) = 0 ->
  Forall Int.is_u32 (m_geom_it (dec s)) ->
  collection_of MaxGeometricAttributes (m_attr_it (dec s)) = Ok attrs ->
  forall params : list (Z * Z),
  m_geom_it (dec s) = raw_points_words params ->
  1 <= Z.of_nat (length params) <= m_max_count (dec s) ->
  (if Dimensions =? 3
   then (length (m_elev_it (dec s)) <= length params)%nat
   else m_elev_it (dec s) = []) ->
  exists s',
    decode_point Dimensions MaxGeometricAttributes convert s
    = (Ok tt, s')
    /\ calls s'
       = calls s
         ++ points_calls convert
              (fst (vertices_of Dimensions T
                      (mk_reader (m_cursor (dec s))
                                 (m_elev_it (dec s)) attrs)
                      params)).
Proof.
  intros Hc Hu Ha.
  intros params Hg Hb He.
  unfold raw_points_words in Hg.
  assert (Hn : Z.of_nat (length params) < 2 ^ 29).
  { rewrite Hg in Hu. inversion Hu as [|? ? Hw _].
    exact (command_integer_u32_count _ _ Hw). }
  destruct (while_count_run Dimensions T convert unit points_point
              (fun a _ => a)
              (fun _ : unit =>
                 p <- next_point Dimensions ;;
                 call (points_point (convert p)) ;;
                 for_geom_attributes)
              (fun a0 s5 => unit_body_eq Dimensions T convert
                              points_point a0 s5)
              params (S (Z.to_nat (Z.of_nat (length params)))) tt
              (mk_machine
                 (mk_decoder (param_words params) (m_elev_it (dec s))
                             (m_attr_it (dec s)) (m_cursor (dec s))
                             (m_max_count (dec s))
                             (Z.of_nat (length params)))
                 attrs
                 (calls s ++ [points_begin (Z.of_nat (length params))]))
              [] ltac:(cbn [dec m_geom_it]; rewrite app_nil_r; reflexivity)
              eq_refl ltac:(cbn [dec m_count]; lia) ltac:(lia))
    as (s5 & Hw & Hg5 & Hc5 & Hr5 & Hcs5 & Hf5).
  match type of Hr5 with
  | _ = snd (vertices_of _ _ ?r _) =>
      change r with (mk_reader (m_cursor (dec s)) (m_elev_it (dec s)) attrs)
        in Hr5, Hcs5
  end.
  assert (Hel : m_elev_it (dec s5) = []).
  { pose proof (vertices_of_decoded Dimensions T params
                  (mk_reader (m_cursor (dec s)) (m_elev_it (dec s)) attrs))
      as [Hd _].
    apply decoded_elevations in Hd. rewrite <- Hr5 in Hd.
    cbn [r_elev reader_of] in Hd. rewrite Hd.
    rewrite vertices_of_length.
    destruct (Dimensions =? 3); [|exact He].
    apply skipn_all2. exact He. }
  eexists.
  unfold decode_point, decode_point_points.
  erewrite bind_step.
  2:{ erewrite bind_step;
        [|exact (next_command_run T MOVE_TO s _ _ Hc Hg
                   ltac:(cbn; lia))].
      cbn [negb]. rewrite bind_count. cbn [dec m_count].
      replace (Z.of_nat (length params) =? 0) with false
        by (symmetry; apply Z.eqb_neq; lia).
      erewrite bind_step;
        [|rewrite new_geom_attributes_collection; cbn [dec m_attr_it];
          rewrite Ha; reflexivity].
      rewrite bind_count, bind_call, bind_count.
      cbn [dec m_count geom_attributes calls].
      exact Hw. }
  unfold bind at 1, done at 1. unfold done_of. rewrite Hg5, Hel.
  cbn [negb]. rewrite call_ok.
  split; [reflexivity|]. cbn [calls]. rewrite Hcs5. cbn [calls].
  unfold points_calls. rewrite vertices_of_length, <- !app_assoc.
  reflexivity.
Qed.

(** X7.  The streams the point driver accepts.  On a decoder whose count
    is 0 and whose attribute stream the collection accepts, the point
    driver returns exactly on the streams that are one MoveTo of a count n
    from 1 to the maximum followed by 2 n parameter integers and nothing
    else, with an elevation stream the points use up.  The calls it makes
    on such a stream are those of the vertices of the stream. *)
Theorem point_driver_accepts_exactly :
  forall (s : machine T) (attrs : list Attr.geometric_attribute),
    m_count (dec s) = 0 ->
    Forall Int.is_u32 (m_geom_it (dec s)) ->
    collection_of MaxGeometricAttributes (m_attr_it (dec s)) = Ok attrs ->
    ((exists s', decode_point Dimensions MaxGeometricAttributes convert s
                 = (Ok tt, s'))
     <-> (exists params : list (Z * Z),
             m_geom_it (dec s) = raw_points_words params
             /\ 1 <= Z.of_nat (length params) <= m_max_count (dec s)
             /\ if Dimensions =? 3
                then (length (m_elev_it (dec s)) <= length params)%nat
                else m_elev_it (dec s) = []))
    /\ (forall params : list (Z * Z),
           m_geom_it (dec s) = raw_points_words params ->
           1 <= Z.of_nat (length params) <= m_max_count (dec s) ->
           (if Dimensions =? 3
            then (length (m_elev_it (dec s)) <= length params)%nat
            else m_elev_it (dec s) = []) ->
           exists s',
             decode_point Dimensions MaxGeometricAttributes convert s
             = (Ok tt, s')
             /\ calls s'
                = calls s
                  ++ points_calls convert
                       (fst (vertices_of Dimensions T
                               (mk_reader (m_cursor (dec s))
                                          (m_elev_it (dec s)) attrs)
                               params))).
Proof.
  intros s attrs Hc Hu Ha.
  pose proof (decode_point_run s attrs Hc Hu Ha) as Hfwd.
  split; [|exact Hfwd]. split.
  - intros (s' & H).
    destruct (decode_point_ok _ _ _ _ s s' H Hu)
      as (attrs' & vs & _ & Hg & _ & Hd & Hq & He).
    exists (map raw_of_vertex vs). rewrite length_map.
    split; [|split; [exact Hq|]].
    + rewrite Hg. unfold points_words, raw_points_words.
      rewrite length_map, param_words_vertices. reflexivity.
    + apply decoded_elevations in Hd. cbn [r_elev reader_of] in Hd.
      rewrite He in Hd. destruct (Dimensions =? 3); [|symmetry; exact Hd].
      apply (f_equal (@length Z)) in Hd. rewrite length_skipn in Hd.
      cbn [length] in Hd. lia.
  - intros (params & Hg & Hb & He).
    destruct (Hfwd params Hg Hb He) as (s' & H & _).
    exists s'. exact H.
Qed.

End Accepts.

(** ** No assertion of the decoder fails *)

Lemma skip_values_raises (fuel : nat) :
  forall (c : Z) (it : list Z) (e : exception),
    Attr.skip_values fuel c it = Throw e -> exists msg, e = format_exception msg.
Proof.
  induction fuel as [|fuel IH]; intros c it e H; [discriminate H|].
  cbn [Attr.skip_values] in H.
  destruct (c >? 0); [|discriminate H].
  destruct (negb (Int.u64 (c - 1) =? 0)
            && match Attr.next it with [] => true | _ => false end).
  - injection H as <-. eexists. reflexivity.
  - exact (IH _ _ _ H).
Qed.

Lemma collect_raises (fuel : nat) :
  forall (Max : nat) (it : list Z) (filled : list Attr.geometric_attribute)
         (e : exception),
    Attr.collect fuel Max it filled = Throw e ->
    exists msg, e = format_exception msg.
Proof.
  induction fuel as [|fuel IH]; intros Max it filled e H; [discriminate H|].
  cbn [Attr.collect] in H.
  destruct it as [|cv it]; [discriminate H|].
  destruct (negb (length filled <? Max)%nat); [discriminate H|].
  destruct (negb (Z.land cv 15 =? 10));
    [injection H as <-; eexists; reflexivity|].
  destruct it as [|c it]; [injection H as <-; eexists; reflexivity|].
  destruct it as [|sc it]; [injection H as <-; eexists; reflexivity|].
  destruct it as [|v it]; [injection H as <-; eexists; reflexivity|].
  destruct (Attr.skip_values (S (length (v :: it))) c (v :: it))
    as [it'|e'|] eqn:E; [|injection H as <-|discriminate H].
  - exact (IH _ _ _ _ H).
  - exact (skip_values_raises _ _ _ _ E).
Qed.

Lemma collection_raises (Max : nat) (it : list Z) (e : exception) :
  Attr.collection Max it = Throw e -> exists msg, e = format_exception msg.
Proof.
  unfold Attr.collection.
  destruct (Attr.collect (S (length it)) Max it []) as [f|e'|] eqn:E;
    intros H; [discriminate H| |discriminate H].
  injection H as <-. exact (collect_raises _ _ _ _ _ E).
Qed.

Section Ends.

Variable Dimensions : Z.
Variable MaxGeometricAttributes : nat.
Variable T : Type.
Variable convert : unscaled_point -> T.
Variable attr : attr_iterator.

Lemma bind_ends_well {A B : Type} (m : M T A) (f : A -> M T B)
      (s : machine T) :
  ends_well attr (fst (m s)) ->
  (forall a s1, m s = (Ok a, s1) -> ends_well attr (fst (f a s1))) ->
  ends_well attr (fst (bind m f s)).
Proof.
  unfold bind. destruct (m s) as [[a|e|] s1]; cbn [fst]; intros H1 H2.
  - apply H2. reflexivity.
  - exact H1.
  - exact H1.
Qed.

Lemma next_command_ends_well (e : CommandId) (s : machine T) :
  m_count (dec s) = 0 -> ends_well attr (fst (next_command e s)).
Proof.
  intros Hc. unfold next_command. rewrite Hc. cbn [Z.eqb negb].
  destruct (m_geom_it (dec s)) as [|w rest]; [exact I|].
  destruct (negb _); [exact I|].
  destruct e; repeat (destruct (negb _) || destruct (_ >? _)); exact I.
Qed.

Lemma next_point_ends_well (s : machine T) :
  0 < m_count (dec s) -> ends_well attr (fst (next_point Dimensions s)).
Proof.
  intros Hc. unfold next_point.
  replace (m_count (dec s) >? 0) with true
    by (symmetry; rewrite Z.gtb_ltb; apply Z.ltb_lt; exact Hc).
  cbn [negb].
  destruct (m_geom_it (dec s)) as [|px [|py rest]]; exact I.
Qed.

Lemma vertex_body_ends_well {A : Type} (point : T -> handler_call T)
      (f : A -> unscaled_point -> A) (a : A) (s : machine T) :
  0 < m_count (dec s) ->
  ends_well attr (fst (vertex_body Dimensions convert point f a s)).
Proof.
  intros Hc. unfold vertex_body.
  apply bind_ends_well; [exact (next_point_ends_well s Hc)|].
  intros p s1 _. rewrite bind_call, bind_for_geom_attributes. exact I.
Qed.

Section WhileCountEnds.

Variable A : Type.
Variable point : T -> handler_call T.
Variable f : A -> unscaled_point -> A.
Variable body : A -> M T A.
Hypothesis body_eq :
  forall (a : A) (s : machine T),
    body a s = vertex_body Dimensions convert point f a s.

(** The loop [while (count() > 0)] calls [next_point()] on a positive
    count only. *)
Lemma while_count_ends_well (fuel : nat) :
  forall (a : A) (s : machine T),
    (Z.to_nat (m_count (dec s)) < fuel)%nat ->
    m_count (dec s) < 2 ^ 32 ->
    ends_well attr (fst (while_count fuel body a s)).
Proof.
  induction fuel as [|fuel IH]; intros a s Hf Hc; [lia|].
  cbn [while_count]. rewrite bind_count.
  destruct (m_count (dec s) >? 0) eqn:G; [|exact I].
  rewrite Z.gtb_ltb in G. apply Z.ltb_lt in G.
  apply bind_ends_well.
  - rewrite body_eq. exact (vertex_body_ends_well point f a s G).
  - intros a1 s1 Hb. rewrite body_eq in Hb. apply vertex_body_ok in Hb.
    destruct Hb as (v & _ & _ & _ & _ & _ & Hn & _).
    rewrite u32_small in Hn by (unfold Int.is_u32; lia).
    apply IH; lia.
Qed.

End WhileCountEnds.

(** One linestring: the assertions of [next_point()] and of
    [next_command()] hold where the body calls them. *)
Lemma decode_linestring_body_ends_well (s0 s : machine T) :
  next_command MOVE_TO s0 = (Ok true, s) ->
  Forall Int.is_u32 (m_geom_it (dec s0)) ->
  ends_well attr (fst (decode_linestring_body Dimensions convert s)).
Proof.
  intros Hm Hu. apply next_command_true in Hm.
  destruct Hm as (_ & (w & Hg & _) & _).
  rewrite Hg in Hu. inversion Hu as [|? ? _ Hu1]. subst.
  unfold decode_linestring_body. rewrite bind_count.
  destruct (m_count (dec s) =? 1) eqn:E1; cbn [negb]; [|exact I].
  apply Z.eqb_eq in E1.
  apply bind_ends_well; [apply next_point_ends_well; lia|]. intros p s1 Hp.
  apply next_point_ok in Hp.
  destruct Hp as (_ & (px & py & Hg1 & _) & _ & _ & Hc1 & _).
  rewrite E1 in Hc1. change (Int.u32 (1 - 1)) with 0 in Hc1.
  apply bind_ends_well; [exact (next_command_ends_well LINE_TO s1 Hc1)|].
  intros b s2 Hl. destruct b; cbn [negb]; [|exact I].
  apply next_command_true in Hl.
  destruct Hl as (_ & (w2 & Hg2 & _ & Hc2 & _) & _).
  rewrite Hg1 in Hu1. inversion Hu1 as [|? ? _ Hu2]. subst.
  inversion Hu2 as [|? ? _ Hu3]. subst.
  rewrite Hg2 in Hu3. inversion Hu3 as [|? ? Hw2 _]. subst.
  pose proof (get_command_count_range w2 Hw2) as Hrange.
  rewrite bind_count.
  destruct (m_count (dec s2) =? 0); [exact I|].
  rewrite bind_count, bind_call, bind_call, bind_for_geom_attributes,
    bind_count.
  apply bind_ends_well; [|intros [] s3 _; exact I].
  apply (while_count_ends_well unit linestring_point (fun a _ => a)).
  - intros a0 s4. apply unit_body_eq.
  - cbn [dec]. lia.
  - cbn [dec]. lia.
Qed.

(** One ring, likewise; the count is 0 again when the body reads the
    ClosePath. *)
Lemma decode_polygon_body_ends_well (s0 s : machine T) :
  next_command MOVE_TO s0 = (Ok true, s) ->
  Forall Int.is_u32 (m_geom_it (dec s0)) ->
  ends_well attr (fst (decode_polygon_body Dimensions convert s)).
Proof.
  intros Hm Hu. apply next_command_true in Hm.
  destruct Hm as (_ & (w & Hg & _) & _).
  rewrite Hg in Hu. inversion Hu as [|? ? _ Hu1]. subst.
  unfold decode_polygon_body. rewrite bind_count.
  destruct (m_count (dec s) =? 1) eqn:E1; cbn [negb]; [|exact I].
  apply Z.eqb_eq in E1.
  apply bind_ends_well; [apply next_point_ends_well; lia|]. intros p s1 Hp.
  apply next_point_ok in Hp.
  destruct Hp as (_ & (px & py & Hg1 & _) & _ & _ & Hc1 & _).
  rewrite E1 in Hc1. change (Int.u32 (1 - 1)) with 0 in Hc1.
  apply bind_ends_well; [exact (next_command_ends_well LINE_TO s1 Hc1)|].
  intros b s2 Hl. destruct b; cbn [negb]; [|exact I].
  apply next_command_true in Hl.
  destruct Hl as (_ & (w2 & Hg2 & _ & Hc2 & _) & _).
  rewrite Hg1 in Hu1. inversion Hu1 as [|? ? _ Hu2]. subst.
  inversion Hu2 as [|? ? _ Hu3]. subst.
  rewrite Hg2 in Hu3. inversion Hu3 as [|? ? Hw2 _]. subst.
  pose proof (get_command_count_range w2 Hw2) as Hrange.
  rewrite bind_count, bind_call, bind_call, bind_for_geom_attributes,
    bind_count.
  apply bind_ends_well.
  - apply (while_count_ends_well (Z * unscaled_point)%type ring_point
             ring_sum_step).
    + intros a0 s4. apply ring_body_eq.
    + cbn [dec]. lia.
    + cbn [dec]. lia.
  - intros [sum last_point] s3 Hw.
    apply (while_count_ok Dimensions T convert (Z * unscaled_point)%type
             ring_point ring_sum_step) in Hw;
      [|intros a0 s5; apply ring_body_eq|cbn [dec]; lia].
    destruct Hw as (_ & _ & Hc3 & _).
    apply bind_ends_well; [exact (next_command_ends_well CLOSE_PATH s3 Hc3)|].
    intros b' s4 _. destruct b'; cbn [negb]; [|exact I].
    rewrite bind_call. exact I.
Qed.

Section WhileMoveToEnds.

Variable body : M T unit.
Variable words : path T -> list Z.

Hypothesis body_shape :
  forall s0 s s' : machine T,
    next_command MOVE_TO s0 = (Ok true, s) ->
    body s = (Ok tt, s') ->
    Forall Int.is_u32 (m_geom_it (dec s0)) ->
    exists p : path T,
      m_geom_it (dec s0) = words p ++ m_geom_it (dec s')
      /\ m_count (dec s') = 0.

Hypothesis body_ends_well :
  forall s0 s : machine T,
    next_command MOVE_TO s0 = (Ok true, s) ->
    Forall Int.is_u32 (m_geom_it (dec s0)) ->
    ends_well attr (fst (body s)).

Hypothesis words_not_nil : forall p : path T, words p <> [].

(** The loop [while (next_command(CommandId::MOVE_TO))] reads a command
    on a count of 0 only. *)
Lemma while_move_to_ends_well (fuel : nat) :
  forall s : machine T,
    (length (m_geom_it (dec s)) < fuel)%nat ->
    Forall Int.is_u32 (m_geom_it (dec s)) ->
    m_count (dec s) = 0 ->
    ends_well attr (fst (while_move_to fuel body s)).
Proof.
  induction fuel as [|fuel IH]; intros s Hf Hu Hc; [lia|].
  cbn [while_move_to].
  apply bind_ends_well; [exact (next_command_ends_well MOVE_TO s Hc)|].
  intros b s1 Hm. destruct b; [|exact I].
  apply bind_ends_well; [exact (body_ends_well s s1 Hm Hu)|].
  intros [] s2 Hb.
  destruct (body_shape s s1 s2 Hm Hb Hu) as (p & Hg & Hc2).
  pose proof (words_not_nil p) as Hne.
  destruct (words p) as [|w' l]; [exfalso; exact (Hne eq_refl)|].
  apply IH.
  - rewrite Hg in Hf. cbn [length app] in Hf. rewrite length_app in Hf. lia.
  - rewrite Hg in Hu. exact (Forall_u32_app _ _ Hu).
  - exact Hc2.
Qed.

End WhileMoveToEnds.

Lemma new_geom_attributes_ends_well (s : machine T) :
  ends_well (m_attr_it (dec s))
            (fst (new_geom_attributes MaxGeometricAttributes s)).
Proof.
  unfold new_geom_attributes. destruct (m_attr_it (dec s)) as [|it] eqn:Ea.
  - exact I.
  - destruct (collection_total MaxGeometricAttributes it)
      as [(attrs & E)|(e & E)]; rewrite E; cbn [fst]; [exact I|].
    destruct (collection_raises _ _ _ E) as (msg & ->).
    cbn. discriminate.
Qed.

End Ends.

Section EndsOfDrivers.

Variable Dimensions : Z.
Variable MaxGeometricAttributes : nat.
Variable T : Type.
Variable convert : unscaled_point -> T.

Lemma decode_point_ends_well (s : machine T) :
  m_count (dec s) = 0 ->
  Forall Int.is_u32 (m_geom_it (dec s)) ->
  ends_well (m_attr_it (dec s))
            (fst (decode_point Dimensions MaxGeometricAttributes convert s)).
Proof.
  intros Hc Hu. unfold decode_point, decode_point_points.
  apply bind_ends_well; [|intros [] s1 _].
  - apply bind_ends_well; [exact (next_command_ends_well T _ MOVE_TO s Hc)|].
    intros b s1 Hm. destruct b; cbn [negb]; [|exact I].
    apply next_command_true in Hm.
    destruct Hm as (_ & (w & Hg & _ & Hc1 & _) & _ & _ & Hfr & _).
    rewrite Hg in Hu. inversion Hu as [|? ? Hw _]. subst.
    pose proof (get_command_count_range w Hw) as Hrange.
    rewrite bind_count.
    destruct (m_count (dec s1) =? 0); [exact I|].
    apply bind_ends_well.
    + rewrite <- Hfr.
      exact (new_geom_attributes_ends_well MaxGeometricAttributes T s1).
    + intros [] s2 Hn.
      pose proof (new_geom_attributes_ok _ _ s1 s2 Hn) as [Hs2 _].
      rewrite bind_count, bind_call, bind_count.
      apply (while_count_ends_well Dimensions T convert _ unit points_point
               (fun a _ => a)).
      * intros a0 s4. apply unit_body_eq.
      * cbn [dec]. lia.
      * cbn [dec]. rewrite Hs2. cbn [dec]. lia.
  - unfold bind, done. destruct (negb (done_of (dec s1))); exact I.
Qed.

Lemma decode_linestring_ends_well (s : machine T) :
  m_count (dec s) = 0 ->
  Forall Int.is_u32 (m_geom_it (dec s)) ->
  ends_well (m_attr_it (dec s))
            (fst (decode_linestring Dimensions MaxGeometricAttributes
                                    convert s)).
Proof.
  intros Hc Hu. unfold decode_linestring.
  apply bind_ends_well;
    [exact (new_geom_attributes_ends_well MaxGeometricAttributes T s)|].
  intros [] s1 Hn.
  pose proof (new_geom_attributes_ok _ _ s s1 Hn) as [Hs1 _].
  apply (while_move_to_ends_well T _
           (decode_linestring_body Dimensions convert) linestring_words).
  - intros s0 s2 s3 Hm Hb Hu0.
    destruct (decode_linestring_body_ok Dimensions T convert s0 s2 s3
                Hm Hb Hu0)
      as (p & Hg & _ & _ & _ & _ & Hc3 & _).
    exists p. split; [exact Hg|exact Hc3].
  - intros s0 s2 Hm Hu0.
    exact (decode_linestring_body_ends_well Dimensions T convert _ s0 s2
             Hm Hu0).
  - apply linestring_words_not_nil.
  - lia.
  - rewrite Hs1. cbn [dec]. exact Hu.
  - rewrite Hs1. cbn [dec]. exact Hc.
Qed.

Lemma decode_polygon_ends_well (s : machine T) :
  m_count (dec s) = 0 ->
  Forall Int.is_u32 (m_geom_it (dec s)) ->
  ends_well (m_attr_it (dec s))
            (fst (decode_polygon Dimensions MaxGeometricAttributes
                                 convert s)).
Proof.
  intros Hc Hu. unfold decode_polygon.
  apply bind_ends_well;
    [exact (new_geom_attributes_ends_well MaxGeometricAttributes T s)|].
  intros [] s1 Hn.
  pose proof (new_geom_attributes_ok _ _ s s1 Hn) as [Hs1 _].
  apply (while_move_to_ends_well T _
           (decode_polygon_body Dimensions convert) ring_words).
  - intros s0 s2 s3 Hm Hb Hu0.
    destruct (decode_polygon_body_ok Dimensions T convert s0 s2 s3
                Hm Hb Hu0)
      as (p & Hg & _ & _ & _ & _ & Hc3 & _).
    exists p. split; [exact Hg|exact Hc3].
  - intros s0 s2 Hm Hu0.
    exact (decode_polygon_body_ends_well Dimensions T convert _ s0 s2
             Hm Hu0).
  - apply ring_words_not_nil.
  - lia.
  - rewrite Hs1. cbn [dec]. exact Hu.
  - rewrite Hs1. cbn [dec]. exact Hc.
Qed.

(** X8.  No assertion of the decoder fails.  On a decoder whose count is
    0, whatever its three streams hold (the geometry integers being
    unsigned 32 bit integers), each of the three drivers returns or raises
    an exception for the input: a geometry exception, or a format
    exception of the attribute stream, which is not raised on the
    [dummy_attr_iterator].  The assertions [m_count == 0] of
    [next_command()] and [m_count > 0] of [next_point()] hold at every
    call the drivers make, and every loop ends. *)
Theorem drivers_end_well :
  forall s : machine T,
    m_count (dec s) = 0 ->
    Forall Int.is_u32 (m_geom_it (dec s)) ->
    ends_well (m_attr_it (dec s))
              (fst (decode_point Dimensions MaxGeometricAttributes convert s))
    /\ ends_well (m_attr_it (dec s))
                 (fst (decode_linestring Dimensions MaxGeometricAttributes
                                         convert s))
    /\ ends_well (m_attr_it (dec s))
                 (fst (decode_polygon Dimensions MaxGeometricAttributes
                                      convert s)).
Proof.
  intros s Hc Hu. split; [|split].
  - exact (decode_point_ends_well s Hc Hu).
  - exact (decode_linestring_ends_well s Hc Hu).
  - exact (decode_polygon_ends_well s Hc Hu).
Qed.

End EndsOfDrivers.

(** ** The entry points *)

Lemma param_words_length (params : list (Z * Z)) :
  length (param_words params) = (2 * length params)%nat.
Proof.
  unfold param_words.
  induction params as [|param params IH]; cbn [flat_map length app];
    [reflexivity|].
  rewrite IH. lia.
Qed.

Lemma flat_map_length_in {A B : Type} (f : A -> list B) (a : A) (l : list A) :
  In a l -> (length (f a) <= length (flat_map f l))%nat.
Proof.
  induction l as [|b l IH]; intros Hin; [destruct Hin|].
  cbn [flat_map]. rewrite length_app. destruct Hin as [->|Hin].
  - lia.
  - specialize (IH Hin). lia.
Qed.

Lemma raw_linestring_words_length (raw : raw_path) :
  length (raw_linestring_words raw) = (4 + 2 * length (snd raw))%nat.
Proof.
  unfold raw_linestring_words. cbn [length].
  rewrite param_words_length. lia.
Qed.

(** Vertices decoded in two dimensions by a reader without attributes:
    the elevation stays what it was and no attribute is passed. *)
Lemma decoded_plain (T : Type) (vs : list (vertex T)) :
  forall r r' : reader,
    decoded 2 r vs r' ->
    r_attrs r = [] ->
    Forall (fun v => v_calls v = [] /\ z (v_point v) = z (r_cursor r)) vs.
Proof.
  induction vs as [|v vs IH]; intros r r' Hd Ha; [constructor|].
  cbn [decoded] in Hd. destruct Hd as (Hp & Hcs & Hd).
  assert (Hz : z (v_point v) = z (r_cursor r)).
  { rewrite Hp. unfold move_cursor. cbn [z].
    destruct (r_elev r); reflexivity. }
  constructor.
  - split; [|exact Hz]. rewrite Hcs, Ha. reflexivity.
  - apply IH in Hd.
    + eapply Forall_impl; [|exact Hd]. cbv beta. intros u [H1 H2].
      split; [exact H1|]. rewrite H2. unfold reader_after. cbn [r_cursor].
      exact Hz.
    + unfold reader_after. cbn [r_attrs]. rewrite Ha. reflexivity.
Qed.

Section Entry.

Variable T : Type.
Variable convert : unscaled_point -> T.

Lemma geometry_decoder_small (geom : list Z) (max : Z) :
  0 <= max <= max_command_count ->
  geometry_decoder geom max
  = Ok (mk_decoder geom [] dummy_attr_iterator (mk_unscaled_point 0 0 0)
                   max 0).
Proof.
  intros Hm. unfold geometry_decoder, construct, initial.
  replace (max <=? max_command_count) with true
    by (symmetry; apply Z.leb_le; lia).
  rewrite u32_small; [reflexivity|].
  unfold Int.is_u32, max_command_count in *. lia.
Qed.

Lemma geometry_decoder_ok (geom : list Z) (max : Z)
      (d : extended_geometry_decoder) :
  geometry_decoder geom max = Ok d ->
  m_geom_it d = geom /\ m_elev_it d = [] /\ m_attr_it d = dummy_attr_iterator
  /\ m_cursor d = mk_unscaled_point 0 0 0 /\ m_count d = 0.
Proof.
  unfold geometry_decoder, construct.
  destruct (max <=? max_command_count); [|discriminate].
  intros H. injection H as H. subst d. cbn. auto.
Qed.

Lemma run_ok (d : outcome extended_geometry_decoder) (driver : M T unit)
      (cs : list (handler_call T)) :
  run d driver = (Ok tt, cs) ->
  exists d' s', d = Ok d' /\ driver (start d') = (Ok tt, s') /\ cs = calls s'.
Proof.
  unfold run. destruct d as [d'|e|]; [|discriminate|discriminate].
  destruct (driver (start d')) as [o s'] eqn:E. intros H.
  injection H as -> <-. exists d', s'. auto.
Qed.

(** X9.  The entry points accept the grammar.  For a geometry whose
    integers are unsigned 32 bit integers encoded in one byte or more
    each, and of less than 2^30 bytes, [decode_point_geometry] returns
    exactly when the type is POINT and the integers are one MoveTo of a
    count of 1 or more and its points; [decode_linestring_geometry]
    exactly when the type is LINESTRING and the integers are a sequence
    of linestrings, each a MoveTo of count 1, a point, a LineTo of a count
    of 1 or more and its points; [decode_polygon_geometry] exactly when
    the type is POLYGON and the integers are a sequence of rings, each a
    MoveTo of count 1, a point, a LineTo and its points and a ClosePath
    of count 1.  The maximum count the entry points pass, half the number
    of bytes, rejects none of these.  The calls the handler receives are
    those of the vertices decoded from the origin, without elevations and
    attributes. *)
Theorem entry_points_accept_the_grammar :
  forall g : geometry,
    Forall Int.is_u32 (geometry_integers g) ->
    Z.of_nat (length (geometry_integers g)) <= data_size g ->
    data_size g / 2 <= max_command_count ->
    (forall cs,
        decode_point_geometry convert g = (Ok tt, cs)
        <-> geometry_type g = POINT
            /\ exists params : list (Z * Z),
                geometry_integers g = raw_points_words params
                /\ params <> []
                /\ cs = points_calls convert
                          (fst (vertices_of 2 T plain_reader params)))
    /\ (forall cs,
           decode_linestring_geometry convert g = (Ok tt, cs)
           <-> geometry_type g = LINESTRING
               /\ exists raws : list raw_path,
                   geometry_integers g = flat_map raw_linestring_words raws
                   /\ Forall (fun raw => snd raw <> []) raws
                   /\ cs = flat_map (linestring_calls convert)
                             (fst (paths_of 2 T plain_reader raws)))
    /\ (forall cs,
           decode_polygon_geometry convert g = (Ok tt, cs)
           <-> geometry_type g = POLYGON
               /\ exists raws : list raw_path,
                   geometry_integers g = flat_map raw_ring_words raws
                   /\ cs = flat_map (ring_calls convert)
                             (fst (paths_of 2 T plain_reader raws))).
Proof.
  intros g Hu Hl Hs.
  assert (Hm : 0 <= data_size g / 2 <= max_command_count).
  { split; [apply Z.div_pos; lia|exact Hs]. }
  pose proof (geometry_decoder_small (geometry_integers g) _ Hm) as Hd.
  set (d := mk_decoder (geometry_integers g) [] dummy_attr_iterator
                       (mk_unscaled_point 0 0 0) (data_size g / 2) 0) in Hd.
  assert (Hfp : forall params : list (Z * Z),
             geometry_integers g = raw_points_words params ->
             params <> [] ->
             exists s',
               decode_point 2 0 convert (start d) = (Ok tt, s')
               /\ calls s'
                  = points_calls convert
                      (fst (vertices_of 2 T plain_reader params))).
  { intros params Hg Hne.
    apply (decode_point_run 2 0 T convert (start d) [] eq_refl Hu eq_refl
             params Hg); [|reflexivity].
    cbn [start dec m_max_count].
    rewrite Hg in Hl. unfold raw_points_words in Hl. cbn [length] in Hl.
    rewrite param_words_length in Hl.
    destruct params as [|param params]; [exfalso; exact (Hne eq_refl)|].
    cbn [length] in Hl |- *. split; [lia|].
    apply Z.div_le_lower_bound; lia. }
  assert (Hfl : forall raws : list raw_path,
             geometry_integers g = flat_map raw_linestring_words raws ->
             Forall (fun raw => snd raw <> []) raws ->
             exists s',
               decode_linestring 2 0 convert (start d) = (Ok tt, s')
               /\ calls s'
                  = flat_map (linestring_calls convert)
                      (fst (paths_of 2 T plain_reader raws))).
  { intros raws Hg Hne.
    apply (decode_linestring_run 2 0 T convert (start d) [] eq_refl Hu eq_refl
             raws Hg).
    cbn [start dec m_max_count].
    rewrite Forall_forall in Hne. apply Forall_forall. intros raw Hin.
    pose proof (Hne raw Hin) as Hr.
    pose proof (flat_map_length_in raw_linestring_words raw raws Hin) as Hle.
    rewrite <- Hg, raw_linestring_words_length in Hle.
    destruct (snd raw) as [|param params]; [exfalso; exact (Hr eq_refl)|].
    cbn [length] in Hle |- *. split; [lia|].
    apply Z.div_le_lower_bound; lia. }
  assert (Hfr : forall raws : list raw_path,
             geometry_integers g = flat_map raw_ring_words raws ->
             exists s',
               decode_polygon 2 0 convert (start d) = (Ok tt, s')
               /\ calls s'
                  = flat_map (ring_calls convert)
                      (fst (paths_of 2 T plain_reader raws))).
  { intros raws Hg.
    apply (decode_polygon_run 2 0 T convert (start d) [] eq_refl Hu eq_refl
             raws Hg).
    cbn [start dec m_max_count].
    apply Forall_forall. intros raw Hin.
    pose proof (flat_map_length_in raw_ring_words raw raws Hin) as Hle.
    rewrite <- Hg in Hle. unfold raw_ring_words in Hle.
    rewrite length_app, raw_linestring_words_length in Hle.
    cbn [length] in Hle.
    split; apply Z.div_le_lower_bound; lia. }
  split; [|split]; intros cs; split.
  - unfold decode_point_geometry.
    destruct (geometry_type g); cbn [GeomType_eqb negb]; try discriminate.
    intros H. split; [reflexivity|].
    apply run_ok in H. destruct H as (d' & s' & Hd' & H & ->).
    rewrite Hd in Hd'. injection Hd' as <-.
    destruct (decode_point_ok _ _ _ _ (start d) s' H Hu)
      as (attrs & vs & _ & Hg & _ & _ & Hq & _).
    unfold d in Hg. cbn [start dec m_geom_it] in Hg.
    assert (Hg' : geometry_integers g
                  = raw_points_words (map raw_of_vertex vs)).
    { rewrite Hg. unfold points_words, raw_points_words.
      rewrite length_map, param_words_vertices. reflexivity. }
    assert (Hne : map raw_of_vertex vs <> []).
    { destruct vs; [cbn in Hq; lia|discriminate]. }
    exists (map raw_of_vertex vs).
    split; [exact Hg'|]. split; [exact Hne|].
    destruct (Hfp _ Hg' Hne) as (s'' & H' & Hcs).
    rewrite H in H'. injection H' as <-. exact Hcs.
  - intros (Ht & params & Hg & Hne & ->).
    unfold decode_point_geometry. rewrite Ht. cbn [GeomType_eqb negb].
    rewrite Hd. unfold run.
    destruct (Hfp params Hg Hne) as (s' & H & Hcs).
    rewrite H, Hcs. reflexivity.
  - unfold decode_linestring_geometry.
    destruct (geometry_type g); cbn [GeomType_eqb negb]; try discriminate.
    intros H. split; [reflexivity|].
    apply run_ok in H. destruct H as (d' & s' & Hd' & H & ->).
    rewrite Hd in Hd'. injection Hd' as <-.
    destruct (decode_linestring_ok _ _ _ _ (start d) s' H Hu)
      as (attrs & ps & _ & Hg & _ & _ & Hq).
    unfold d in Hg. cbn [start dec m_geom_it] in Hg.
    assert (Hg' : geometry_integers g
                  = flat_map raw_linestring_words (map raw_of_path ps)).
    { rewrite Hg. apply flat_map_raw. exact (linestring_words_raw T). }
    assert (Hne : Forall (fun raw : raw_path => snd raw <> [])
                         (map raw_of_path ps)).
    { apply Forall_map. eapply Forall_impl; [|exact Hq]. cbv beta.
      intros p [Hp _]. unfold raw_of_path. cbn [snd].
      destruct (p_rest p); [cbn in Hp; lia|discriminate]. }
    exists (map raw_of_path ps).
    split; [exact Hg'|]. split; [exact Hne|].
    destruct (Hfl _ Hg' Hne) as (s'' & H' & Hcs).
    rewrite H in H'. injection H' as <-. exact Hcs.
  - intros (Ht & raws & Hg & Hne & ->).
    unfold decode_linestring_geometry. rewrite Ht. cbn [GeomType_eqb negb].
    rewrite Hd. unfold run.
    destruct (Hfl raws Hg Hne) as (s' & H & Hcs).
    rewrite H, Hcs. reflexivity.
  - unfold decode_polygon_geometry.
    destruct (geometry_type g); cbn [GeomType_eqb negb]; try discriminate.
    intros H. split; [reflexivity|].
    apply run_ok in H. destruct H as (d' & s' & Hd' & H & ->).
    rewrite Hd in Hd'. injection Hd' as <-.
    destruct (decode_polygon_ok _ _ _ _ (start d) s' H Hu)
      as (attrs & ps & _ & Hg & _).
    unfold d in Hg. cbn [start dec m_geom_it] in Hg.
    assert (Hg' : geometry_integers g
                  = flat_map raw_ring_words (map raw_of_path ps)).
    { rewrite Hg. apply flat_map_raw. exact (ring_words_raw T). }
    exists (map raw_of_path ps).
    split; [exact Hg'|].
    destruct (Hfr _ Hg') as (s'' & H' & Hcs).
    rewrite H in H'. injection H' as <-. exact Hcs.
  - intros (Ht & raws & Hg & ->).
    unfold decode_polygon_geometry. rewrite Ht. cbn [GeomType_eqb negb].
    rewrite Hd. unfold run.
    destruct (Hfr raws Hg) as (s' & H & Hcs).
    rewrite H, Hcs. reflexivity.
Qed.

Lemma ends_well_dummy {A : Type} (o : outcome A) :
  ends_well dummy_attr_iterator o ->
  (exists a, o = Ok a) \/ (exists msg, o = Throw (geometry_exception msg)).
Proof.
  destruct o as [a|[msg|msg|msg]|]; cbn; intros H.
  - left. exists a. reflexivity.
  - exfalso. apply H. reflexivity.
  - right. exists msg. reflexivity.
  - destruct H.
  - destruct H.
Qed.

Lemma run_ends_well (d : extended_geometry_decoder) (driver : M T unit) :
  ends_well dummy_attr_iterator (fst (driver (start d))) ->
  (exists cs, run (Ok d) driver = (Ok tt, cs))
  \/ (exists msg cs, run (Ok d) driver = (Throw (geometry_exception msg), cs)).
Proof.
  intros H. unfold run. destruct (driver (start d)) as [o s'].
  cbn [fst] in H. apply ends_well_dummy in H.
  destruct H as [([] & ->)|(msg & ->)].
  - left. eexists. reflexivity.
  - right. eexists. eexists. reflexivity.
Qed.

(** X10.  Dispatch by type.  [decode_geometry] constructs the decoder
    before it looks at the type: for a geometry of 2^30 bytes or more the
    assertion of the constructor fails, whatever the type.  For a smaller
    one it does what the entry point of the type of the geometry does,
    and for a type without a driver raises the geometry exception
    "unknown geometry type" without a call to the handler.  On unsigned
    32 bit integers it then returns or raises a geometry exception,
    nothing else. *)
Theorem decode_geometry_dispatch :
  forall g : geometry,
    (max_command_count < data_size g / 2 ->
     decode_geometry convert g
     = (Throw (assert_error "max <= detail::max_command_count()"), []))
    /\ (data_size g / 2 <= max_command_count ->
        decode_geometry convert g
        = match geometry_type g with
          | POINT => decode_point_geometry convert g
          | LINESTRING => decode_linestring_geometry convert g
          | POLYGON => decode_polygon_geometry convert g
          | UNKNOWN =>
              (Throw (geometry_exception "unknown geometry type"), [])
          end)
    /\ (data_size g / 2 <= max_command_count ->
        Forall Int.is_u32 (geometry_integers g) ->
        (exists cs, decode_geometry convert g = (Ok tt, cs))
        \/ (exists msg cs,
               decode_geometry convert g
               = (Throw (geometry_exception msg), cs))).
Proof.
  intros g. split; [|split].
  - intros Hs. unfold decode_geometry, geometry_decoder, construct.
    replace (data_size g / 2 <=? max_command_count) with false
      by (symmetry; apply Z.leb_gt; exact Hs).
    reflexivity.
  - intros Hs.
    unfold decode_geometry, decode_point_geometry,
      decode_linestring_geometry, decode_polygon_geometry.
    unfold geometry_decoder, construct.
    replace (data_size g / 2 <=? max_command_count) with true
      by (symmetry; apply Z.leb_le; exact Hs).
    destruct (geometry_type g); reflexivity.
  - intros Hs Hu.
    unfold decode_geometry, geometry_decoder, construct.
    replace (data_size g / 2 <=? max_command_count) with true
      by (symmetry; apply Z.leb_le; exact Hs).
    destruct (geometry_type g).
    + right. eexists. eexists. reflexivity.
    + apply run_ends_well.
      exact (decode_point_ends_well 2 0 T convert
               (start (initial (geometry_integers g) []
                               dummy_attr_iterator (data_size g / 2)))
               eq_refl Hu).
    + apply run_ends_well.
      exact (decode_linestring_ends_well 2 0 T convert
               (start (initial (geometry_integers g) []
                               dummy_attr_iterator (data_size g / 2)))
               eq_refl Hu).
    + apply run_ends_well.
      exact (decode_polygon_ends_well 2 0 T convert
               (start (initial (geometry_integers g) []
                               dummy_attr_iterator (data_size g / 2)))
               eq_refl Hu).
Qed.

Lemma points_of_calls_app (cs1 cs2 : list (handler_call T)) :
  points_of_calls (cs1 ++ cs2) = points_of_calls cs1 ++ points_of_calls cs2.
Proof. unfold points_of_calls. apply flat_map_app. Qed.

(** The calls for vertices that pass no attribute, and the points in
    them. *)
Lemma plain_vertex_calls (point : T -> handler_call T)
      (vs : list (vertex T)) :
  (forall t, is_attr_call (point t) = false) ->
  (forall t, points_of_calls [point t] = [t]) ->
  Forall (fun v => v_calls v = [] /\ z (v_point v) = 0) vs ->
  Forall (fun c => is_attr_call c = false)
         (flat_map (vertex_calls convert point) vs)
  /\ points_of_calls (flat_map (vertex_calls convert point) vs)
     = map convert (map v_point vs).
Proof.
  intros Hp1 Hp2 Hv.
  induction Hv as [|v vs [Hv1 Hv2] _ [IH1 IH2]]; [split; [constructor|reflexivity]|].
  cbn [flat_map map]. unfold vertex_calls at 1 3. rewrite Hv1.
  cbn [app]. split.
  - constructor; [apply Hp1|exact IH1].
  - change (point (convert (v_point v))
            :: flat_map (vertex_calls convert point) vs)
      with ([point (convert (v_point v))]
            ++ flat_map (vertex_calls convert point) vs).
    rewrite points_of_calls_app, Hp2, IH2. reflexivity.
Qed.

Lemma plain_paths (pcalls : path T -> list (handler_call T))
      (ppoints : path T -> list unscaled_point) :
  (forall p,
      Forall (fun v => v_calls v = [] /\ z (v_point v) = 0)
             (path_vertices p) ->
      Forall (fun c => is_attr_call c = false) (pcalls p)
      /\ points_of_calls (pcalls p) = map convert (ppoints p)
      /\ Forall (fun q => z q = 0) (ppoints p)) ->
  forall ps : list (path T),
    Forall (fun v => v_calls v = [] /\ z (v_point v) = 0)
           (flat_map path_vertices ps) ->
    Forall (fun c => is_attr_call c = false) (flat_map pcalls ps)
    /\ points_of_calls (flat_map pcalls ps)
       = map convert (flat_map ppoints ps)
    /\ Forall (fun q => z q = 0) (flat_map ppoints ps).
Proof.
  intros Hp ps. induction ps as [|p ps IH]; intros Hv.
  - split; [constructor|]. split; [reflexivity|constructor].
  - cbn [flat_map] in Hv |- *. apply Forall_app in Hv.
    destruct Hv as [Hv1 Hv2].
    destruct (Hp p Hv1) as (P1 & P2 & P3).
    destruct (IH Hv2) as (I1 & I2 & I3).
    split; [apply Forall_app; split; assumption|].
    split; [|apply Forall_app; split; assumption].
    rewrite points_of_calls_app, P2, I2, map_app. reflexivity.
Qed.

Lemma plain_attributes (d : extended_geometry_decoder)
      (attrs : list Attr.geometric_attribute)
      (cs : list (handler_call T)) :
  m_attr_it d = dummy_attr_iterator ->
  new_geom_attributes 0 (start d) = (Ok tt, mk_machine d attrs cs) ->
  attrs = [].
Proof.
  intros Ha. unfold new_geom_attributes. cbn [start dec]. rewrite Ha.
  intros H. injection H as <- _. reflexivity.
Qed.

(** X11.  Plain geometries.  Through [decode_geometry], which decodes in
    two dimensions, without elevations and attributes, the handler of an
    accepted geometry receives no attribute call, and every point it
    receives is the conversion of an unscaled point of elevation 0. *)
Theorem decode_geometry_is_plain :
  forall (g : geometry) (cs : list (handler_call T)),
    Forall Int.is_u32 (geometry_integers g) ->
    decode_geometry convert g = (Ok tt, cs) ->
    Forall (fun c => is_attr_call c = false) cs
    /\ exists points : list unscaled_point,
        points_of_calls cs = map convert points
        /\ Forall (fun q => z q = 0) points.
Proof.
  intros g cs Hu H. unfold decode_geometry in H.
  destruct (geometry_decoder (geometry_integers g) (data_size g / 2))
    as [d|e|] eqn:Hd; [|discriminate H|discriminate H].
  apply geometry_decoder_ok in Hd.
  destruct Hd as (Dg & De & Da & Dc & Dn).
  rewrite <- Dg in Hu.
  destruct (geometry_type g); [discriminate H| | |];
    apply run_ok in H; destruct H as (d' & s' & Hd' & H & ->);
    injection Hd' as <-.
  - destruct (decode_point_ok _ _ _ _ (start d) s' H Hu)
      as (attrs & vs & Hn & _ & Hcs & Hdec & _).
    cbn [start dec calls] in Hn, Hcs, Hdec.
    apply (plain_attributes d attrs [] Da) in Hn. subst attrs.
    apply decoded_plain in Hdec; [|reflexivity].
    cbn [r_cursor] in Hdec. rewrite Dc in Hdec. cbn [z] in Hdec.
    destruct (plain_vertex_calls points_point vs
                ltac:(reflexivity) ltac:(reflexivity) Hdec) as [V1 V2].
    rewrite Hcs. cbn [app]. unfold points_calls. split.
    + constructor; [reflexivity|]. apply Forall_app.
      split; [exact V1|]. constructor; [reflexivity|constructor].
    + exists (map v_point vs). split.
      * change (points_of_calls
                  (points_begin (Z.of_nat (length vs))
                   :: flat_map (vertex_calls convert points_point) vs
                   ++ [points_end]))
          with (points_of_calls
                  (flat_map (vertex_calls convert points_point) vs
                   ++ [points_end])).
        rewrite points_of_calls_app, V2. apply app_nil_r.
      * apply Forall_map. eapply Forall_impl; [|exact Hdec].
        cbv beta. intros v [_ Hz]. exact Hz.
  - destruct (decode_linestring_ok _ _ _ _ (start d) s' H Hu)
      as (attrs & ps & Hn & _ & Hcs & Hdec & _).
    cbn [start dec calls] in Hn, Hcs, Hdec.
    apply (plain_attributes d attrs [] Da) in Hn. subst attrs.
    apply decoded_plain in Hdec; [|reflexivity].
    cbn [r_cursor] in Hdec. rewrite Dc in Hdec. cbn [z] in Hdec.
    destruct (plain_paths (linestring_calls convert)
                (fun p => map v_point (path_vertices p))) with (ps := ps)
      as (P1 & P2 & P3); [|exact Hdec|].
    + intros p Hv.
      destruct (plain_vertex_calls linestring_point (path_vertices p)
                  ltac:(reflexivity) ltac:(reflexivity) Hv) as [V1 V2].
      unfold linestring_calls. split; [|split].
      * constructor; [reflexivity|]. apply Forall_app.
        split; [exact V1|]. constructor; [reflexivity|constructor].
      * change (points_of_calls
                  (linestring_begin (Z.of_nat (length (p_rest p)) + 1)
                   :: flat_map (vertex_calls convert linestring_point)
                        (path_vertices p)
                   ++ [linestring_end]))
          with (points_of_calls
                  (flat_map (vertex_calls convert linestring_point)
                     (path_vertices p)
                   ++ [linestring_end])).
        rewrite points_of_calls_app, V2. apply app_nil_r.
      * apply Forall_map. eapply Forall_impl; [|exact Hv].
        cbv beta. intros v [_ Hz]. exact Hz.
    + rewrite Hcs. cbn [app]. split; [exact P1|].
      eexists. split; [exact P2|exact P3].
  - destruct (decode_polygon_ok _ _ _ _ (start d) s' H Hu)
      as (attrs & ps & Hn & _ & Hcs & Hdec & _).
    cbn [start dec calls] in Hn, Hcs, Hdec.
    apply (plain_attributes d attrs [] Da) in Hn. subst attrs.
    apply decoded_plain in Hdec; [|reflexivity].
    cbn [r_cursor] in Hdec. rewrite Dc in Hdec. cbn [z] in Hdec.
    destruct (plain_paths (ring_calls convert)
                (fun p => map v_point (path_vertices p)
                          ++ [v_point (p_first p)])) with (ps := ps)
      as (P1 & P2 & P3); [|exact Hdec|].
    + intros p Hv.
      destruct (plain_vertex_calls ring_point (path_vertices p)
                  ltac:(reflexivity) ltac:(reflexivity) Hv) as [V1 V2].
      assert (Hz : z (v_point (p_first p)) = 0).
      { unfold path_vertices in Hv. inversion Hv as [|? ? [_ Hz] _].
        exact Hz. }
      unfold ring_calls. split; [|split].
      * constructor; [reflexivity|]. apply Forall_app.
        split; [exact V1|].
        constructor; [reflexivity|]. constructor; [reflexivity|constructor].
      * change (points_of_calls
                  (ring_begin (Z.of_nat (length (p_rest p)) + 2)
                   :: flat_map (vertex_calls convert ring_point)
                        (path_vertices p)
                   ++ [ring_point (convert (v_point (p_first p)));
                       ring_end
                         (ring_type_of_sum
                            (ring_sum (v_point (p_first p))
                                      (map v_point (p_rest p))))]))
          with (points_of_calls
                  (flat_map (vertex_calls convert ring_point)
                     (path_vertices p)
                   ++ [ring_point (convert (v_point (p_first p)));
                       ring_end
                         (ring_type_of_sum
                            (ring_sum (v_point (p_first p))
                                      (map v_point (p_rest p))))])).
        rewrite points_of_calls_app, V2, map_app. reflexivity.
      * apply Forall_app. split.
        -- apply Forall_map. eapply Forall_impl; [|exact Hv].
           cbv beta. intros v [_ Hz']. exact Hz'.
        -- constructor; [exact Hz|constructor].
    + rewrite Hcs. cbn [app]. split; [exact P1|].
      eexists. split; [exact P2|exact P3].
Qed.

End Entry.

(** ** The class of a ring *)

Lemma cross_bound (a b : unscaled_point) :
  within_extent (2 ^ 16) a -> within_extent (2 ^ 16) b ->
  - 2 ^ 33 <= cross a b <= 2 ^ 33.
Proof.
  unfold within_extent, cross. intros [Hxa Hya] [Hxb Hyb].
  assert (H1 : - 2 ^ 32 <= x a * y b <= 2 ^ 32) by nia.
  assert (H2 : - 2 ^ 32 <= x b * y a <= 2 ^ 32) by nia.
  lia.
Qed.

Lemma shoelace_bound (start_point : unscaled_point)
      (rest : list unscaled_point) :
  within_extent (2 ^ 16) start_point ->
  Forall (within_extent (2 ^ 16)) rest ->
  forall last : unscaled_point,
    within_extent (2 ^ 16) last ->
    - ((Z.of_nat (length rest) + 1) * 2 ^ 33)
    <= shoelace start_point last rest
    <= (Z.of_nat (length rest) + 1) * 2 ^ 33.
Proof.
  intros Hs Hrest.
  induction Hrest as [|p rest Hp _ IH]; intros last Hl.
  - cbn [shoelace length]. pose proof (cross_bound last start_point Hl Hs).
    lia.
  - cbn [shoelace length]. rewrite Nat2Z.inj_succ.
    pose proof (cross_bound last p Hl Hp). specialize (IH p Hp). lia.
Qed.

Lemma within_extent_i32 (p : unscaled_point) :
  within_extent (2 ^ 16) p -> Int.is_i32 (x p) /\ Int.is_i32 (y p).
Proof. unfold within_extent, Int.is_i32. lia. Qed.

Section Rings.

Variable Dimensions : Z.
Variable MaxGeometricAttributes : nat.
Variable T : Type.
Variable convert : unscaled_point -> T.

Lemma ring_calls_last (p : path T) :
  last (ring_calls convert p) points_end
  = ring_end (ring_type_of_sum
                (ring_sum (v_point (p_first p)) (map v_point (p_rest p)))).
Proof.
  unfold ring_calls. rewrite app_comm_cons.
  match goal with
  | |- last (?l ++ [?a; ?b]) _ = _ =>
      change (l ++ [a; b]) with (l ++ [a] ++ [b])
  end.
  rewrite app_assoc. apply last_last.
Qed.

Lemma ring_counts (ps : list (path T)) :
  Forall Int.is_u32 (flat_map ring_words ps) ->
  Forall (fun p => Z.of_nat (length (p_rest p)) < 2 ^ 29) ps.
Proof.
  intros Hu.
  rewrite (flat_map_raw ring_words raw_ring_words raw_of_path ps
             (ring_words_raw T)) in Hu.
  apply (raw_words_counts raw_ring_words) in Hu;
    [|intros raw; eexists; reflexivity].
  rewrite Forall_map in Hu. eapply Forall_impl; [|exact Hu]. cbv beta.
  intros p Hp. unfold raw_of_path in Hp. cbn [snd] in Hp.
  rewrite length_map in Hp. exact Hp.
Qed.

(** X12.  The class of a ring of small coordinates.  In an accepted
    polygon, for every ring whose points have both coordinates within
    2^16 of 0, the sum the driver computes does not wrap around, whatever
    the number of points of the ring: the argument of [ring_end] is the
    class of twice the signed area of the ring, outer for a positive
    area, inner for a negative one, invalid for 0. *)
Theorem ring_class_within_extent :
  forall s s' : machine T,
    decode_polygon Dimensions MaxGeometricAttributes convert s = (Ok tt, s') ->
    Forall Int.is_u32 (m_geom_it (dec s)) ->
    exists ps : list (path T),
      m_geom_it (dec s) = flat_map ring_words ps
      /\ calls s' = calls s ++ flat_map (ring_calls convert) ps
      /\ Forall
           (fun p =>
              Forall (fun v => within_extent (2 ^ 16) (v_point v))
                     (path_vertices p) ->
              ring_sum (v_point (p_first p)) (map v_point (p_rest p))
              = twice_signed_area (v_point (p_first p))
                                  (map v_point (p_rest p))
              /\ last (ring_calls convert p) points_end
                 = ring_end (ring_type_of_sum
                               (twice_signed_area
                                  (v_point (p_first p))
                                  (map v_point (p_rest p)))))
           ps.
Proof.
  intros s s' H Hu.
  destruct (decode_polygon_ok _ _ _ _ s s' H Hu)
    as (attrs & ps & _ & Hg & Hcs & _ & _).
  exists ps. split; [exact Hg|]. split; [exact Hcs|].
  rewrite Hg in Hu. apply ring_counts in Hu.
  eapply Forall_impl; [|exact Hu]. cbv beta. intros p Hn Hv.
  unfold path_vertices in Hv. inversion Hv as [|? ? Hv0 Hvr]. subst.
  assert (Hrest : Forall (within_extent (2 ^ 16)) (map v_point (p_rest p))).
  { apply Forall_map. exact Hvr. }
  assert (Hs : ring_sum (v_point (p_first p)) (map v_point (p_rest p))
               = twice_signed_area (v_point (p_first p))
                                   (map v_point (p_rest p))).
  { rewrite ring_sum_shoelace.
    - apply i64_small. unfold twice_signed_area.
      pose proof (shoelace_bound _ _ Hv0 Hrest _ Hv0) as Hb.
      rewrite length_map in Hb. unfold Int.is_i64. lia.
    - exact (proj1 (within_extent_i32 _ Hv0)).
    - exact (proj2 (within_extent_i32 _ Hv0)).
    - eapply Forall_impl; [|exact Hrest]. exact within_extent_i32. }
  split; [exact Hs|]. rewrite ring_calls_last, Hs. reflexivity.
Qed.

(** X13.  Rings of one or two points.  The polygon driver accepts a ring
    whose LineTo has the count 0 or 1; in an accepted polygon the
    argument of [ring_end] for every such ring is invalid. *)
Theorem rings_of_two_points_are_invalid :
  forall s s' : machine T,
    decode_polygon Dimensions MaxGeometricAttributes convert s = (Ok tt, s') ->
    Forall Int.is_u32 (m_geom_it (dec s)) ->
    exists ps : list (path T),
      m_geom_it (dec s) = flat_map ring_words ps
      /\ calls s' = calls s ++ flat_map (ring_calls convert) ps
      /\ Forall
           (fun p =>
              (length (p_rest p) <= 1)%nat ->
              last (ring_calls convert p) points_end = ring_end invalid)
           ps.
Proof.
  intros s s' H Hu.
  destruct (decode_polygon_ok _ _ _ _ s s' H Hu)
    as (attrs & ps & _ & Hg & Hcs & Hd & _).
  exists ps. split; [exact Hg|]. split; [exact Hcs|].
  apply decoded_paths in Hd.
  eapply Forall_impl; [|exact Hd]. cbv beta. intros p Hp Hn.
  assert (Hi : Forall (fun q => Int.is_i32 (x q) /\ Int.is_i32 (y q))
                      (map v_point (path_vertices p))).
  { apply Forall_map. eapply Forall_impl; [|exact Hp].
    intros v (_ & _ & Hx & Hy). auto. }
  unfold path_vertices in Hi. cbn [map] in Hi.
  inversion Hi as [|? ? [Hx Hy] Hrest]. subst.
  rewrite ring_calls_last, ring_sum_shoelace by assumption.
  unfold twice_signed_area.
  destruct (p_rest p) as [|v [|v' vs]]; cbn [map shoelace].
  - replace (cross (v_point (p_first p)) (v_point (p_first p))) with 0
      by (unfold cross; lia).
    reflexivity.
  - replace (cross (v_point (p_first p)) (v_point v)
             + cross (v_point v) (v_point (p_first p))) with 0
      by (unfold cross; lia).
    reflexivity.
  - cbn [length] in Hn. lia.
Qed.

End Rings.

(** ** The attribute calls of linestrings and rings *)

Section PerVertex.

Variable Dimensions : Z.
Variable MaxGeometricAttributes : nat.
Variable T : Type.
Variable convert : unscaled_point -> T.

Lemma attributes_of_start (s : machine T)
      (attrs : list Attr.geometric_attribute) :
  new_geom_attributes MaxGeometricAttributes s
  = (Ok tt, mk_machine (dec s) attrs (calls s)) ->
  length attrs = match m_attr_it (dec s) with
                 | dummy_attr_iterator => O
                 | attr_range _ => MaxGeometricAttributes
                 end.
Proof.
  intros Hn. apply new_geom_attributes_ok in Hn. destruct Hn as [_ Hn].
  cbn [geom_attributes] in Hn.
  destruct (m_attr_it (dec s)) as [|it].
  - rewrite Hn. reflexivity.
  - exact (collection_length _ _ _ Hn).
Qed.

(** X14.  The attribute calls of linestrings and rings.  An accepted
    linestring or polygon geometry is the sequence of the linestrings or
    rings of its geometry stream, and the calls of the driver are the
    calls of these, one after the other.  Every call of
    [linestring_point] and every call of [ring_point] for a point of the
    stream is followed by attribute calls only,
    [MaxGeometricAttributes] of them on an attribute stream, however many
    attributes the stream declares, and none on the
    [dummy_attr_iterator]. *)
Theorem attribute_calls_per_vertex :
  forall s s' : machine T,
    Forall Int.is_u32 (m_geom_it (dec s)) ->
    (decode_linestring Dimensions MaxGeometricAttributes convert s
     = (Ok tt, s') ->
     exists (attrs : list Attr.geometric_attribute) (ps : list (path T)),
       new_geom_attributes MaxGeometricAttributes s
       = (Ok tt, mk_machine (dec s) attrs (calls s))
       /\ m_geom_it (dec s) = flat_map linestring_words ps
       /\ calls s' = calls s ++ flat_map (linestring_calls convert) ps
       /\ decoded Dimensions
            (mk_reader (m_cursor (dec s)) (m_elev_it (dec s)) attrs)
            (flat_map path_vertices ps) (reader_of s')
       /\ Forall
            (fun p =>
               linestring_calls convert p
               = linestring_begin (Z.of_nat (length (p_rest p)) + 1)
                 :: flat_map
                      (fun v => linestring_point (convert (v_point v))
                                :: v_calls v)
                      (path_vertices p)
                 ++ [linestring_end]
               /\ Forall (fun v =>
                            Forall (fun c => is_attr_call c = true)
                                   (v_calls v)
                            /\ length (v_calls v)
                               = match m_attr_it (dec s) with
                                 | dummy_attr_iterator => O
                                 | attr_range _ => MaxGeometricAttributes
                                 end)
                         (path_vertices p))
            ps)
    /\ (decode_polygon Dimensions MaxGeometricAttributes convert s
        = (Ok tt, s') ->
        exists (attrs : list Attr.geometric_attribute) (ps : list (path T)),
          new_geom_attributes MaxGeometricAttributes s
          = (Ok tt, mk_machine (dec s) attrs (calls s))
          /\ m_geom_it (dec s) = flat_map ring_words ps
          /\ calls s' = calls s ++ flat_map (ring_calls convert) ps
          /\ decoded Dimensions
               (mk_reader (m_cursor (dec s)) (m_elev_it (dec s)) attrs)
               (flat_map path_vertices ps) (reader_of s')
          /\ Forall
               (fun p =>
                  ring_calls convert p
                  = ring_begin (Z.of_nat (length (p_rest p)) + 2)
                    :: flat_map
                         (fun v => ring_point (convert (v_point v))
                                   :: v_calls v)
                         (path_vertices p)
                    ++ [ring_point (convert (v_point (p_first p)));
                        ring_end
                          (ring_type_of_sum
                             (ring_sum (v_point (p_first p))
                                       (map v_point (p_rest p))))]
                  /\ Forall (fun v =>
                               Forall (fun c => is_attr_call c = true)
                                      (v_calls v)
                               /\ length (v_calls v)
                                  = match m_attr_it (dec s) with
                                    | dummy_attr_iterator => O
                                    | attr_range _ => MaxGeometricAttributes
                                    end)
                            (path_vertices p))
               ps).
Proof.
  intros s s' Hu. split; intros H.
  - destruct (decode_linestring_ok _ _ _ _ s s' H Hu)
      as (attrs & ps & Hn & Hg & Hcs & Hd & _).
    exists attrs, ps. split; [exact Hn|]. split; [exact Hg|].
    split; [exact Hcs|]. split; [exact Hd|].
    apply attributes_of_start in Hn.
    apply decoded_paths in Hd. cbn [r_attrs] in Hd.
    eapply Forall_impl; [|exact Hd]. cbv beta. intros p Hp.
    split; [reflexivity|].
    eapply Forall_impl; [|exact Hp]. cbv beta.
    intros v (Hc & Hl & _). split; [exact Hc|]. rewrite Hl. exact Hn.
  - destruct (decode_polygon_ok _ _ _ _ s s' H Hu)
      as (attrs & ps & Hn & Hg & Hcs & Hd & _).
    exists attrs, ps. split; [exact Hn|]. split; [exact Hg|].
    split; [exact Hcs|]. split; [exact Hd|].
    apply attributes_of_start in Hn.
    apply decoded_paths in Hd. cbn [r_attrs] in Hd.
    eapply Forall_impl; [|exact Hd]. cbv beta. intros p Hp.
    split; [reflexivity|].
    eapply Forall_impl; [|exact Hp]. cbv beta.
    intros v (Hc & Hl & _). split; [exact Hc|]. rewrite Hl. exact Hn.
Qed.

End PerVertex.

(** ** Rings walked the other way *)

Lemma chain_snoc (rest : list unscaled_point) :
  forall a b : unscaled_point,
    chain a (rest ++ [b]) = chain a rest + cross (last rest a) b.
Proof.
  induction rest as [|p rest IH]; intros a b.
  - cbn [app chain last]. lia.
  - change (chain a ((p :: rest) ++ [b]))
      with (cross a p + chain p (rest ++ [b])).
    rewrite IH, last_cons. cbn [chain]. lia.
Qed.

Lemma shoelace_chain (start_point : unscaled_point)
      (rest : list unscaled_point) :
  forall a : unscaled_point,
    shoelace start_point a rest = chain a (rest ++ [start_point]).
Proof.
  induction rest as [|p rest IH]; intros a.
  - cbn [app shoelace chain]. lia.
  - cbn [app shoelace chain]. rewrite IH. reflexivity.
Qed.

Lemma cross_swap (a b : unscaled_point) : cross b a = - cross a b.
Proof. unfold cross. lia. Qed.

Lemma chain_rev (rest : list unscaled_point) :
  forall a b : unscaled_point,
    chain b (rev rest ++ [a]) = - chain a (rest ++ [b]).
Proof.
  induction rest as [|p rest IH]; intros a b.
  - cbn [rev app chain]. rewrite (cross_swap a b). lia.
  - cbn [rev]. rewrite chain_snoc, last_last, IH.
    change (chain a ((p :: rest) ++ [b]))
      with (cross a p + chain p (rest ++ [b])).
    rewrite (cross_swap a p). lia.
Qed.

Lemma twice_signed_area_rev (start_point : unscaled_point)
      (rest : list unscaled_point) :
  twice_signed_area start_point (rev rest)
  = - twice_signed_area start_point rest.
Proof.
  unfold twice_signed_area. rewrite !shoelace_chain. apply chain_rev.
Qed.

Lemma ring_sum_within_extent (start_point : unscaled_point)
      (rest : list unscaled_point) :
  within_extent (2 ^ 16) start_point ->
  Forall (within_extent (2 ^ 16)) rest ->
  Z.of_nat (length rest) < 2 ^ 29 ->
  ring_sum start_point rest = twice_signed_area start_point rest.
Proof.
  intros Hs Hrest Hn. rewrite ring_sum_shoelace.
  - apply i64_small. unfold twice_signed_area.
    pose proof (shoelace_bound _ _ Hs Hrest _ Hs) as Hb.
    unfold Int.is_i64. lia.
  - exact (proj1 (within_extent_i32 _ Hs)).
  - exact (proj2 (within_extent_i32 _ Hs)).
  - eapply Forall_impl; [|exact Hrest]. exact within_extent_i32.
Qed.

(** X15.  Rings walked the other way.  For a ring of small coordinates
    (both within 2^16 of 0, the count below 2^29), the sum the polygon
    driver computes for the points of the LineTo taken in the opposite
    order, from the same start point, is the opposite number: the ring is
    outer one way exactly when it is inner the other way, and invalid one
    way exactly when it is invalid the other way. *)
Theorem reversed_ring_has_opposite_class :
  forall (start_point : unscaled_point) (rest : list unscaled_point),
    within_extent (2 ^ 16) start_point ->
    Forall (within_extent (2 ^ 16)) rest ->
    Z.of_nat (length rest) < 2 ^ 29 ->
    ring_sum start_point (rev rest) = - ring_sum start_point rest
    /\ (ring_type_of_sum (ring_sum start_point (rev rest)) = outer
        <-> ring_type_of_sum (ring_sum start_point rest) = inner)
    /\ (ring_type_of_sum (ring_sum start_point (rev rest)) = inner
        <-> ring_type_of_sum (ring_sum start_point rest) = outer)
    /\ (ring_type_of_sum (ring_sum start_point (rev rest)) = invalid
        <-> ring_type_of_sum (ring_sum start_point rest) = invalid).
Proof.
  intros start_point rest Hs Hrest Hn.
  assert (E : ring_sum start_point (rev rest) = - ring_sum start_point rest).
  { rewrite (ring_sum_within_extent _ _ Hs Hrest Hn).
    rewrite ring_sum_within_extent.
    - apply twice_signed_area_rev.
    - exact Hs.
    - apply Forall_rev. exact Hrest.
    - rewrite length_rev. exact Hn. }
  split; [exact E|]. rewrite E. unfold ring_type_of_sum.
  set (sum := ring_sum start_point rest).
  destruct (Z.gtb_spec (- sum) 0), (Z.ltb_spec (- sum) 0),
    (Z.gtb_spec sum 0), (Z.ltb_spec sum 0);
    try lia; repeat split; intros; try reflexivity; try discriminate.
Qed.

(** ** The comparison operators *)

(** X16.  The comparison operators of the two point classes decide
    equality: [operator==] returns true exactly on points whose members
    are all equal, the elevation included for an [unscaled_point], and
    [operator!=] exactly on the others. *)
Theorem point_operators_decide_equality :
  forall (a b : point) (c d : unscaled_point),
    (point_eqb a b = true <-> a = b)
    /\ (point_neb a b = true <-> a <> b)
    /\ (unscaled_point_eqb c d = true <-> c = d)
    /\ (unscaled_point_neb c d = true <-> c <> d).
Proof.
  intros [ax ay] [bx by_] [cx cy cz] [dx dy dz].
  assert (P : point_eqb (mk_point ax ay) (mk_point bx by_) = true
              <-> mk_point ax ay = mk_point bx by_).
  { unfold point_eqb. cbn [px py]. rewrite andb_true_iff, !Z.eqb_eq. split.
    - intros [-> ->]. reflexivity.
    - intros H. injection H as -> ->. split; reflexivity. }
  assert (U : unscaled_point_eqb (mk_unscaled_point cx cy cz)
                                 (mk_unscaled_point dx dy dz) = true
              <-> mk_unscaled_point cx cy cz = mk_unscaled_point dx dy dz).
  { unfold unscaled_point_eqb. cbn [x y z].
    rewrite !andb_true_iff, !Z.eqb_eq. split.
    - intros [[-> ->] ->]. reflexivity.
    - intros H. injection H as -> -> ->. repeat split. }
  split; [exact P|]. split; [|split; [exact U|]].
  - unfold point_neb. rewrite negb_true_iff, <- not_true_iff_false, P.
    reflexivity.
  - unfold unscaled_point_neb.
    rewrite negb_true_iff, <- not_true_iff_false, U. reflexivity.
Qed.

(* ================================================================== *)
(** * Further examples *)

Ltac u64_stream := cbn; repeat constructor; unfold Int.is_u64; lia.

Lemma one_attribute_u64 : Forall Int.is_u64 one_attribute.
Proof. u64_stream. Qed.

Lemma two_points_u32 : Forall Int.is_u32 two_points.
Proof. u32_stream. Qed.

Lemma two_point_ring_u32 : Forall Int.is_u32 two_point_ring.
Proof. u32_stream. Qed.

Lemma attribute_reads_stay_in_range_witness :
  Forall Int.is_u64 one_attribute
  /\ Attr.collection 2 one_attribute = Ok one_attribute_slots
  /\ Forall (fun a => Attr.values_present a
                      /\ (Attr.m_count a <> 0 -> Attr.m_it a <> []))
            (Nat.iter 3 (fun l => fst (attribute_calls unscaled_point l))
                      one_attribute_slots).
Proof.
  assert (Hu : Forall Int.is_u64 one_attribute) by exact one_attribute_u64.
  assert (H : Attr.collection 2 one_attribute = Ok one_attribute_slots)
    by (vm_compute; reflexivity).
  split; [exact Hu|]. split; [exact H|].
  exact (attribute_reads_stay_in_range unscaled_point 2 one_attribute
           one_attribute_slots 3 Hu H).
Defined.

Lemma attribute_value_after_reads_witness :
  Attr.values_present three_values
  /\ Int.is_i64 (Attr.m_value three_values)
  /\ Z.of_nat 3 <= Attr.m_count three_values
  /\ Attr.m_it (read_values 3 three_values)
     = skipn 3 (Attr.m_it three_values)
  /\ Attr.m_count (read_values 3 three_values)
     = Attr.m_count three_values - Z.of_nat 3
  /\ Attr.key_index (read_values 3 three_values)
     = Attr.key_index three_values
  /\ Attr.scaling_index (read_values 3 three_values)
     = Attr.scaling_index three_values
  /\ Attr.value (read_values 3 three_values)
     = Int.i64 (Attr.m_value three_values
                + sum_Z (map attribute_delta
                             (firstn 3 (Attr.m_it three_values)))).
Proof.
  assert (Hp : Attr.values_present three_values)
    by (unfold Attr.values_present; cbn; lia).
  assert (Hv : Int.is_i64 (Attr.m_value three_values))
    by (unfold Int.is_i64; cbn; lia).
  assert (Hc : Z.of_nat 3 <= Attr.m_count three_values) by (cbn; lia).
  split; [exact Hp|]. split; [exact Hv|]. split; [exact Hc|].
  exact (proj1 (attribute_value_after_reads 3 three_values Hp Hv) Hc).
Defined.

Lemma vertices_are_sums_of_deltas_witness :
  Forall Int.is_u32 two_points
  /\ decode_point 3 0 keep two_points_start
     = (Ok tt, snd (decode_point 3 0 keep two_points_start))
  /\ exists vs : list (vertex unscaled_point),
      two_points = points_words vs
      /\ calls (snd (decode_point 3 0 keep two_points_start))
         = points_calls keep vs
      /\ sums_of_deltas 3 (mk_unscaled_point 0 0 0) [10; 20] vs.
Proof.
  assert (Hu : Forall Int.is_u32 two_points) by exact two_points_u32.
  assert (H : decode_point 3 0 keep two_points_start
              = (Ok tt, snd (decode_point 3 0 keep two_points_start)))
    by (vm_compute; reflexivity).
  split; [exact Hu|]. split; [exact H|].
  exact (proj1 (vertices_are_sums_of_deltas 3 0 unscaled_point keep
                  two_points [10; 20] dummy_attr_iterator 2 _ Hu) H).
Defined.

Lemma point_driver_uses_up_elevations_witness :
  Forall Int.is_u32 (m_geom_it (dec two_points_start))
  /\ decode_point 3 0 keep two_points_start
     = (Ok tt, snd (decode_point 3 0 keep two_points_start))
  /\ exists vs : list (vertex unscaled_point),
      m_geom_it (dec two_points_start) = points_words vs
      /\ if 3 =? 3
         then (length (m_elev_it (dec two_points_start)) <= length vs)%nat
         else m_elev_it (dec two_points_start) = [].
Proof.
  assert (Hu : Forall Int.is_u32 (m_geom_it (dec two_points_start)))
    by exact two_points_u32.
  assert (H : decode_point 3 0 keep two_points_start
              = (Ok tt, snd (decode_point 3 0 keep two_points_start)))
    by (vm_compute; reflexivity).
  split; [exact Hu|]. split; [exact H|].
  exact (point_driver_uses_up_elevations 3 0 unscaled_point keep
           two_points_start _ Hu H).
Defined.

Lemma linestring_driver_accepts_exactly_witness :
  m_count (dec linestrings_start) = 0
  /\ Forall Int.is_u32 (m_geom_it (dec linestrings_start))
  /\ collection_of 0 (m_attr_it (dec linestrings_start)) = Ok []
  /\ exists s',
      decode_linestring 2 0 keep linestrings_start = (Ok tt, s').
Proof.
  assert (Hc : m_count (dec linestrings_start) = 0) by reflexivity.
  assert (Hu : Forall Int.is_u32 (m_geom_it (dec linestrings_start)))
    by exact two_linestrings_u32.
  assert (Ha : collection_of 0 (m_attr_it (dec linestrings_start)) = Ok [])
    by reflexivity.
  split; [exact Hc|]. split; [exact Hu|]. split; [exact Ha|].
  apply (proj2 (proj1 (linestring_driver_accepts_exactly 2 0 unscaled_point
                         keep linestrings_start [] Hc Hu Ha))).
  exists [((2, 2), [(2, 2)]); ((2, 2), [(1, 1); (1, 1)])].
  split; [vm_compute; reflexivity|].
  repeat constructor; vm_compute; discriminate.
Defined.

Lemma polygon_driver_accepts_exactly_witness :
  m_count (dec triangles_start) = 0
  /\ Forall Int.is_u32 (m_geom_it (dec triangles_start))
  /\ collection_of 0 (m_attr_it (dec triangles_start)) = Ok []
  /\ exists s',
      decode_polygon 2 0 keep triangles_start = (Ok tt, s').
Proof.
  assert (Hc : m_count (dec triangles_start) = 0) by reflexivity.
  assert (Hu : Forall Int.is_u32 (m_geom_it (dec triangles_start)))
    by exact two_triangles_u32.
  assert (Ha : collection_of 0 (m_attr_it (dec triangles_start)) = Ok [])
    by reflexivity.
  split; [exact Hc|]. split; [exact Hu|]. split; [exact Ha|].
  apply (proj2 (proj1 (polygon_driver_accepts_exactly 2 0 unscaled_point
                         keep triangles_start [] Hc Hu Ha))).
  exists [((2, 2), [(2, 0); (0, 2)]); ((2, 2), [(2, 0); (0, 2)])].
  split; [vm_compute; reflexivity|].
  repeat constructor; vm_compute; discriminate.
Defined.

Lemma point_driver_accepts_exactly_witness :
  m_count (dec two_points_start) = 0
  /\ Forall Int.is_u32 (m_geom_it (dec two_points_start))
  /\ collection_of 0 (m_attr_it (dec two_points_start)) = Ok []
  /\ exists s',
      decode_point 3 0 keep two_points_start = (Ok tt, s').
Proof.
  assert (Hc : m_count (dec two_points_start) = 0) by reflexivity.
  assert (Hu : Forall Int.is_u32 (m_geom_it (dec two_points_start)))
    by exact two_points_u32.
  assert (Ha : collection_of 0 (m_attr_it (dec two_points_start)) = Ok [])
    by reflexivity.
  split; [exact Hc|]. split; [exact Hu|]. split; [exact Ha|].
  apply (proj2 (proj1 (point_driver_accepts_exactly 3 0 unscaled_point
                         keep two_points_start [] Hc Hu Ha))).
  exists [(2, 2); (2, 2)].
  split; [vm_compute; reflexivity|].
  split; [split; vm_compute; discriminate|].
  cbn. lia.
Defined.

Lemma drivers_end_well_witness :
  m_count (dec close_path_2_start) = 0
  /\ Forall Int.is_u32 (m_geom_it (dec close_path_2_start))
  /\ ends_well (m_attr_it (dec close_path_2_start))
               (fst (decode_point 2 0 keep close_path_2_start))
  /\ ends_well (m_attr_it (dec close_path_2_start))
               (fst (decode_linestring 2 0 keep close_path_2_start))
  /\ ends_well (m_attr_it (dec close_path_2_start))
               (fst (decode_polygon 2 0 keep close_path_2_start)).
Proof.
  assert (Hc : m_count (dec close_path_2_start) = 0) by reflexivity.
  assert (Hu : Forall Int.is_u32 (m_geom_it (dec close_path_2_start)))
    by (constructor; [unfold Int.is_u32, close_path_2; lia|constructor]).
  split; [exact Hc|]. split; [exact Hu|].
  exact (drivers_end_well 2 0 unscaled_point keep close_path_2_start Hc Hu).
Defined.

Lemma entry_points_accept_the_grammar_witness :
  Forall Int.is_u32 (geometry_integers two_linestrings_geometry)
  /\ Z.of_nat (length (geometry_integers two_linestrings_geometry))
     <= data_size two_linestrings_geometry
  /\ data_size two_linestrings_geometry / 2 <= max_command_count
  /\ decode_linestring_geometry keep two_linestrings_geometry
     = (Ok tt,
        flat_map (linestring_calls keep)
          (fst (paths_of 2 unscaled_point plain_reader
                  [((2, 2), [(2, 2)]); ((2, 2), [(1, 1); (1, 1)])]))).
Proof.
  assert (Hu : Forall Int.is_u32 (geometry_integers two_linestrings_geometry))
    by exact two_linestrings_u32.
  assert (Hl : Z.of_nat (length (geometry_integers two_linestrings_geometry))
               <= data_size two_linestrings_geometry)
    by (vm_compute; discriminate).
  assert (Hs : data_size two_linestrings_geometry / 2 <= max_command_count)
    by (vm_compute; discriminate).
  split; [exact Hu|]. split; [exact Hl|]. split; [exact Hs|].
  apply (proj2 (proj1 (proj2 (entry_points_accept_the_grammar
                                unscaled_point keep two_linestrings_geometry
                                Hu Hl Hs)) _)).
  split; [reflexivity|].
  exists [((2, 2), [(2, 2)]); ((2, 2), [(1, 1); (1, 1)])].
  split; [vm_compute; reflexivity|].
  split; [repeat constructor; discriminate|reflexivity].
Defined.

Lemma decode_geometry_is_plain_witness :
  Forall Int.is_u32 (geometry_integers two_triangles_geometry)
  /\ decode_geometry keep two_triangles_geometry
     = (Ok tt, snd (decode_geometry keep two_triangles_geometry))
  /\ Forall (fun c => is_attr_call c = false)
            (snd (decode_geometry keep two_triangles_geometry))
  /\ exists points : list unscaled_point,
      points_of_calls (snd (decode_geometry keep two_triangles_geometry))
      = map keep points
      /\ Forall (fun q => z q = 0) points.
Proof.
  assert (Hu : Forall Int.is_u32 (geometry_integers two_triangles_geometry))
    by exact two_triangles_u32.
  assert (H : decode_geometry keep two_triangles_geometry
              = (Ok tt, snd (decode_geometry keep two_triangles_geometry)))
    by (vm_compute; reflexivity).
  split; [exact Hu|]. split; [exact H|].
  exact (decode_geometry_is_plain unscaled_point keep two_triangles_geometry
           _ Hu H).
Defined.

Lemma ring_class_within_extent_witness :
  decode_polygon 2 0 keep triangles_start
  = (Ok tt, snd (decode_polygon 2 0 keep triangles_start))
  /\ Forall Int.is_u32 (m_geom_it (dec triangles_start))
  /\ exists ps : list (path unscaled_point),
      m_geom_it (dec triangles_start) = flat_map ring_words ps
      /\ calls (snd (decode_polygon 2 0 keep triangles_start))
         = calls triangles_start ++ flat_map (ring_calls keep) ps
      /\ Forall
           (fun p =>
              Forall (fun v => within_extent (2 ^ 16) (v_point v))
                     (path_vertices p) ->
              ring_sum (v_point (p_first p)) (map v_point (p_rest p))
              = twice_signed_area (v_point (p_first p))
                                  (map v_point (p_rest p))
              /\ last (ring_calls keep p) points_end
                 = ring_end (ring_type_of_sum
                               (twice_signed_area
                                  (v_point (p_first p))
                                  (map v_point (p_rest p)))))
           ps.
Proof.
  assert (H : decode_polygon 2 0 keep triangles_start
              = (Ok tt, snd (decode_polygon 2 0 keep triangles_start)))
    by (vm_compute; reflexivity).
  assert (Hu : Forall Int.is_u32 (m_geom_it (dec triangles_start)))
    by exact two_triangles_u32.
  split; [exact H|]. split; [exact Hu|].
  exact (ring_class_within_extent 2 0 unscaled_point keep
           triangles_start _ H Hu).
Defined.

Lemma rings_of_two_points_are_invalid_witness :
  decode_polygon 2 0 keep two_point_ring_start
  = (Ok tt, snd (decode_polygon 2 0 keep two_point_ring_start))
  /\ Forall Int.is_u32 (m_geom_it (dec two_point_ring_start))
  /\ exists ps : list (path unscaled_point),
      m_geom_it (dec two_point_ring_start) = flat_map ring_words ps
      /\ calls (snd (decode_polygon 2 0 keep two_point_ring_start))
         = calls two_point_ring_start ++ flat_map (ring_calls keep) ps
      /\ Forall
           (fun p =>
              (length (p_rest p) <= 1)%nat ->
              last (ring_calls keep p) points_end = ring_end invalid)
           ps.
Proof.
  assert (H : decode_polygon 2 0 keep two_point_ring_start
              = (Ok tt, snd (decode_polygon 2 0 keep two_point_ring_start)))
    by (vm_compute; reflexivity).
  assert (Hu : Forall Int.is_u32 (m_geom_it (dec two_point_ring_start)))
    by exact two_point_ring_u32.
  split; [exact H|]. split; [exact Hu|].
  exact (rings_of_two_points_are_invalid 2 0 unscaled_point keep
           two_point_ring_start _ H Hu).
Defined.

Lemma attribute_calls_per_vertex_witness :
  Forall Int.is_u32 (m_geom_it (dec attributed_linestrings_start))
  /\ decode_linestring 2 2 keep attributed_linestrings_start
     = (Ok tt, snd (decode_linestring 2 2 keep attributed_linestrings_start))
  /\ exists (attrs : list Attr.geometric_attribute)
            (ps : list (path unscaled_point)),
      new_geom_attributes 2 attributed_linestrings_start
      = (Ok tt,
         mk_machine (dec attributed_linestrings_start) attrs
                    (calls attributed_linestrings_start))
      /\ m_geom_it (dec attributed_linestrings_start)
         = flat_map linestring_words ps
      /\ calls (snd (decode_linestring 2 2 keep attributed_linestrings_start))
         = calls attributed_linestrings_start
           ++ flat_map (linestring_calls keep) ps
      /\ decoded 2
           (mk_reader (m_cursor (dec attributed_linestrings_start))
                      (m_elev_it (dec attributed_linestrings_start)) attrs)
           (flat_map path_vertices ps)
           (reader_of
              (snd (decode_linestring 2 2 keep attributed_linestrings_start)))
      /\ Forall
           (fun p =>
              linestring_calls keep p
              = linestring_begin (Z.of_nat (length (p_rest p)) + 1)
                :: flat_map
                     (fun v => linestring_point (keep (v_point v))
                               :: v_calls v)
                     (path_vertices p)
                ++ [linestring_end]
              /\ Forall (fun v =>
                           Forall (fun c => is_attr_call c = true)
                                  (v_calls v)
                           /\ length (v_calls v)
                              = match
                                  m_attr_it (dec attributed_linestrings_start)
                                with
                                | dummy_attr_iterator => O
                                | attr_range _ => 2%nat
                                end)
                        (path_vertices p))
           ps.
Proof.
  assert (Hu : Forall Int.is_u32
                      (m_geom_it (dec attributed_linestrings_start)))
    by exact two_linestrings_u32.
  assert (H : decode_linestring 2 2 keep attributed_linestrings_start
              = (Ok tt,
                 snd (decode_linestring 2 2 keep
                        attributed_linestrings_start)))
    by (vm_compute; reflexivity).
  split; [exact Hu|]. split; [exact H|].
  exact (proj1 (attribute_calls_per_vertex 2 2 unscaled_point keep
                  attributed_linestrings_start _ Hu) H).
Defined.

(** The two linestrings with room for two attributes and one attribute
    declared: every point is followed by two attribute calls. *)
Example attributed_linestrings_calls :
  calls (snd (decode_linestring 2 2 keep attributed_linestrings_start))
  = [linestring_begin 2;
     linestring_point (mk_unscaled_point 1 1 0);
     call_points_attr (Some 0) (Some 0) 2;
     call_points_null_attr None;
     linestring_point (mk_unscaled_point 2 2 0);
     call_points_null_attr (Some 0);
     call_points_null_attr None;
     linestring_end;
     linestring_begin 3;
     linestring_point (mk_unscaled_point 3 3 0);
     call_points_null_attr (Some 0);
     call_points_null_attr None;
     linestring_point (mk_unscaled_point 2 2 0);
     call_points_null_attr (Some 0);
     call_points_null_attr None;
     linestring_point (mk_unscaled_point 1 1 0);
     call_points_null_attr (Some 0);
     call_points_null_attr None;
     linestring_end].
Proof. vm_compute. reflexivity. Qed.

Lemma decode_geometry_dispatch_witness :
  max_command_count < data_size oversized_geometry / 2
  /\ decode_geometry keep oversized_geometry
     = (Throw (assert_error "max <= detail::max_command_count()"), [])
  /\ data_size unknown_geometry / 2 <= max_command_count
  /\ decode_geometry keep unknown_geometry
     = (Throw (geometry_exception "unknown geometry type"), []).
Proof.
  assert (Ho : max_command_count < data_size oversized_geometry / 2)
    by (vm_compute; reflexivity).
  assert (Hs : data_size unknown_geometry / 2 <= max_command_count)
    by (vm_compute; discriminate).
  split; [exact Ho|].
  split; [exact (proj1 (decode_geometry_dispatch unscaled_point keep
                          oversized_geometry) Ho)|].
  split; [exact Hs|].
  exact (proj1 (proj2 (decode_geometry_dispatch unscaled_point keep
                         unknown_geometry)) Hs).
Defined.

Lemma reversed_ring_has_opposite_class_witness :
  within_extent (2 ^ 16) (mk_unscaled_point 1 1 0)
  /\ Forall (within_extent (2 ^ 16))
            [mk_unscaled_point 2 1 0; mk_unscaled_point 2 2 0]
  /\ Z.of_nat (length [mk_unscaled_point 2 1 0; mk_unscaled_point 2 2 0])
     < 2 ^ 29
  /\ ring_type_of_sum
       (ring_sum (mk_unscaled_point 1 1 0)
                 [mk_unscaled_point 2 1 0; mk_unscaled_point 2 2 0])
     = outer
  /\ ring_type_of_sum
       (ring_sum (mk_unscaled_point 1 1 0)
                 (rev [mk_unscaled_point 2 1 0; mk_unscaled_point 2 2 0]))
     = inner.
Proof.
  assert (Hs : within_extent (2 ^ 16) (mk_unscaled_point 1 1 0))
    by (unfold within_extent; cbn; lia).
  assert (Hrest : Forall (within_extent (2 ^ 16))
                         [mk_unscaled_point 2 1 0; mk_unscaled_point 2 2 0])
    by (repeat constructor; cbn; lia).
  assert (Hn : Z.of_nat (length [mk_unscaled_point 2 1 0;
                                 mk_unscaled_point 2 2 0]) < 2 ^ 29)
    by (vm_compute; reflexivity).
  assert (Ho : ring_type_of_sum
                 (ring_sum (mk_unscaled_point 1 1 0)
                           [mk_unscaled_point 2 1 0; mk_unscaled_point 2 2 0])
               = outer)
    by (vm_compute; reflexivity).
  split; [exact Hs|]. split; [exact Hrest|]. split; [exact Hn|].
  split; [exact Ho|].
  exact (proj2 (proj1 (proj2 (proj2 (reversed_ring_has_opposite_class
                                       _ _ Hs Hrest Hn)))) Ho).
Defined.
